(** * KDD-RAG: the adaptive retrieval router and the streaming chat endpoint

    A shallow embedding of the serving path of the repository:

    - [helpers/utils.py]      : [call_model], [clean_text]
    - [helpers/prompts.py]    : the prompt templates used while serving
    - [db/unstructured_db.py] : [ElasticsearchRetrievalManager.search],
                                [ElasticsearchHistoryManager]
    - [db/graph_db.py]        : [GraphDatabaseManager.extract_entities], [search]
    - [core/*.py]             : [BaseRAG], [FusionRAG], [GraphRAG], [AdaptiveRAG]
    - [api.py]                : [RAG_REGISTRY], [chat], [generate_response]

    Text is a Rocq [string]; the case and whitespace functions follow Python's
    [str] methods on the ASCII repertoire and leave any other byte untouched.
    A line of a response body is a [bytes] value: the encoding of a text, or
    bytes that [decode("utf-8")] rejects.
    The services the code talks to (the vLLM endpoint, the Elasticsearch
    vector store, Neo4j, the JSON decoder of a streamed chunk, the uuid
    source) are fields of an environment record [Env]; every function below
    is written against an arbitrary environment.  Side effects are threaded
    through a state-and-exception monad over [world]: the persisted chat
    history index and the trace of calls made so far. *)

From Stdlib Require Import ZArith Ascii String List Bool Lia.
From stdpp Require Import base option gmap strings list.
Import ListNotations.

Local Open Scope Z_scope.

(* ===================================================================== *)
(** ** Python [str] helpers *)
(* ===================================================================== *)

Module Str.

Definition LF : string := String "010"%char EmptyString.
Definition DQUOTE : string := String "034"%char EmptyString.

Definition is_upper (c : ascii) : bool :=
  let n := N_of_ascii c in (65 <=? n)%N && (n <=? 90)%N.

(** [c.lower()] for one character. *)
Definition lower_char (c : ascii) : ascii :=
  if is_upper c then ascii_of_N (N_of_ascii c + 32) else c.

(** [s.lower()] *)
Fixpoint lower (s : string) : string :=
  match s with
  | EmptyString => EmptyString
  | String c t => String (lower_char c) (lower t)
  end.

(** [s.startswith(p)] *)
Fixpoint startswith (p s : string) : bool :=
  match p, s with
  | EmptyString, _ => true
  | String a p', String b s' => if Ascii.eqb a b then startswith p' s' else false
  | String _ _, EmptyString => false
  end.

(** [needle in hay] *)
Fixpoint contains (needle hay : string) : bool :=
  startswith needle hay ||
  match hay with
  | EmptyString => false
  | String _ t => contains needle t
  end.

(** [s[n:]] *)
Fixpoint drop (n : nat) (s : string) : string :=
  match n, s with
  | O, _ => s
  | S _, EmptyString => EmptyString
  | S k, String _ t => drop k t
  end.

(** [c.isspace()]: tab, LF, VT, FF, CR, the separators 0x1c-0x1f, space. *)
Definition isspace (c : ascii) : bool :=
  let n := N_of_ascii c in
  ((9 <=? n)%N && (n <=? 13)%N) || ((28 <=? n)%N && (n <=? 32)%N).

Fixpoint lstrip (s : string) : string :=
  match s with
  | EmptyString => EmptyString
  | String c t => if isspace c then lstrip t else s
  end.

Fixpoint rstrip (s : string) : string :=
  match s with
  | EmptyString => EmptyString
  | String c t =>
      match rstrip t with
      | EmptyString => if isspace c then EmptyString else String c EmptyString
      | t' => String c t'
      end
  end.

(** [s.strip()] *)
Definition strip (s : string) : string := rstrip (lstrip s).

(** [sep.join(parts)] *)
Fixpoint join (sep : string) (parts : list string) : string :=
  match parts with
  | [] => EmptyString
  | [p] => p
  | p :: rest => String.append p (String.append sep (join sep rest))
  end.

(** [''.join(parts)] *)
Definition concat (parts : list string) : string :=
  fold_right String.append EmptyString parts.

(** [s.split(sep)] for a one-character separator: never the empty list. *)
Fixpoint split (sep : ascii) (s : string) : list string :=
  match s with
  | EmptyString => [EmptyString]
  | String c t =>
      if Ascii.eqb c sep then EmptyString :: split sep t
      else match split sep t with
           | [] => [String c EmptyString]
           | w :: ws => String c w :: ws
           end
  end.

(** [re.sub("[<chars>]", "", s)]: delete every character of a class. *)
Fixpoint remove_chars (cls : ascii -> bool) (s : string) : string :=
  match s with
  | EmptyString => EmptyString
  | String c t => if cls c then remove_chars cls t else String c (remove_chars cls t)
  end.

Definition mem_char (c : ascii) (cs : string) : bool :=
  existsb (Ascii.eqb c) (list_ascii_of_string cs).

(** Python truthiness of a [str]. *)
Definition truthy (s : string) : bool :=
  match s with EmptyString => false | _ => true end.

(** [s.split()] with no separator: the maximal runs of non-whitespace
    characters.  [split_ws_go] returns the word still open at the front of
    the string (empty if the string starts with whitespace) and the words
    after it. *)
Fixpoint split_ws_go (s : string) : string * list string :=
  match s with
  | EmptyString => (EmptyString, [])
  | String c t =>
      let (w, ws) := split_ws_go t in
      if isspace c then (EmptyString, if truthy w then w :: ws else ws)
      else (String c w, ws)
  end.

Definition split_ws (s : string) : list string :=
  let (w, ws) := split_ws_go s in
  if truthy w then w :: ws else ws.

(** Every character of the string satisfies [p]. *)
Fixpoint all_chars (p : ascii -> bool) (s : string) : bool :=
  match s with
  | EmptyString => true
  | String c t => p c && all_chars p t
  end.

(** The text before and the text after the first occurrence of [sep], as in
    [s.partition(sep)], when there is one. *)
Fixpoint partition (sep s : string) : option (string * string) :=
  if startswith sep s then Some (EmptyString, drop (String.length sep) s)
  else match s with
       | EmptyString => None
       | String c t =>
           match partition sep t with
           | Some (before, after) => Some (String c before, after)
           | None => None
           end
       end.

End Str.

Notation "a +++ b" := (String.append a b) (at level 60, right associativity).

(* ===================================================================== *)
(** ** helpers/prompts.py *)
(* ===================================================================== *)

Module Prompts.
Import Str.

Definition ENTITY_SYSTEM_PROMPT : string :=
  "You are expert at extracting entities from the text. these entities will be used for graph data retrieval." +++ LF +++
  "You must generate the output as a python list of strings, where each element represents an extracted entity. Do not output any reasoning, Provide the list only.".

(** The template opens with a stray double quote. *)
Definition ENTITY_PROMPT (query : string) : string :=
  DQUOTE +++ "Use the given format to extract entities from the following input: " +++ query.

Definition GENERATION_SYSTEM_PROMPT : string :=
  "You are a helpful AI assistant. Use the given context to answer the user's question.".

(** [GENERATION_PROMPT.format(question=..., context=...)] *)
Definition GENERATION_PROMPT (question context : string) : string :=
  "Answer the question below from the following context:" +++ LF +++
  "### Context: " +++ context +++ LF +++
  "### question: " +++ question +++ LF.

Definition CLASSIFIER_SYSTEM_PROMPT : string :=
  "You are an expert in classifying queries by their relevance to a dataset containing information about jobs and products." +++ LF +++
  "        Classify the input query into exactly one of the following categories:" +++ LF +++
  "        - **Irrelevant**: The query is unrelated to jobs or products. Includes greetings, casual conversation, or meta-questions about the system." +++ LF +++
  "        - **Relevant**: The query directly concerns jobs or products and can be answered using the indexed data." +++ LF +++
  "        - **Complex**: The query is related to jobs or products but requires multi-step reasoning, comparisons, or advanced filtering." +++ LF +++
  LF +++
  "        Respond with only the category name: `Irrelevant`, `Relevant`, or `Complex`. Do not include any explanation or additional text." +++ LF +++
  "        ".

(** [CLASSIFIER_PROMPT.format(query=...)] *)
Definition CLASSIFIER_PROMPT (query : string) : string :=
  "Classify this query: " +++ query.

Definition EVAL_AGENT_SYS_PROMPT : string :=
  "You are an evaluation assistant for conversational AI system. Ensure your evaluation align with the provided metric definitions.".

(** [EVAL_AGENT_PROMPT.format(chat_history=...)]; the doubled braces of the
    template stand for single ones. *)
Definition EVAL_AGENT_PROMPT (chat_history : string) : string :=
  ("Your task is to critically evaluate the assistant's responses based on specific metrics." +++ LF +++
   LF +++
   "Provide the final evaluation results clearly and concisely in the exact format below:" +++ LF +++
   LF +++
   "[[{" +++ LF +++
   "  " +++ Str.DQUOTE +++ "Relevance" +++ Str.DQUOTE +++ ": ," +++ LF +++
   "  " +++ Str.DQUOTE +++ "SPAR" +++ Str.DQUOTE +++ ": ," +++ LF +++
   "  " +++ Str.DQUOTE +++ "CH" +++ Str.DQUOTE +++ ": ," +++ LF +++
   "  " +++ Str.DQUOTE +++ "RQ" +++ Str.DQUOTE +++ ": ," +++ LF +++
   "}]]" +++ LF +++
   LF +++
   "**Metric Descriptions and Evaluation Process:**" +++ LF +++
   LF +++
   "1. **Relevance (0-10):**  " +++ LF +++
   "   Measures how directly the assistant's response addresses the user's query. It ranges from 0 to 10. Provide a numerical score along with justification." +++ LF +++
   LF +++
   "2. **System Persona Adherence Ratio (SPAR, 0-10):**  " +++ LF +++
   "  Measures how consistently the assistant maintained its defined persona as a knowledgeable helper regarding jobs and products, ensuring relevant answer, professional tone, and topic focus. Justify your score." +++ LF +++
   "3. **Chat History (CH, 0-5):**  " +++ LF +++
   "   Indicates whether the assistant correctly retained and referenced the chat history. It ranges from 0 to 5." +++ LF +++
   LF +++
   "4. **Response Quality (RQ, 0-10):**  " +++ LF +++
   "   Assesses coherence, fluency, logical consistency, and context-awareness of the assistant across the entire interaction. It ranges from 0 to 10" +++ LF +++
   "   - Justify your score clearly." +++ LF +++
   LF +++
   "### CHAT HISTORY START ###" +++ LF) +++
  chat_history +++
  (LF +++
   "### CHAT HISTORY END ###" +++ LF +++
   LF +++
   "Now, carefully review the provided chat history, calculate each metric according to the guidelines, and deliver your assessment with thorough justifications in the exact dictionary format above." +++ LF).

End Prompts.

(* ===================================================================== *)
(** ** Exceptions, messages, the environment and the effect monad *)
(* ===================================================================== *)

(** A chat message, the dict [{"role": ..., "content": ...}]. *)
Record Message := mkMessage { role : string; content : string }.

(** Python exceptions: FastAPI's [HTTPException] and everything else. *)
Inductive exn :=
| HTTPException (status_code : Z) (detail : string)
| PyError (name : string).

Inductive result (A : Type) :=
| Ok (a : A)
| Raise (e : exn).
Arguments Ok {A} a.
Arguments Raise {A} e.

(** A [bytes] value, as [iter_lines] yields them: the UTF-8 encoding of a
    text, kept as that text, or bytes that are not well-formed UTF-8.  The
    latter are never empty, the empty [bytes] being the encoding of the empty
    text. *)
Inductive bytes :=
| Utf8 (text : string)
| NotUtf8.

(** Truthiness of a [bytes] value: it is not empty. *)
Definition bytes_truthy (line : bytes) : bool :=
  match line with
  | Utf8 text => Str.truthy text
  | NotUtf8 => true
  end.

(** [line.decode("utf-8")] *)
Definition decode_utf8 (line : bytes) : result string :=
  match line with
  | Utf8 text => Ok text
  | NotUtf8 => Raise (PyError "UnicodeDecodeError")
  end.

(** The [requests.Response] of the vLLM endpoint.  [requests.post] is called
    without [stream=True], so the whole body has been read when it returns:
    [iter_lines] walks a fixed list of lines.  [json_message_content] is the
    outcome of [response.json()['choices'][0]['message']['content']]. *)
Record Response := mkResponse {
  json_message_content : result string;
  iter_lines : list bytes
}.

Record Env := mkEnv {
  (** [requests.post(VLLM_URL, ...)] for a payload with these messages,
      [max_tokens] and [stream] flag *)
  requests_post : list Message -> Z -> bool -> result Response;
  (** [vector_store.asimilarity_search(query, k, filter=None)]: the
      [page_content] of each returned document *)
  asimilarity_search : string -> Z -> result (list string);
  (** [Neo4jGraph.query(<cypher>, {"query": entity})]: the [output] column *)
  graph_query : string -> result (list string);
  (** [json.loads(json_str)["choices"][0]["delta"].get("content", "")],
      raising when the chunk is not of that shape or the content is no [str] *)
  json_delta_content : string -> result string;
  (** [str(uuid.uuid4())] *)
  uuid4 : string;
  (** whether the Elasticsearch node of the history index answers *)
  es_reachable : bool
}.

Inductive event :=
| EvPost (messages : list Message) (max_tokens : Z) (stream : bool)
| EvVectorSearch (query : string) (top_k : Z)
| EvGraphSearch (query : string)
| EvGraphQuery (entity : string)
| EvHistoryGet (session_id : string)
| EvHistoryStore (session_id : string) (messages : list Message).

(** The mutable world: the [chat_history] index ([None] while the index does
    not exist) and the calls made so far, oldest first. *)
Record world := mkWorld {
  chat_history : option (gmap string (list Message));
  trace : list event
}.

Definition M (A : Type) : Type := world -> result A * world.

Definition ret {A} (a : A) : M A := fun w => (Ok a, w).
Definition raise {A} (e : exn) : M A := fun w => (Raise e, w).
Definition bind {A B} (m : M A) (k : A -> M B) : M B :=
  fun w => match m w with
           | (Ok a, w') => k a w'
           | (Raise e, w') => (Raise e, w')
           end.
(** [try: m  except Exception as e: h e] *)
Definition try_except {A} (m : M A) (h : exn -> M A) : M A :=
  fun w => match m w with
           | (Ok a, w') => (Ok a, w')
           | (Raise e, w') => h e w'
           end.
Definition lift {A} (r : result A) : M A := fun w => (r, w).
Definition emit (ev : event) : M unit :=
  fun w => (Ok tt, {| chat_history := chat_history w; trace := trace w ++ [ev] |}).
Definition get_index : M (option (gmap string (list Message))) :=
  fun w => (Ok (chat_history w), w).
Definition put_index (h : option (gmap string (list Message))) : M unit :=
  fun w => (Ok tt, {| chat_history := h; trace := trace w |}).

Declare Scope py_scope.
Delimit Scope py_scope with py.
Notation "x <- m ;; k" := (bind m (fun x => k))
  (at level 100, m at next level, right associativity) : py_scope.
Notation "m ;;; k" := (bind m (fun _ => k))
  (at level 100, right associativity) : py_scope.
Local Open Scope py_scope.

(* ===================================================================== *)
(** ** helpers/utils.py *)
(* ===================================================================== *)

(** [call_model(messages, max_tokens, stream=False)]: the stripped completion
    text when [stream] is false, the response object itself otherwise.  There
    is no [try] around the request or the decoding. *)
Definition call_model (env : Env) (messages : list Message) (max_tokens : Z)
    (stream : bool) : M (if stream then Response else string) :=
  emit (EvPost messages max_tokens stream) ;;;
  response <- lift (requests_post env messages max_tokens stream) ;;
  match stream return M (if stream then Response else string) with
  | false => c <- lift (json_message_content response) ;; ret (Str.strip c)
  | true => ret response
  end.

(** [clean_text(text)] *)
Definition clean_text (text : string) : string :=
  let text := Str.remove_chars (fun c => Str.mem_char c (Str.DQUOTE +++ "'[]")) text in
  let text := Str.remove_chars (fun c => Str.mem_char c ".,!?;:(){}") text in
  Str.strip text.

(* ===================================================================== *)
(** ** db/unstructured_db.py *)
(* ===================================================================== *)

Module ElasticsearchRetrievalManager.

(** [search(query, top_k=5, filter_dict=None)]; no caller passes a filter. *)
Definition search (env : Env) (query : string) (top_k : Z) : M string :=
  emit (EvVectorSearch query top_k) ;;;
  try_except
    (results <- lift (asimilarity_search env query top_k) ;;
     ret (Str.join Str.LF results))
    (fun _ => ret EmptyString).

End ElasticsearchRetrievalManager.

Module ElasticsearchHistoryManager.

Definition ConnectionError : exn := PyError "ConnectionError".
Definition NotFoundError : exn := PyError "NotFoundError".

(** [es_client.indices.exists(index=chat_history_index)] *)
Definition check_index_exists (env : Env) : M bool :=
  if es_reachable env
  then (idx <- get_index ;; ret (match idx with Some _ => true | None => false end))
  else raise ConnectionError.

(** [es_client.get(index, id)["_source"]["history"]], decoded *)
Definition es_get (env : Env) (session_id : string) : M (list Message) :=
  if es_reachable env
  then (idx <- get_index ;;
        match idx with
        | Some docs =>
            match docs !! session_id with
            | Some history => ret history
            | None => raise NotFoundError
            end
        | None => raise NotFoundError
        end)
  else raise ConnectionError.

(** [get_chat_history(session_id)]: the existence check sits before the
    [try]; any failure of the read itself yields the empty list. *)
Definition get_chat_history (env : Env) (session_id : string) : M (list Message) :=
  emit (EvHistoryGet session_id) ;;;
  index_exists <- check_index_exists env ;;
  if negb index_exists then ret []
  else try_except (es_get env session_id) (fun _ => ret []).

(** [store_chat_history(session_id, messages)]: an upsert keyed by the
    session id; the index is created by the first write. *)
Definition store_chat_history (env : Env) (session_id : string)
    (messages : list Message) : M unit :=
  emit (EvHistoryStore session_id messages) ;;;
  if es_reachable env
  then (idx <- get_index ;;
        put_index (Some (<[session_id := messages]> (default ∅ idx))))
  else raise ConnectionError.

(** [create_chat_history_index()]: creates the index (empty) unless it is
    there already. *)
Definition create_chat_history_index (env : Env) : M unit :=
  index_exists <- check_index_exists env ;;
  if negb index_exists
  then (if es_reachable env then put_index (Some ∅) else raise ConnectionError)
  else ret tt.

End ElasticsearchHistoryManager.

(* ===================================================================== *)
(** ** db/graph_db.py *)
(* ===================================================================== *)

Module GraphDatabaseManager.

(** [extract_entities(query)] *)
Definition extract_entities (env : Env) (query : string) : M (list string) :=
  let messages :=
    [ mkMessage "system" Prompts.ENTITY_SYSTEM_PROMPT;
      mkMessage "user" (Prompts.ENTITY_PROMPT query) ] in
  response <- call_model env messages 50 false ;;
  ret (List.map (fun name => clean_text (Str.strip name))
         (List.filter (fun name => Str.truthy (Str.strip name))
            (Str.split ","%char response))).

(** The [for entity in entities] loop of [search], [result] being the text
    accumulated so far. *)
Fixpoint search_loop (env : Env) (entities : list string) (result : string)
    : M string :=
  match entities with
  | [] => ret result
  | entity :: rest =>
      emit (EvGraphQuery entity) ;;;
      response <- lift (graph_query env entity) ;;
      let result := result +++ Str.join Str.LF response in
      let result := result +++ Str.LF in
      search_loop env rest result
  end.

(** [search(query)] *)
Definition search (env : Env) (query : string) : M string :=
  emit (EvGraphSearch query) ;;;
  entities <- extract_entities env query ;;
  search_loop env entities EmptyString.

(** The [for word in words[:-1]] loop of [generate_full_text_query]. *)
Fixpoint full_text_loop (words : list string) (full_text_query : string) : string :=
  match words with
  | [] => full_text_query
  | word :: rest => full_text_loop rest (full_text_query +++ word +++ "~2 AND ")
  end.

(** [generate_full_text_query(input_text)].  [remove_lucene_chars] is the
    langchain helper the module imports; it is a parameter here. *)
Definition generate_full_text_query (remove_lucene_chars : string -> string)
    (input_text : string) : string :=
  if negb (Str.truthy input_text) then EmptyString
  else
    let words := List.filter Str.truthy (Str.split_ws (remove_lucene_chars input_text)) in
    match words with
    | [] => EmptyString
    | [word] => word +++ "~2"
    | _ =>
        let full_text_query := full_text_loop (removelast words) EmptyString in
        let full_text_query := full_text_query +++ List.last words EmptyString +++ "~2" in
        Str.strip full_text_query
    end.

(** A langchain [Node(id, type)], a [Relationship] and a [GraphDocument]. *)
Record Node := mkNode { node_id : string; node_type : string }.

Record Relationship := mkRelationship {
  rel_source : Node;
  rel_target : Node;
  rel_type : string
}.

Record GraphDocument := mkGraphDocument {
  nodes : list Node;
  relationships : list Relationship;
  source_text : string
}.

(** [rel[key]] on a [Dict[str, str]]. *)
Definition getitem (rel : gmap string string) (key : string) : result string :=
  match rel !! key with
  | Some v => Ok v
  | None => Raise (PyError "KeyError")
  end.

(** One iteration of the [for rel in parsed_json] loop of
    [init_graph_document]: the two pairs added to [nodes_set] and the
    relationship appended, or the [KeyError] of the first missing key. *)
Definition graph_step (rel : gmap string string)
    : result ((string * string) * (string * string) * Relationship) :=
  match getitem rel "head" with Raise e => Raise e | Ok head =>
  match getitem rel "head_type" with Raise e => Raise e | Ok head_type =>
  match getitem rel "tail" with Raise e => Raise e | Ok tail =>
  match getitem rel "tail_type" with Raise e => Raise e | Ok tail_type =>
  match getitem rel "relation" with Raise e => Raise e | Ok relation =>
    Ok ((head, head_type), (tail, tail_type),
        mkRelationship (mkNode head head_type) (mkNode tail tail_type) relation)
  end end end end end.

Fixpoint graph_loop (parsed_json : list (gmap string string))
    (nodes_set : gset (string * string)) (relationships : list Relationship)
    : result (gset (string * string) * list Relationship) :=
  match parsed_json with
  | [] => Ok (nodes_set, relationships)
  | rel :: rest =>
      match graph_step rel with
      | Raise e => Raise e
      | Ok (h, t, r) => graph_loop rest ({[t]} ∪ ({[h]} ∪ nodes_set)) (relationships ++ [r])
      end
  end.

(** [init_graph_document(parsed_json, document)].  The node list is the set
    in the order the set happens to enumerate it. *)
Definition init_graph_document (parsed_json : list (gmap string string))
    (document : string) : result GraphDocument :=
  match graph_loop parsed_json ∅ [] with
  | Raise e => Raise e
  | Ok (nodes_set, relationships) =>
      Ok (mkGraphDocument
            (List.map (fun el => mkNode (fst el) (snd el)) (elements nodes_set))
            relationships document)
  end.

(** One entry of a saved graph file, [{"text": ..., "parsed_relationships":
    ...}]; a missing key is [None]. *)
Record GraphItem := mkGraphItem {
  item_text : option string;
  item_parsed : option (list (gmap string string))
}.

(** The body of the [try] in the [graph_ready] branch of [index]. *)
Definition convert_item (item : GraphItem) : result GraphDocument :=
  match item_text item with
  | None => Raise (PyError "KeyError")
  | Some text =>
      match item_parsed item with
      | None => Raise (PyError "KeyError")
      | Some parsed => init_graph_document parsed text
      end
  end.

(** The [for item in graph_data] loop of the [graph_ready] branch of
    [index], up to the list handed to [add_graph_documents].  Its handler
    reads [except Execption as e]: that name is bound nowhere, so an
    exception in the body makes the handler's own lookup raise [NameError]. *)
Fixpoint index_ready_loop (graph_data : list GraphItem)
    (graph_documents : list GraphDocument) : result (list GraphDocument) :=
  match graph_data with
  | [] => Ok graph_documents
  | item :: rest =>
      match convert_item item with
      | Ok graph_document => index_ready_loop rest (graph_documents ++ [graph_document])
      | Raise _ => Raise (PyError "NameError")
      end
  end.

End GraphDatabaseManager.

(* ===================================================================== *)
(** ** core/base_rag.py, fusion_rag.py, graph_rag.py, adaptive_rag.py *)
(* ===================================================================== *)

(** An instance of a [BaseRAG] subclass: its two abstract methods. *)
Record BaseRAG := mkRAG {
  retrieve : string -> Z -> M string;
  generate : string -> list Message -> string -> M Response
}.

(** [BaseRAG.__call__(query, messages, k=5)] *)
Definition __call__ (self : BaseRAG) (query : string) (messages : list Message)
    (k : Z) : M Response :=
  contexts <- retrieve self query k ;;
  generate self query messages contexts.

(** The body shared verbatim by the three [generate] methods: a copy of the
    history, one synthetic user turn, a streaming call. *)
Definition generate_with_context (env : Env) (query : string)
    (messages : list Message) (context : string) : M Response :=
  let messages_copy := messages in
  let messages_copy :=
    messages_copy ++ [mkMessage "user" (Prompts.GENERATION_PROMPT query context)] in
  call_model env messages_copy 500 true.

Module FusionRAG.
Definition retrieve (env : Env) (query : string) (k : Z) : M string :=
  ElasticsearchRetrievalManager.search env query k.
Definition generate := generate_with_context.
Definition new (env : Env) : BaseRAG := mkRAG (retrieve env) (generate env).
End FusionRAG.

Module GraphRAG.
Definition retrieve (env : Env) (query : string) (k : Z) : M string :=
  GraphDatabaseManager.search env query.
Definition generate := generate_with_context.
Definition new (env : Env) : BaseRAG := mkRAG (retrieve env) (generate env).
End GraphRAG.

Module AdaptiveRAG.

Definition valid_categories : list string := ["irrelevant"; "relevant"; "complex"].

(** The [for valid in valid_categories] loop of [_classify] and the
    default after it. *)
Fixpoint first_valid (valid_categories : list string) (category : string) : string :=
  match valid_categories with
  | [] => "relevant"
  | valid :: rest =>
      if Str.contains (Str.lower valid) (Str.lower category) then valid
      else first_valid rest category
  end.

(** [_classify(query)] *)
Definition classifier_messages (query : string) : list Message :=
  [ mkMessage "system" Prompts.CLASSIFIER_SYSTEM_PROMPT;
    mkMessage "system" (Prompts.CLASSIFIER_PROMPT query) ].

Definition _classify (env : Env) (query : string) : M string :=
  let messages := classifier_messages query in
  category <- call_model env messages 5 false ;;
  ret (first_valid valid_categories category).

(** Lines 25-37 of [retrieve]: the dispatch on the category. *)
Definition retrieve_category (env : Env) (category query : string) (k : Z)
    : M string :=
  let result := EmptyString in
  if String.eqb category "relevant" then
    ElasticsearchRetrievalManager.search env query k
  else if String.eqb category "complex" then
    hybrid_res <- ElasticsearchRetrievalManager.search env query k ;;
    g_res <- GraphDatabaseManager.search env query ;;
    ret (hybrid_res +++ Str.LF +++ g_res)
  else ret result.

(** [retrieve(query, k=5)] *)
Definition retrieve (env : Env) (query : string) (k : Z) : M string :=
  category <- _classify env query ;;
  retrieve_category env category query k.

Definition generate := generate_with_context.
Definition new (env : Env) : BaseRAG := mkRAG (retrieve env) (generate env).

End AdaptiveRAG.

(* ===================================================================== *)
(** ** schemas.py and api.py *)
(* ===================================================================== *)

Record QueryInput := mkQueryInput {
  question : string;
  rag_type : string;
  session_id : option string
}.

(** The schema defaults: [rag_type='Fusion'], [session_id=None]. *)
Definition QueryInput_default (question : string) : QueryInput :=
  mkQueryInput question "Fusion" None.

(** [RAG_REGISTRY], a dict from strategy name to handler instance. *)
Definition RAG_REGISTRY (env : Env) : gmap string BaseRAG :=
  <["fusion" := FusionRAG.new env]>
    (<["graph" := GraphRAG.new env]>
       (<["adaptive" := AdaptiveRAG.new env]> ∅)).

(** One server-sent event, the JSON object [{'token': ..., 'session_id': ...}]
    behind the [data: ] prefix. *)
Record SSE := mkSSE { token : string; sse_session_id : string }.

(** The suspended states of the generator [generate_response]: inside the
    [for] loop (the lines still to read and the text accumulated so far),
    suspended at the end-of-stream [yield] after the loop, or finished. *)
Inductive generator :=
| GenLoop (lines : list bytes) (final_full_response : string)
| GenEpilogue (final_full_response : string)
| GenFinished.

(** What [chat] returns: [StreamingResponse(generate_response(), ...)], the
    generator together with the variables its closure captures. *)
Record StreamingResponse := mkStreamingResponse {
  closure_session_id : string;
  closure_messages : list Message;
  body_iterator : generator
}.

(** Python truthiness of [session_id : Optional[str]]. *)
Definition session_id_given (session_id : option string) : option string :=
  match session_id with
  | Some s => if Str.truthy s then Some s else None
  | None => None
  end.

(** The [for line in response_stream.iter_lines()] loop, run from the top of
    an iteration up to the next [yield]: either an event and the state to
    resume from, or the exception that escapes the generator. *)
Fixpoint loop_to_yield (env : Env) (session_id : string) (lines : list bytes)
    (final_full_response : string) : result (SSE * generator) :=
  match lines with
  | [] => Ok (mkSSE EmptyString session_id, GenEpilogue final_full_response)
  | line :: rest =>
      if bytes_truthy line then
        match decode_utf8 line with
        | Raise e => Raise e
        | Ok decoded_line =>
            if Str.startswith "data:" decoded_line then
              let json_str := Str.strip (Str.drop 5 decoded_line) in
              if String.eqb json_str "[DONE]" then
                Ok (mkSSE EmptyString session_id, GenEpilogue final_full_response)
              else
                match json_delta_content env json_str with
                | Raise e => Raise e
                | Ok content =>
                    Ok (mkSSE content session_id,
                        GenLoop rest (final_full_response +++ content))
                end
            else loop_to_yield env session_id rest final_full_response
        end
      else loop_to_yield env session_id rest final_full_response
  end.

(** One [__anext__] on the generator: run it to its next [yield] ([Some]
    event) or to its end ([None]).  The code after the loop appends the
    assistant turn and stores the history only when the generator is resumed
    from its last [yield]. *)
Definition generate_response_next (env : Env) (session_id : string)
    (messages : list Message) (g : generator) : M (option SSE * generator) :=
  match g with
  | GenLoop lines final_full_response =>
      r <- lift (loop_to_yield env session_id lines final_full_response) ;;
      ret (Some (fst r), snd r)
  | GenEpilogue final_full_response =>
      let messages := messages ++ [mkMessage "assistant" final_full_response] in
      ElasticsearchHistoryManager.store_chat_history env session_id messages ;;;
      ret (None, GenFinished)
  | GenFinished => ret (None, GenFinished)
  end.

(** Lines 44-88 of [chat], once the handler has been selected.  The handler
    works on a copy of [messages] ([generate] calls [messages.copy()]), so
    the list the generator captures is the starting history followed by the
    user turn appended on line 58. *)
Definition chat_with (env : Env) (rag_instance : BaseRAG) (request : QueryInput)
    : M StreamingResponse :=
  sm <- match session_id_given (session_id request) with
        | None => ret (uuid4 env, [])
        | Some session_id =>
            messages <- ElasticsearchHistoryManager.get_chat_history env session_id ;;
            ret (session_id, messages)
        end ;;
  let session_id := fst sm in
  let messages := snd sm in
  let messages :=
    match messages with
    | [] => [mkMessage "system" Prompts.GENERATION_SYSTEM_PROMPT]
    | _ => messages
    end in
  response_stream <- __call__ rag_instance (question request) messages 5 ;;
  let messages := messages ++ [mkMessage "user" (question request)] in
  ret (mkStreamingResponse session_id messages
         (GenLoop (iter_lines response_stream) EmptyString)).

(** [chat(request)] *)
Definition chat (env : Env) (request : QueryInput) : M StreamingResponse :=
  let rag_type := Str.lower (rag_type request) in
  match RAG_REGISTRY env !! rag_type with
  | None =>
      raise (HTTPException 400
               ("Invalid RAG type: " +++ rag_type +++
                ". Available types: ['fusion', 'graph', 'adaptive']"))
  | Some rag_instance => chat_with env rag_instance request
  end.

(** The server sending the body: it asks the generator for the next chunk
    while the client is connected.  [reads] is the number of times it gets to
    ask before the client goes away; a generator abandoned at a [yield] runs
    no further code.  The result is the events sent and whether the generator
    ran to its end. *)
Fixpoint send_body (env : Env) (reads : nat) (session_id : string)
    (messages : list Message) (g : generator) : M (list SSE * bool) :=
  match reads with
  | O => ret ([], false)
  | S reads' =>
      r <- generate_response_next env session_id messages g ;;
      match r with
      | (Some ev, g') =>
          rest <- send_body env reads' session_id messages g' ;;
          ret (ev :: fst rest, snd rest)
      | (None, _) => ret ([], true)
      end
  end.

Definition send_response (env : Env) (reads : nat) (r : StreamingResponse)
    : M (list SSE * bool) :=
  send_body env reads (closure_session_id r) (closure_messages r) (body_iterator r).

(** A whole request: the handler, then the streamed body. *)
Definition handle_request (env : Env) (reads : nat) (request : QueryInput)
    : M (list SSE * bool) :=
  r <- chat env request ;;
  send_response env reads r.

(* ===================================================================== *)
(** ** evaluate.py *)
(* ===================================================================== *)

Module Evaluate.

(** [parse_response(response)].  The pattern [\[\[(.*?)\]\]] with [DOTALL]
    matches from the first [[[] to the first []]] after it; [json_loads] is
    [json.loads], [None] standing for [JSONDecodeError]. *)
Definition parse_response {J : Type} (json_loads : string -> option J)
    (response : string) : option J :=
  match Str.partition "[[" response with
  | Some (_, rest) =>
      match Str.partition "]]" rest with
      | Some (group1, _) => json_loads (Str.strip group1)
      | None => None
      end
  | None => None
  end.

(** The [for msg in messages] loop of [evaluate]. *)
Fixpoint format_conversation (messages : list Message) (conversation_str : string)
    : string :=
  match messages with
  | [] => conversation_str
  | msg :: rest =>
      if String.eqb (role msg) "user" then
        format_conversation rest
          (conversation_str +++ "User: " +++ content msg +++ Str.LF +++ Str.LF)
      else if String.eqb (role msg) "assistant" then
        format_conversation rest
          (conversation_str +++ "Assistant: " +++ content msg +++ Str.LF +++ Str.LF)
      else format_conversation rest conversation_str
  end.

(** [evaluate(messages)] *)
Definition evaluate {J : Type} (json_loads : string -> option J) (env : Env)
    (messages : list Message) : M (option J) :=
  let eval_messages := [mkMessage "system" Prompts.EVAL_AGENT_SYS_PROMPT] in
  let conversation_str := format_conversation messages EmptyString in
  let eval_prompt := Prompts.EVAL_AGENT_PROMPT conversation_str in
  let eval_messages := eval_messages ++ [mkMessage "user" eval_prompt] in
  resp <- call_model env eval_messages 600 false ;;
  ret (parse_response json_loads resp).

(** [load_data(file_path)], on the lines [f.readlines()] returns. *)
Definition load_data (readlines : list string) : list string :=
  List.map Str.strip (List.filter (fun line => Str.truthy (Str.strip line)) readlines).

End Evaluate.

(* ===================================================================== *)
(** ** interactive_chat.py *)
(* ===================================================================== *)

Module InteractiveChat.

(** What [json.loads] makes of a line: no JSON at all ([JSONDecodeError]), a
    JSON value that is no object, or an object with text values. *)
Inductive parsed :=
| NotJson
| NotObject
| Object (data : gmap string string).

(** The streamed response of the chat endpoint as the client sees it: the
    status, the lines that arrive, and whether the connection breaks after
    them (a [RequestException] out of [iter_lines]). *)
Record HttpResponse := mkHttpResponse {
  status_code : Z;
  received_lines : list bytes;
  interrupted : bool
}.

(** The [for line in response.iter_lines()] loop of [chat_with_bot].  The
    [decode] is outside the inner [try], and a [UnicodeDecodeError] is no
    [RequestException]: it leaves [chat_with_bot]. *)
Fixpoint read_stream (json_loads : string -> parsed) (lines : list bytes)
    (full_response : string) (received_session_id : option string)
    : result (string * option string) :=
  match lines with
  | [] => Ok (full_response, received_session_id)
  | line :: rest =>
      if bytes_truthy line then
        match decode_utf8 line with
        | Raise e => Raise e
        | Ok decoded =>
            if Str.startswith "data:" decoded then
              match json_loads (Str.drop 5 decoded) with
              | NotJson => read_stream json_loads rest full_response received_session_id
              | NotObject => Raise (PyError "AttributeError")
              | Object data =>
                  let content := default EmptyString (data !! "token") in
                  let received_session_id :=
                    match data !! "session_id" with
                    | Some sid => Some sid
                    | None => received_session_id
                    end in
                  read_stream json_loads rest (full_response +++ content)
                    received_session_id
              end
            else read_stream json_loads rest full_response received_session_id
        end
      else read_stream json_loads rest full_response received_session_id
  end.

(** [chat_with_bot(question, session_id)], given what [requests.post]
    produced for the payload ([None]: a [RequestException]).  The printing is
    left out. *)
Definition chat_with_bot (json_loads : string -> parsed)
    (post : string -> option string -> option HttpResponse)
    (question : string) (session_id : option string)
    : result (string * option string) :=
  match post question session_id with
  | None => Ok (EmptyString, session_id)
  | Some response =>
      if negb (status_code response =? 200)%Z then Ok (EmptyString, session_id)
      else
        match read_stream json_loads (received_lines response) EmptyString session_id with
        | Raise e => Raise e
        | Ok (full_response, received_session_id) =>
            if interrupted response then Ok (EmptyString, session_id)
            else Ok (full_response, received_session_id)
        end
  end.

End InteractiveChat.

(* ===================================================================== *)
(** ** Test doubles for the external services *)
(* ===================================================================== *)

Module Doubles.

(** A streamed chunk [{"choices":[{"delta":{"content":"<text>"}}]}]. *)
Definition chunk_prefix : string :=
  "{" +++ Str.DQUOTE +++ "choices" +++ Str.DQUOTE +++ ":[{" +++
  Str.DQUOTE +++ "delta" +++ Str.DQUOTE +++ ":{" +++
  Str.DQUOTE +++ "content" +++ Str.DQUOTE +++ ":" +++ Str.DQUOTE.

Definition chunk (text : string) : string :=
  chunk_prefix +++ text +++ Str.DQUOTE +++ "}}]}".

Definition data_line (text : string) : bytes := Utf8 ("data: " +++ chunk text).

Fixpoint until_quote (s : string) : string :=
  match s with
  | EmptyString => EmptyString
  | String c t => if Ascii.eqb c "034"%char then EmptyString else String c (until_quote t)
  end.

(** A decoder for chunks of exactly that shape (text without escapes). *)
Definition decode_chunk (json_str : string) : result string :=
  if Str.startswith chunk_prefix json_str
  then Ok (until_quote (Str.drop (String.length chunk_prefix) json_str))
  else Raise (PyError "JSONDecodeError").

(** The vLLM endpoint: the classifier call is the one with [max_tokens=5],
    entity extraction the one with [max_tokens=50]. *)
Definition vllm (classifier entities : result string) (lines : list bytes)
    (messages : list Message) (max_tokens : Z) (stream : bool) : result Response :=
  if stream then Ok (mkResponse (Raise (PyError "JSONDecodeError")) lines)
  else if (max_tokens =? 5)%Z then Ok (mkResponse classifier [])
  else Ok (mkResponse entities []).

Definition unreachable (messages : list Message) (max_tokens : Z) (stream : bool)
    : result Response :=
  Raise (PyError "ConnectionError").

Definition docs (query : string) (k : Z) : result (list string) :=
  Ok ["Returns are accepted within 30 days."].

Definition no_docs (query : string) (k : Z) : result (list string) := Ok [].

Definition search_down (query : string) (k : Z) : result (list string) :=
  Raise (PyError "ConnectionTimeout").

Definition triples (entity : string) : result (list string) :=
  if String.eqb entity "Adam" then Ok ["Adam - WORKS_FOR -> Microsoft"]
  else if String.eqb entity "Neo" then Raise (PyError "ServiceUnavailable")
  else Ok [].

Definition policy_answer : list bytes :=
  [ data_line "The"; Utf8 EmptyString; data_line " return"; Utf8 EmptyString;
    data_line " policy"; data_line " is"; data_line " 30 days.";
    Utf8 "data: [DONE]" ].

(** Everything up: the classifier answers [answer], entity extraction
    answers [entities]. *)
Definition env_up (answer entities : string) : Env :=
  mkEnv (vllm (Ok answer) (Ok entities) policy_answer) docs triples decode_chunk
        "3f2b8c1e-0000-4000-8000-000000000001" true.

(** The vector store raises on every search. *)
Definition env_vector_down (answer entities : string) : Env :=
  mkEnv (vllm (Ok answer) (Ok entities) policy_answer) search_down triples
        decode_chunk "3f2b8c1e-0000-4000-8000-000000000001" true.

(** Nothing indexed: the vector store returns no document and entity
    extraction names no entity. *)
Definition env_nothing_found : Env :=
  mkEnv (vllm (Ok "Complex") (Ok EmptyString) policy_answer) no_docs triples
        decode_chunk "3f2b8c1e-0000-4000-8000-000000000001" true.

(** The generation backend cannot be reached. *)
Definition env_llm_down : Env :=
  mkEnv unreachable docs triples decode_chunk
        "3f2b8c1e-0000-4000-8000-000000000001" true.

Definition empty_world : world := mkWorld None [].

Definition earlier_turns : list Message :=
  [ mkMessage "system" Prompts.GENERATION_SYSTEM_PROMPT;
    mkMessage "user" "Hello";
    mkMessage "assistant" "Hi, how can I help?" ].

(** A store that already holds one session. *)
Definition world_with_session : world :=
  mkWorld (Some (<["s-42" := earlier_turns]> ∅)) [].

(** The response [chat] returned, for a request that did not fail. *)
Definition response_of (outcome : result StreamingResponse * world) : StreamingResponse :=
  match fst outcome with
  | Ok r => r
  | Raise _ => mkStreamingResponse EmptyString [] GenFinished
  end.

Definition events_of (outcome : result (list SSE * bool) * world) : list SSE :=
  match fst outcome with
  | Ok (events, _) => events
  | Raise _ => []
  end.

Definition session : string := "3f2b8c1e-0000-4000-8000-000000000001".

Definition return_policy : QueryInput :=
  mkQueryInput "What is the return policy?" "adaptive" None.

(** Two parsed relationships, those of the extraction examples, and one
    that lacks its [tail_type]. *)
Definition adam_works : gmap string string :=
  <["head" := "Adam"]> (<["head_type" := "Person"]> (<["relation" := "WORKS_FOR"]>
    (<["tail" := "Microsoft"]> (<["tail_type" := "Company"]> ∅)))).

Definition adam_award : gmap string string :=
  <["head" := "Adam"]> (<["head_type" := "Person"]> (<["relation" := "HAS_AWARD"]>
    (<["tail" := "Best Talent"]> (<["tail_type" := "Award"]> ∅)))).

Definition untyped_tail : gmap string string :=
  <["head" := "Adam"]> (<["head_type" := "Person"]> (<["relation" := "LIVES_IN"]>
    (<["tail" := "Seattle"]> ∅))).

Definition document_of (outcome : result GraphDatabaseManager.GraphDocument)
    : GraphDatabaseManager.GraphDocument :=
  match outcome with
  | Ok doc => doc
  | Raise _ => GraphDatabaseManager.mkGraphDocument [] [] EmptyString
  end.

(** The store cannot be reached; everything else is up. *)
Definition env_store_down : Env :=
  mkEnv (vllm (Ok "Relevant") (Ok EmptyString) policy_answer) docs triples decode_chunk
        "3f2b8c1e-0000-4000-8000-000000000001" false.

(** A body whose second chunk is not JSON, and one whose second line is not
    UTF-8. *)
Definition broken_answer : list bytes :=
  [ data_line "The"; Utf8 "data: {oops"; data_line " policy"; Utf8 "data: [DONE]" ].

Definition garbled_answer : list bytes :=
  [ data_line "The"; NotUtf8; Utf8 "data: {oops"; Utf8 "data: [DONE]" ].

Definition env_broken_stream : Env :=
  mkEnv (vllm (Ok "Relevant") (Ok EmptyString) broken_answer) docs triples decode_chunk
        "3f2b8c1e-0000-4000-8000-000000000001" true.

Definition env_garbled_stream : Env :=
  mkEnv (vllm (Ok "Relevant") (Ok EmptyString) garbled_answer) docs triples decode_chunk
        "3f2b8c1e-0000-4000-8000-000000000001" true.

(** A saved graph file with two good entries, and one whose second entry
    has lost its text. *)
Definition saved_graph : list GraphDatabaseManager.GraphItem :=
  [ GraphDatabaseManager.mkGraphItem (Some "Adam works at Microsoft") (Some [adam_works]);
    GraphDatabaseManager.mkGraphItem (Some "Adam got an award") (Some [adam_award]) ].

Definition damaged_graph : list GraphDatabaseManager.GraphItem :=
  [ GraphDatabaseManager.mkGraphItem (Some "Adam works at Microsoft") (Some [adam_works]);
    GraphDatabaseManager.mkGraphItem None (Some [adam_award]) ].

(** An event as the JSON object [{"token": "<t>", "session_id": "<s>"}]. *)
Definition token_prefix : string :=
  "{" +++ Str.DQUOTE +++ "token" +++ Str.DQUOTE +++ ": " +++ Str.DQUOTE.

Definition session_infix : string :=
  Str.DQUOTE +++ ", " +++ Str.DQUOTE +++ "session_id" +++ Str.DQUOTE +++ ": " +++ Str.DQUOTE.

Definition dumps_event (ev : SSE) : string :=
  token_prefix +++ token ev +++ session_infix +++ sse_session_id ev +++ Str.DQUOTE +++ "}".

(** A decoder for objects of exactly that shape (texts without escapes). *)
Definition loads_event (text : string) : InteractiveChat.parsed :=
  let text := Str.lstrip text in
  if Str.startswith token_prefix text then
    let after_prefix := Str.drop (String.length token_prefix) text in
    let tok := until_quote after_prefix in
    let after_token := Str.drop (String.length tok) after_prefix in
    if Str.startswith session_infix after_token then
      let sid := until_quote (Str.drop (String.length session_infix) after_token) in
      InteractiveChat.Object (<["token" := tok]> (<["session_id" := sid]> ∅))
    else InteractiveChat.NotJson
  else InteractiveChat.NotJson.

(** A numeric score sheet as the evaluation parser's JSON: this double
    accepts any text that opens with a brace. *)
Definition loads_scores (text : string) : option string :=
  if Str.startswith "{" text then Some text else None.

End Doubles.

(* ===================================================================== *)
(** ** Vocabulary of the statements *)
(* ===================================================================== *)

(** The world after some more calls, the history index untouched. *)
Definition add_events (w : world) (evs : list event) : world :=
  {| chat_history := chat_history w; trace := trace w ++ evs |}.

(** The text one entity adds to the graph result. *)
Definition entity_block (env : Env) (entity : string) : string :=
  match graph_query env entity with
  | Ok response => Str.join Str.LF response +++ Str.LF
  | Raise _ => EmptyString
  end.

(** The traversal query for this entity returns rows (possibly none). *)
Definition query_ok (env : Env) (entity : string) : Prop :=
  exists response, graph_query env entity = Ok response.

Definition is_store (ev : event) : bool :=
  match ev with EvHistoryStore _ _ => true | _ => false end.

(** The generation call: the one streaming post of a handler. *)
Definition is_generation_call (ev : event) : bool :=
  match ev with EvPost _ _ true => true | _ => false end.

(** A computation that leaves the history index alone and never calls
    [store_chat_history]: it only adds other calls to the trace. *)
Definition read_only {A : Type} (m : M A) : Prop :=
  forall w, exists evs,
    snd (m w) = add_events w evs /\ forallb (fun ev => negb (is_store ev)) evs = true.

(** The history found in the store for a session ([[]] when there is none). *)
Definition stored_history (w : world) (session_id : string) : list Message :=
  match chat_history w with
  | Some docs => default [] (docs !! session_id)
  | None => []
  end.

(** The session a request runs in, and the history it starts from. *)
Definition session_of (env : Env) (request : QueryInput) : string :=
  match session_id_given (session_id request) with
  | Some sid => sid
  | None => uuid4 env
  end.

Definition history_before (request : QueryInput) (w : world) : list Message :=
  let loaded :=
    match session_id_given (session_id request) with
    | Some sid => stored_history w sid
    | None => []
    end in
  match loaded with
  | [] => [mkMessage "system" Prompts.GENERATION_SYSTEM_PROMPT]
  | _ => loaded
  end.

(** The world after one successful [store_chat_history]. *)
Definition committed (w : world) (session_id : string) (messages : list Message)
    : world :=
  {| chat_history := Some (<[session_id := messages]> (default ∅ (chat_history w)));
     trace := trace w ++ [EvHistoryStore session_id messages] |}.

(** The text accumulated by a generator that has not finished. *)
Definition pending (g : generator) : option string :=
  match g with
  | GenLoop _ acc => Some acc
  | GenEpilogue acc => Some acc
  | GenFinished => None
  end.

(** A decoded line the loop reads as a chunk. *)
Definition is_chunk_line (line : string) : bool :=
  Str.truthy line && Str.startswith "data:" line
  && negb (String.eqb (Str.strip (Str.drop 5 line)) "[DONE]").

(** Every line of the body is UTF-8 and every chunk line decodes. *)
Definition stream_decodes (env : Env) (lines : list bytes) : Prop :=
  Forall (fun line =>
            exists decoded_line,
              line = Utf8 decoded_line
              /\ (is_chunk_line decoded_line = true ->
                  exists content,
                    json_delta_content env (Str.strip (Str.drop 5 decoded_line))
                    = Ok content))
         lines.

(** [chat_with] once the session is resolved, from the world [w0] reached by
    then: the handler is called on the starting history and its response is
    wrapped with the variables the generator captures. *)
Definition respond (env : Env) (handler : BaseRAG) (request : QueryInput)
    (w w0 : world) : result StreamingResponse * world :=
  match __call__ handler (question request) (history_before request w) 5 w0 with
  | (Ok response_stream, w') =>
      (Ok (mkStreamingResponse (session_of env request)
             (history_before request w ++ [mkMessage "user" (question request)])
             (GenLoop (iter_lines response_stream) EmptyString)), w')
  | (Raise e, w') => (Raise e, w')
  end.

(** Two characters that differ at most in letter case: the same code, or an
    upper-case letter and its lower-case form, 32 codes further. *)
Definition case_variant (a b : ascii) : bool :=
  let x := N_of_ascii a in
  let y := N_of_ascii b in
  (x =? y)%N || (Str.is_upper a && (y =? x + 32)%N) || (Str.is_upper b && (x =? y + 32)%N).

(** Two strings that differ only in letter case, position by position. *)
Fixpoint same_modulo_case (s t : string) : bool :=
  match s, t with
  | EmptyString, EmptyString => true
  | String a s', String b t' => case_variant a b && same_modulo_case s' t'
  | _, _ => false
  end.

(** The characters [clean_text] deletes. *)
Definition cleaned_chars : string := Str.DQUOTE +++ "'[].,!?;:(){}".

Definition is_cleaned_char (c : ascii) : bool := Str.mem_char c cleaned_chars.

(** The string is empty or starts with a character that is no whitespace. *)
Definition starts_nonspace (s : string) : bool :=
  match s with
  | EmptyString => true
  | String c _ => negb (Str.isspace c)
  end.

(** A word as [str.split()] returns it: not empty, no whitespace inside. *)
Definition is_word (w : string) : bool :=
  Str.truthy w && Str.all_chars (fun c => negb (Str.isspace c)) w.

(** The messages of the entity-extraction call. *)
Definition entity_messages (query : string) : list Message :=
  [ mkMessage "system" Prompts.ENTITY_SYSTEM_PROMPT;
    mkMessage "user" (Prompts.ENTITY_PROMPT query) ].

(** What [extract_entities] makes of a completion. *)
Definition entities_of (response : string) : list string :=
  List.map (fun name => clean_text (Str.strip name))
    (List.filter (fun name => Str.truthy (Str.strip name)) (Str.split ","%char response)).

(** The five keys [init_graph_document] reads from each relationship. *)
Definition relationship_keys : list string :=
  ["head"; "head_type"; "tail"; "tail_type"; "relation"].

(** The relationship built from one parsed dict. *)
Definition built_from (rel : gmap string string) (r : GraphDatabaseManager.Relationship) : Prop :=
  rel !! "head" = Some (GraphDatabaseManager.node_id (GraphDatabaseManager.rel_source r))
  /\ rel !! "head_type" = Some (GraphDatabaseManager.node_type (GraphDatabaseManager.rel_source r))
  /\ rel !! "tail" = Some (GraphDatabaseManager.node_id (GraphDatabaseManager.rel_target r))
  /\ rel !! "tail_type" = Some (GraphDatabaseManager.node_type (GraphDatabaseManager.rel_target r))
  /\ rel !! "relation" = Some (GraphDatabaseManager.rel_type r).

Definition node_key (n : GraphDatabaseManager.Node) : string * string :=
  (GraphDatabaseManager.node_id n, GraphDatabaseManager.node_type n).

(** What a body carries up to its first [data: [DONE]] line, in body order:
    the JSON payload of each chunk line, and, closing the list, the
    [UnicodeDecodeError] of a line that is not UTF-8.  Blank lines and
    decoded lines without the [data:] prefix carry nothing. *)
Fixpoint chunks_before_done (lines : list bytes) : list (result string) :=
  match lines with
  | [] => []
  | NotUtf8 :: _ => [Raise (PyError "UnicodeDecodeError")]
  | Utf8 line :: rest =>
      if Str.truthy line && Str.startswith "data:" line then
        let json_str := Str.strip (Str.drop 5 line) in
        if String.eqb json_str "[DONE]" then []
        else Ok json_str :: chunks_before_done rest
      else chunks_before_done rest
  end.

(** The content of one payload. *)
Definition chunk_content (env : Env) (payload : result string) : result string :=
  match payload with
  | Ok json_str => json_delta_content env json_str
  | Raise e => Raise e
  end.

(** The contents of the payloads, or the exception of the first of them that
    is no text or does not decode. *)
Fixpoint decode_chunks (env : Env) (payloads : list (result string))
    : result (list string) :=
  match payloads with
  | [] => Ok []
  | p :: rest =>
      match chunk_content env p with
      | Raise e => Raise e
      | Ok c =>
          match decode_chunks env rest with
          | Raise e => Raise e
          | Ok cs => Ok (c :: cs)
          end
      end
  end.

(** The events of a body with these contents: one per content, then the
    end-of-stream event with the empty token. *)
Definition events_for (session_id : string) (contents : list string) : list SSE :=
  List.map (fun c => mkSSE c session_id) contents ++ [mkSSE EmptyString session_id].

(** Calls to the retrieval and generation backends, as opposed to reads and
    writes of the history store. *)
Definition is_backend_call (ev : event) : bool :=
  match ev with
  | EvPost _ _ _ | EvVectorSearch _ _ | EvGraphSearch _ | EvGraphQuery _ => true
  | EvHistoryGet _ | EvHistoryStore _ _ => false
  end.

(** A computation all of whose calls satisfy [p]; the history index is left
    alone. *)
Definition emits_only {A : Type} (p : event -> bool) (m : M A) : Prop :=
  forall w, exists evs, snd (m w) = add_events w evs /\ forallb p evs = true.

(** The prompt message every handler appends for generation. *)
Definition grounded_turn (query context : string) : Message :=
  mkMessage "user" (Prompts.GENERATION_PROMPT query context).

(** The text of the vector search: the documents joined by newlines, or the
    empty string when the store raises. *)
Definition vector_context (env : Env) (query : string) (k : Z) : string :=
  match asimilarity_search env query k with
  | Ok results => Str.join Str.LF results
  | Raise _ => EmptyString
  end.

(** The turns the evaluation transcript shows: those of the user and of the
    assistant. *)
Definition is_spoken (msg : Message) : bool :=
  String.eqb (role msg) "user" || String.eqb (role msg) "assistant".

(** The messages of the evaluation request for a transcript. *)
Definition eval_messages (conversation_str : string) : list Message :=
  [ mkMessage "system" Prompts.EVAL_AGENT_SYS_PROMPT;
    mkMessage "user" (Prompts.EVAL_AGENT_PROMPT conversation_str) ].

(** The lines a client receives for these events: for each event the line
    [data: <json>] and the empty line of the blank line that follows it, as
    the server encodes them. *)
Definition wire_lines (json_dumps : SSE -> string) (events : list SSE) : list bytes :=
  List.flat_map (fun ev => [Utf8 ("data: " +++ json_dumps ev); Utf8 EmptyString]) events.

(** The client's decoder reads back the object the server encoded. *)
Definition decodes_event (json_dumps : SSE -> string)
    (json_loads : string -> InteractiveChat.parsed) (ev : SSE) : Prop :=
  json_loads (" " +++ json_dumps ev)
  = InteractiveChat.Object
      (<["token" := token ev]> (<["session_id" := sse_session_id ev]> ∅)).

(** The session id a client has learned after these events. *)
Definition learned_session (events : list SSE) (session_id : option string)
    : option string :=
  fold_left (fun _ ev => Some (sse_session_id ev)) events session_id.

(* ===================================================================== *)
(** ** Test doubles for the chat endpoint as a client reaches it *)
(* ===================================================================== *)

Module Endpoints.

(** The chat endpoint as the client reaches it: the events of the return
    policy answer on the wire. *)
Definition endpoint_up (question : string) (session_id : option string)
    : option InteractiveChat.HttpResponse :=
  Some (InteractiveChat.mkHttpResponse 200
          (wire_lines Doubles.dumps_event
             (events_for Doubles.session ["The"; " return"; " policy"; " is"; " 30 days."]))
          false).

(** The endpoint rejecting the request, and the connection breaking after
    two events. *)
Definition endpoint_rejects (question : string) (session_id : option string)
    : option InteractiveChat.HttpResponse :=
  Some (InteractiveChat.mkHttpResponse 400 [Utf8 "{}"] false).

Definition endpoint_breaks (question : string) (session_id : option string)
    : option InteractiveChat.HttpResponse :=
  Some (InteractiveChat.mkHttpResponse 200
          (wire_lines Doubles.dumps_event [mkSSE "The" Doubles.session; mkSSE " return" Doubles.session])
          true).

End Endpoints.

(* ===================================================================== *)
(** ** Strings: basic facts *)
(* ===================================================================== *)

Lemma append_nil_r (s : string) : s +++ EmptyString = s.
Proof.
  induction s as [|c s IH]; [reflexivity|].
  change (String c (s +++ EmptyString) = String c s). now rewrite IH.
Qed.

Lemma append_assoc (a b c : string) : (a +++ b) +++ c = a +++ (b +++ c).
Proof.
  induction a as [|x a IH]; [reflexivity|].
  change (String x ((a +++ b) +++ c) = String x (a +++ (b +++ c))). now rewrite IH.
Qed.

Lemma startswith_cons (a b : ascii) (p s : string) :
  Str.startswith (String a p) (String b s) =
  if Ascii.eqb a b then Str.startswith p s else false.
Proof. reflexivity. Qed.

Lemma contains_start (needle hay : string) :
  Str.startswith needle hay = true -> Str.contains needle hay = true.
Proof. intros H. destruct hay; cbn [Str.contains]; rewrite H; reflexivity. Qed.

Lemma contains_cons (needle : string) (c : ascii) (hay : string) :
  Str.contains needle hay = true -> Str.contains needle (String c hay) = true.
Proof. intros H. cbn [Str.contains]. rewrite H. apply orb_true_r. Qed.

(** "irrelevant" has "relevant" inside it: an output in which the first name
    is found is also one in which the second is. *)
Lemma contains_irrelevant_relevant (s : string) :
  Str.contains "irrelevant" s = true -> Str.contains "relevant" s = true.
Proof.
  induction s as [|c t IH]; [discriminate|].
  cbn [Str.contains]. intros H. apply orb_true_iff in H as [H|H].
  - destruct t as [|c2 t2].
    + rewrite startswith_cons in H. destruct (Ascii.eqb "i" c); discriminate.
    + rewrite startswith_cons in H. destruct (Ascii.eqb "i" c); [|discriminate].
      rewrite startswith_cons in H. destruct (Ascii.eqb "r" c2); [|discriminate].
      apply contains_cons, contains_cons, contains_start, H.
  - apply contains_cons, IH, H.
Qed.

(* ===================================================================== *)
(** ** The effect monad: how each primitive moves the world *)
(* ===================================================================== *)

Lemma add_events_nil (w : world) : add_events w [] = w.
Proof. destruct w as [h t]. unfold add_events. cbn. now rewrite app_nil_r. Qed.

Lemma add_events_app (w : world) (a b : list event) :
  add_events (add_events w a) b = add_events w (a ++ b).
Proof. unfold add_events. cbn. now rewrite app_assoc. Qed.

Lemma emit_eq (ev : event) (w : world) : emit ev w = (Ok tt, add_events w [ev]).
Proof. reflexivity. Qed.

Lemma call_model_completion (env : Env) (msgs : list Message) (mt : Z) (w : world) :
  call_model env msgs mt false w =
  (match requests_post env msgs mt false with
   | Ok r => match json_message_content r with
             | Ok c => Ok (Str.strip c)
             | Raise e => Raise e
             end
   | Raise e => Raise e
   end, add_events w [EvPost msgs mt false]).
Proof.
  unfold call_model, bind, lift, ret. rewrite emit_eq.
  destruct (requests_post env msgs mt false) as [r|e]; [|reflexivity].
  destruct (json_message_content r); reflexivity.
Qed.

Lemma call_model_stream (env : Env) (msgs : list Message) (mt : Z) (w : world) :
  call_model env msgs mt true w =
  (requests_post env msgs mt true, add_events w [EvPost msgs mt true]).
Proof.
  unfold call_model, bind, lift, ret. rewrite emit_eq.
  destruct (requests_post env msgs mt true); reflexivity.
Qed.

(** The vector search never raises: a failure of the store is turned into
    the empty string inside [search]. *)
Lemma vector_search_eq (env : Env) (query : string) (k : Z) (w : world) :
  ElasticsearchRetrievalManager.search env query k w =
  (Ok (match asimilarity_search env query k with
       | Ok results => Str.join Str.LF results
       | Raise _ => EmptyString
       end), add_events w [EvVectorSearch query k]).
Proof.
  unfold ElasticsearchRetrievalManager.search, bind, try_except, lift, ret.
  rewrite emit_eq. destruct (asimilarity_search env query k); reflexivity.
Qed.

Lemma search_loop_ok (env : Env) (entities : list string) :
  Forall (query_ok env) entities ->
  forall (result : string) (w : world),
    GraphDatabaseManager.search_loop env entities result w =
    (Ok (result +++ Str.concat (List.map (entity_block env) entities)),
     add_events w (List.map EvGraphQuery entities)).
Proof.
  induction 1 as [|entity rest [response Hq] _ IH]; intros result w.
  - cbn [GraphDatabaseManager.search_loop List.map]. unfold Str.concat, ret. cbn [fold_right].
    now rewrite append_nil_r, add_events_nil.
  - cbn [GraphDatabaseManager.search_loop List.map]. unfold Str.concat. cbn [fold_right].
    fold (Str.concat (List.map (entity_block env) rest)).
    unfold bind at 1. rewrite emit_eq. unfold bind at 1, lift at 1. rewrite Hq.
    rewrite IH, add_events_app.
    assert (Hb : entity_block env entity = Str.join Str.LF response +++ Str.LF)
      by (unfold entity_block; now rewrite Hq).
    now rewrite Hb, !append_assoc.
Qed.

Lemma search_loop_raises (env : Env) (before : list string) (entity : string)
    (after : list string) (e : exn) :
  Forall (query_ok env) before ->
  graph_query env entity = Raise e ->
  forall (result : string) (w : world),
    GraphDatabaseManager.search_loop env (before ++ entity :: after) result w =
    (Raise e, add_events w (List.map EvGraphQuery (before ++ [entity]))).
Proof.
  intros Hb Hq. induction Hb as [|x before [response Hx] _ IH]; intros result w.
  - cbn [app GraphDatabaseManager.search_loop List.map].
    unfold bind at 1. rewrite emit_eq. unfold bind at 1, lift at 1. now rewrite Hq.
  - cbn [app GraphDatabaseManager.search_loop List.map].
    unfold bind at 1. rewrite emit_eq. unfold bind at 1, lift at 1. rewrite Hx.
    now rewrite IH, add_events_app.
Qed.

Lemma read_only_ret {A} (a : A) : read_only (ret a).
Proof. intros w. exists []. now rewrite add_events_nil. Qed.

Lemma read_only_raise {A} (e : exn) : read_only (@raise A e).
Proof. intros w. exists []. now rewrite add_events_nil. Qed.

Lemma read_only_lift {A} (r : result A) : read_only (lift r).
Proof. intros w. exists []. now rewrite add_events_nil. Qed.

Lemma read_only_get_index : read_only get_index.
Proof. intros w. exists []. now rewrite add_events_nil. Qed.

Lemma read_only_emit (ev : event) : is_store ev = false -> read_only (emit ev).
Proof. intros H w. exists [ev]. cbn. now rewrite H. Qed.

Lemma read_only_bind {A B} (m : M A) (k : A -> M B) :
  read_only m -> (forall a, read_only (k a)) -> read_only (bind m k).
Proof.
  intros Hm Hk w. unfold bind. destruct (Hm w) as (evs & Hw & Hevs).
  destruct (m w) as [[a|e] w1]; cbn in Hw; subst w1.
  - destruct (Hk a (add_events w evs)) as (evs2 & Hw2 & Hevs2).
    exists (evs ++ evs2). rewrite Hw2, add_events_app, forallb_app, Hevs, Hevs2. auto.
  - exists evs. auto.
Qed.

Lemma read_only_try_except {A} (m : M A) (h : exn -> M A) :
  read_only m -> (forall e, read_only (h e)) -> read_only (try_except m h).
Proof.
  intros Hm Hh w. unfold try_except. destruct (Hm w) as (evs & Hw & Hevs).
  destruct (m w) as [[a|e] w1]; cbn in Hw; subst w1.
  - exists evs. auto.
  - destruct (Hh e (add_events w evs)) as (evs2 & Hw2 & Hevs2).
    exists (evs ++ evs2). rewrite Hw2, add_events_app, forallb_app, Hevs, Hevs2. auto.
Qed.

Create HintDb ro discriminated.
#[local] Hint Resolve read_only_ret read_only_raise read_only_lift read_only_get_index
  read_only_bind read_only_try_except : ro.
#[local] Hint Extern 1 (read_only (emit _)) => (apply read_only_emit; reflexivity) : ro.
#[local] Hint Extern 3 (read_only (match ?x with _ => _ end)) => destruct x : ro.
#[local] Hint Extern 3 (read_only (if ?x then _ else _)) => destruct x : ro.

Ltac ro := intros; eauto 12 with ro.

Lemma read_only_call_model (env : Env) msgs mt stream :
  read_only (call_model env msgs mt stream).
Proof. unfold call_model. destruct stream; ro. Qed.
#[local] Hint Resolve read_only_call_model : ro.

Lemma read_only_vector_search (env : Env) query k :
  read_only (ElasticsearchRetrievalManager.search env query k).
Proof. unfold ElasticsearchRetrievalManager.search. ro. Qed.
#[local] Hint Resolve read_only_vector_search : ro.

Lemma read_only_search_loop (env : Env) entities :
  forall result, read_only (GraphDatabaseManager.search_loop env entities result).
Proof. induction entities as [|entity rest IH]; intros result; cbn; ro. Qed.
#[local] Hint Resolve read_only_search_loop : ro.

Lemma read_only_graph_search (env : Env) query :
  read_only (GraphDatabaseManager.search env query).
Proof.
  unfold GraphDatabaseManager.search, GraphDatabaseManager.extract_entities. ro.
Qed.
#[local] Hint Resolve read_only_graph_search : ro.

Lemma read_only_classify (env : Env) query : read_only (AdaptiveRAG._classify env query).
Proof. unfold AdaptiveRAG._classify. ro. Qed.
#[local] Hint Resolve read_only_classify : ro.

Lemma read_only_retrieve_category (env : Env) category query k :
  read_only (AdaptiveRAG.retrieve_category env category query k).
Proof. unfold AdaptiveRAG.retrieve_category. ro. Qed.
#[local] Hint Resolve read_only_retrieve_category : ro.

Lemma read_only_generate (env : Env) query messages context :
  read_only (generate_with_context env query messages context).
Proof. unfold generate_with_context. ro. Qed.
#[local] Hint Resolve read_only_generate : ro.

Lemma read_only_get_chat_history (env : Env) sid :
  read_only (ElasticsearchHistoryManager.get_chat_history env sid).
Proof.
  unfold ElasticsearchHistoryManager.get_chat_history,
    ElasticsearchHistoryManager.check_index_exists,
    ElasticsearchHistoryManager.es_get. ro.
Qed.
#[local] Hint Resolve read_only_get_chat_history : ro.

(* ===================================================================== *)
(** ** The retrieval router *)
(* ===================================================================== *)

Lemma graph_search_trace (env : Env) (query : string) (w : world) :
  exists evs,
    snd (GraphDatabaseManager.search env query w) =
    add_events w (EvGraphSearch query :: evs).
Proof.
  unfold GraphDatabaseManager.search. unfold bind at 1. rewrite emit_eq.
  assert (Hro : read_only
            (entities <- GraphDatabaseManager.extract_entities env query ;;
             GraphDatabaseManager.search_loop env entities EmptyString)).
  { unfold GraphDatabaseManager.extract_entities. ro. }
  destruct (Hro (add_events w [EvGraphSearch query])) as (evs & Hw & _).
  exists evs. now rewrite Hw, add_events_app.
Qed.

(** C1. The router follows the policy table.  For the class 'irrelevant' it
    returns the empty context and calls nothing (the world is unchanged); for
    'relevant' it is exactly the vector search with [top_k = k], whose text it
    returns, and that search is the only call; for 'complex' the vector
    search with [top_k = k] is called first and the graph search next.
    [retrieve] is the classifier followed by this dispatch. *)
Theorem retrieve_follows_policy_table (env : Env) (query : string) (k : Z) (w : world) :
  AdaptiveRAG.retrieve_category env "irrelevant" query k w = (Ok EmptyString, w)
  /\ AdaptiveRAG.retrieve_category env "relevant" query k w
     = ElasticsearchRetrievalManager.search env query k w
  /\ snd (AdaptiveRAG.retrieve_category env "relevant" query k w)
     = add_events w [EvVectorSearch query k]
  /\ (exists evs,
        snd (AdaptiveRAG.retrieve_category env "complex" query k w)
        = add_events w (EvVectorSearch query k :: EvGraphSearch query :: evs))
  /\ AdaptiveRAG.retrieve env query k
     = bind (AdaptiveRAG._classify env query)
            (fun category => AdaptiveRAG.retrieve_category env category query k).
Proof.
  repeat split.
  - unfold AdaptiveRAG.retrieve_category. cbn [String.eqb Ascii.eqb Bool.eqb].
    now rewrite vector_search_eq.
  - unfold AdaptiveRAG.retrieve_category. cbn [String.eqb Ascii.eqb Bool.eqb].
    unfold bind at 1. rewrite vector_search_eq.
    destruct (graph_search_trace env query (add_events w [EvVectorSearch query k]))
      as (evs & Hg).
    exists evs. unfold bind.
    destruct (GraphDatabaseManager.search env query _) as [[g|e] w2];
      cbn in Hg |- *; subst w2; now rewrite add_events_app.
Qed.

(** C8. For the class 'complex' the context is the vector result, one
    newline, the graph result, whatever the two results are. *)
Theorem complex_context_is_exact_concatenation (env : Env) (query : string) (k : Z)
    (w w1 w2 : world) (vector_result graph_result : string) :
  ElasticsearchRetrievalManager.search env query k w = (Ok vector_result, w1) ->
  GraphDatabaseManager.search env query w1 = (Ok graph_result, w2) ->
  AdaptiveRAG.retrieve_category env "complex" query k w
  = (Ok (vector_result +++ Str.LF +++ graph_result), w2).
Proof.
  intros Hv Hg. unfold AdaptiveRAG.retrieve_category.
  cbn [String.eqb Ascii.eqb Bool.eqb].
  unfold bind at 1. rewrite Hv.
  unfold bind at 1. rewrite Hg.
  reflexivity.
Qed.

(** Both results empty: the context is the bare newline. *)
Lemma complex_context_both_empty :
  AdaptiveRAG.retrieve_category Doubles.env_nothing_found "complex" "anything" 5
    Doubles.empty_world
  = (Ok (EmptyString +++ Str.LF +++ EmptyString),
     snd (GraphDatabaseManager.search Doubles.env_nothing_found "anything"
            (snd (ElasticsearchRetrievalManager.search Doubles.env_nothing_found
                    "anything" 5 Doubles.empty_world)))).
Proof.
  apply (complex_context_is_exact_concatenation Doubles.env_nothing_found
           "anything" 5 Doubles.empty_world
           (snd (ElasticsearchRetrievalManager.search Doubles.env_nothing_found
                   "anything" 5 Doubles.empty_world))).
  - reflexivity.
  - reflexivity.
Defined.

(* ===================================================================== *)
(** ** The query classifier *)
(* ===================================================================== *)

Lemma classify_eq (env : Env) (query : string) (w : world) :
  AdaptiveRAG._classify env query w =
  match call_model env (AdaptiveRAG.classifier_messages query) 5 false w with
  | (Ok category, w1) =>
      (Ok (AdaptiveRAG.first_valid AdaptiveRAG.valid_categories category), w1)
  | (Raise e, w1) => (Raise e, w1)
  end.
Proof.
  unfold AdaptiveRAG._classify, bind, ret.
  destruct (call_model env _ 5 false w) as [[c|e] w1]; reflexivity.
Qed.

Lemma first_valid_eq (category : string) :
  AdaptiveRAG.first_valid AdaptiveRAG.valid_categories category =
  if Str.contains "irrelevant" (Str.lower category) then "irrelevant"
  else if Str.contains "relevant" (Str.lower category) then "relevant"
  else if Str.contains "complex" (Str.lower category) then "complex"
  else "relevant".
Proof. reflexivity. Qed.

(** C2, as the code has it.  The names are tried in the order irrelevant,
    relevant, complex and the first one found wins: an output that contains
    "complex" (in any letter case) is classified 'complex' exactly when it
    does not contain "relevant" (in any letter case, which "irrelevant"
    contains too); when it does, the result is 'irrelevant' if that longer
    name occurs and 'relevant' otherwise. *)
Theorem classify_complex_unless_relevant (env : Env) (query : string)
    (w w1 : world) (category : string) :
  call_model env (AdaptiveRAG.classifier_messages query) 5 false w = (Ok category, w1) ->
  Str.contains "complex" (Str.lower category) = true ->
  AdaptiveRAG._classify env query w =
  (Ok (if Str.contains "relevant" (Str.lower category)
       then (if Str.contains "irrelevant" (Str.lower category)
             then "irrelevant" else "relevant")
       else "complex"), w1).
Proof.
  intros Hcall Hcomplex. rewrite classify_eq, Hcall, first_valid_eq, Hcomplex.
  destruct (Str.contains "irrelevant" (Str.lower category)) eqn:Hi.
  - now rewrite (contains_irrelevant_relevant _ Hi).
  - destruct (Str.contains "relevant" (Str.lower category)); reflexivity.
Qed.

Lemma classify_complex_alone :
  AdaptiveRAG._classify (Doubles.env_up " COMPLEX." "") "Compare the two jobs"
    Doubles.empty_world
  = (Ok "complex",
     snd (call_model (Doubles.env_up " COMPLEX." "")
            (AdaptiveRAG.classifier_messages "Compare the two jobs") 5 false
            Doubles.empty_world)).
Proof.
  apply (classify_complex_unless_relevant (Doubles.env_up " COMPLEX." "")
           "Compare the two jobs" Doubles.empty_world _ "COMPLEX.").
  - reflexivity.
  - reflexivity.
Defined.

(** The tie-break example of the claim goes the other way: the output
    contains "complex", and the classifier answers 'relevant'. *)
Lemma classify_relevant_found_before_complex :
  Str.contains "complex" (Str.lower "This is Relevant but also Complex") = true
  /\ fst (call_model (Doubles.env_up "This is Relevant but also Complex" "")
            (AdaptiveRAG.classifier_messages "q") 5 false Doubles.empty_world)
     = Ok "This is Relevant but also Complex"
  /\ fst (AdaptiveRAG._classify (Doubles.env_up "This is Relevant but also Complex" "")
            "q" Doubles.empty_world)
     = Ok "relevant"
  /\ fst (AdaptiveRAG._classify (Doubles.env_up "This is Relevant but also Complex" "")
            "q" Doubles.empty_world)
     <> Ok "complex".
Proof. repeat split; try reflexivity. discriminate. Qed.

(** C4, as the code has it.  When the classification call returns a
    completion, [_classify] returns a member of the closed set, and
    'relevant' when no category name occurs in the output.  When the call
    raises (the endpoint cannot be reached, or the reply is not of the
    expected JSON shape), the exception leaves [_classify] as it is: nothing
    catches it. *)
Theorem classify_outcome (env : Env) (query : string) (w : world) :
  match call_model env (AdaptiveRAG.classifier_messages query) 5 false w with
  | (Ok category, w1) =>
      exists c,
        AdaptiveRAG._classify env query w = (Ok c, w1)
        /\ In c AdaptiveRAG.valid_categories
        /\ (forallb (fun valid => negb (Str.contains valid (Str.lower category)))
              AdaptiveRAG.valid_categories = true -> c = "relevant")
  | (Raise e, w1) => AdaptiveRAG._classify env query w = (Raise e, w1)
  end.
Proof.
  rewrite classify_eq.
  destruct (call_model env _ 5 false w) as [[category|e] w1]; [|reflexivity].
  exists (AdaptiveRAG.first_valid AdaptiveRAG.valid_categories category).
  rewrite first_valid_eq. split; [reflexivity|]. split.
  - unfold AdaptiveRAG.valid_categories.
    destruct (Str.contains "irrelevant" _); [cbn; auto|].
    destruct (Str.contains "relevant" _); [cbn; auto|].
    destruct (Str.contains "complex" _); cbn; auto.
  - unfold AdaptiveRAG.valid_categories. cbn [forallb].
    destruct (Str.contains "irrelevant" _); [discriminate|].
    destruct (Str.contains "relevant" _); [discriminate|].
    destruct (Str.contains "complex" _); [discriminate|reflexivity].
Qed.

(** An answer that names no category is classified 'relevant'. *)
Lemma classify_unparseable_defaults :
  AdaptiveRAG._classify (Doubles.env_up "I am not sure." "") "q" Doubles.empty_world
  = (Ok "relevant",
     add_events Doubles.empty_world
       [EvPost (AdaptiveRAG.classifier_messages "q") 5 false]).
Proof.
  pose proof (classify_outcome (Doubles.env_up "I am not sure." "") "q"
                Doubles.empty_world) as H.
  rewrite call_model_completion in H. cbn [Doubles.env_up requests_post] in H.
  change (Doubles.vllm (Ok "I am not sure.") (Ok EmptyString) Doubles.policy_answer
            (AdaptiveRAG.classifier_messages "q") 5 false)
    with (Ok (mkResponse (Ok "I am not sure.") [])) in H.
  cbn [json_message_content] in H.
  destruct H as (c & Hc & _ & Hdefault).
  rewrite Hc. f_equal. f_equal. apply Hdefault. reflexivity.
Defined.

(** With the endpoint down the exception comes out of [_classify]: no
    category is returned. *)
Lemma classify_raises_when_backend_down :
  fst (AdaptiveRAG._classify Doubles.env_llm_down "What is the return policy?"
         Doubles.empty_world)
  = Raise (PyError "ConnectionError")
  /\ ~ (exists c, fst (AdaptiveRAG._classify Doubles.env_llm_down
                         "What is the return policy?" Doubles.empty_world) = Ok c).
Proof. split; [reflexivity|]. intros [c Hc]. discriminate Hc. Qed.

(* ===================================================================== *)
(** ** Failures of the retrieval backends *)
(* ===================================================================== *)

(** C5, as the code has it.  Which retrieval backend fails decides the
    outcome.  When the vector store raises, the error is caught inside
    [ElasticsearchRetrievalManager.search], which contributes the empty
    string: the context is the empty string for the fusion strategy and for
    the adaptive class 'relevant', and a newline followed by the graph result
    for the class 'complex'; in each case the handler goes on to the
    generation call with that context.  When the graph search raises, nothing
    catches the error: it leaves the retrieve step of the graph strategy and
    of the adaptive class 'complex', whatever the vector store answered, and
    the handler raises it from the world the search left, without a
    generation call. *)
Theorem retrieval_failure_by_backend (env : Env) (query : string) (k : Z) (w : world) :
  (forall e,
     asimilarity_search env query k = Raise e ->
     ElasticsearchRetrievalManager.search env query k w
     = (Ok EmptyString, add_events w [EvVectorSearch query k])
     /\ FusionRAG.retrieve env query k w
        = (Ok EmptyString, add_events w [EvVectorSearch query k])
     /\ AdaptiveRAG.retrieve_category env "relevant" query k w
        = (Ok EmptyString, add_events w [EvVectorSearch query k])
     /\ (forall messages,
           __call__ (FusionRAG.new env) query messages k w
           = generate_with_context env query messages EmptyString
               (add_events w [EvVectorSearch query k]))
     /\ (forall messages w0,
           AdaptiveRAG._classify env query w0 = (Ok "relevant", w) ->
           __call__ (AdaptiveRAG.new env) query messages k w0
           = generate_with_context env query messages EmptyString
               (add_events w [EvVectorSearch query k]))
     /\ (forall graph_result w2,
           GraphDatabaseManager.search env query (add_events w [EvVectorSearch query k])
           = (Ok graph_result, w2) ->
           AdaptiveRAG.retrieve_category env "complex" query k w
           = (Ok (EmptyString +++ Str.LF +++ graph_result), w2)
           /\ forall messages w0,
                AdaptiveRAG._classify env query w0 = (Ok "complex", w) ->
                __call__ (AdaptiveRAG.new env) query messages k w0
                = generate_with_context env query messages (Str.LF +++ graph_result) w2))
  /\ (forall e w1,
        GraphDatabaseManager.search env query w = (Raise e, w1) ->
        GraphRAG.retrieve env query k w = (Raise e, w1)
        /\ forall messages,
             __call__ (GraphRAG.new env) query messages k w = (Raise e, w1))
  /\ (forall e w1,
        GraphDatabaseManager.search env query (add_events w [EvVectorSearch query k])
        = (Raise e, w1) ->
        AdaptiveRAG.retrieve_category env "complex" query k w = (Raise e, w1)
        /\ forall messages w0,
             AdaptiveRAG._classify env query w0 = (Ok "complex", w) ->
             __call__ (AdaptiveRAG.new env) query messages k w0 = (Raise e, w1)).
Proof.
  assert (Hadaptive : forall category messages w0,
             AdaptiveRAG._classify env query w0 = (Ok category, w) ->
             __call__ (AdaptiveRAG.new env) query messages k w0
             = match AdaptiveRAG.retrieve_category env category query k w with
               | (Ok context, w') => generate_with_context env query messages context w'
               | (Raise e, w') => (Raise e, w')
               end).
  { intros category messages w0 Hclass. unfold __call__.
    cbn [retrieve generate AdaptiveRAG.new].
    unfold AdaptiveRAG.retrieve. unfold bind at 1 2. now rewrite Hclass. }
  assert (Hcomplex : AdaptiveRAG.retrieve_category env "complex" query k w
                     = match GraphDatabaseManager.search env query
                               (add_events w [EvVectorSearch query k]) with
                       | (Ok g_res, w') =>
                           (Ok (match asimilarity_search env query k with
                                | Ok results => Str.join Str.LF results
                                | Raise _ => EmptyString
                                end +++ Str.LF +++ g_res), w')
                       | (Raise e, w') => (Raise e, w')
                       end).
  { unfold AdaptiveRAG.retrieve_category. cbn [String.eqb Ascii.eqb Bool.eqb].
    unfold bind at 1. rewrite vector_search_eq. unfold bind, ret.
    destruct (GraphDatabaseManager.search env query _) as [[g_res|e] w']; reflexivity. }
  split; [|split].
  - intros e Hraise.
    assert (Hsearch : ElasticsearchRetrievalManager.search env query k w
                      = (Ok EmptyString, add_events w [EvVectorSearch query k]))
      by now rewrite vector_search_eq, Hraise.
    assert (Hrelevant : AdaptiveRAG.retrieve_category env "relevant" query k w
                        = (Ok EmptyString, add_events w [EvVectorSearch query k]))
      by exact Hsearch.
    split; [exact Hsearch|]. split; [exact Hsearch|]. split; [exact Hrelevant|].
    split; [|split].
    + intros messages. unfold __call__, bind. cbn [retrieve generate FusionRAG.new].
      unfold FusionRAG.retrieve. now rewrite Hsearch.
    + intros messages w0 Hclass. now rewrite (Hadaptive _ _ _ Hclass), Hrelevant.
    + intros graph_result w2 Hg. rewrite Hcomplex, Hg, Hraise. split; [reflexivity|].
      intros messages w0 Hclass.
      now rewrite (Hadaptive _ _ _ Hclass), Hcomplex, Hg, Hraise.
  - intros e w1 Hg. split; [exact Hg|].
    intros messages. unfold __call__, bind. cbn [retrieve generate GraphRAG.new].
    unfold GraphRAG.retrieve. now rewrite Hg.
  - intros e w1 Hg. rewrite Hcomplex, Hg. split; [reflexivity|].
    intros messages w0 Hclass. now rewrite (Hadaptive _ _ _ Hclass), Hcomplex, Hg.
Qed.

(** A retrieval backend raising during the retrieve step: the graph store
    raises on the second of three entities while the vector store answers.
    The context does not resolve at all, the request for the adaptive
    strategy fails with the error of the graph store (and so does one for
    the graph strategy), and no generation call has been made. *)
Lemma graph_failure_fails_request :
  asimilarity_search (Doubles.env_up "Complex" "Adam, Neo, Eve")
    "Do Adam and Neo know Eve?" 5
  = Ok ["Returns are accepted within 30 days."]
  /\ graph_query (Doubles.env_up "Complex" "Adam, Neo, Eve") "Neo"
     = Raise (PyError "ServiceUnavailable")
  /\ fst (AdaptiveRAG.retrieve (Doubles.env_up "Complex" "Adam, Neo, Eve")
            "Do Adam and Neo know Eve?" 5 Doubles.empty_world)
     = Raise (PyError "ServiceUnavailable")
  /\ fst (handle_request (Doubles.env_up "Complex" "Adam, Neo, Eve") 7
            (mkQueryInput "Do Adam and Neo know Eve?" "adaptive" None)
            Doubles.empty_world)
     = Raise (PyError "ServiceUnavailable")
  /\ existsb is_generation_call
       (trace (snd (handle_request (Doubles.env_up "Complex" "Adam, Neo, Eve") 7
                      (mkQueryInput "Do Adam and Neo know Eve?" "adaptive" None)
                      Doubles.empty_world)))
     = false
  /\ fst (handle_request (Doubles.env_up "Complex" "Adam, Neo, Eve") 7
            (mkQueryInput "Do Adam and Neo know Eve?" "graph" None)
            Doubles.empty_world)
     = Raise (PyError "ServiceUnavailable")
  /\ existsb is_generation_call
       (trace (snd (handle_request (Doubles.env_up "Complex" "Adam, Neo, Eve") 7
                      (mkQueryInput "Do Adam and Neo know Eve?" "graph" None)
                      Doubles.empty_world)))
     = false.
Proof. repeat split; vm_compute; reflexivity. Qed.

(** The vector store down, the class 'complex', the graph search fine: the
    context is not the empty string. *)
Lemma vector_failure_complex_context_not_empty :
  asimilarity_search (Doubles.env_vector_down "Complex" "Adam") "Where does Adam work?" 5
  = Raise (PyError "ConnectionTimeout")
  /\ fst (AdaptiveRAG.retrieve (Doubles.env_vector_down "Complex" "Adam")
            "Where does Adam work?" 5 Doubles.empty_world)
     = Ok (Str.LF +++ "Adam - WORKS_FOR -> Microsoft" +++ Str.LF)
  /\ fst (AdaptiveRAG.retrieve (Doubles.env_vector_down "Complex" "Adam")
            "Where does Adam work?" 5 Doubles.empty_world)
     <> Ok EmptyString.
Proof. repeat split; try reflexivity. discriminate. Qed.

(** The vector store down: the fusion strategy and the adaptive class
    'complex' still reach the generation call, which answers.  The graph
    store down on one entity: the graph strategy and the adaptive class
    'complex' raise. *)
Lemma vector_down_generates_graph_down_fails :
  FusionRAG.retrieve (Doubles.env_vector_down "Relevant" "") "What is the return policy?" 5
    Doubles.empty_world
  = (Ok EmptyString,
     add_events Doubles.empty_world [EvVectorSearch "What is the return policy?" 5])
  /\ fst (__call__ (FusionRAG.new (Doubles.env_vector_down "Relevant" ""))
            "What is the return policy?" Doubles.earlier_turns 5 Doubles.empty_world)
     = Ok (mkResponse (Raise (PyError "JSONDecodeError")) Doubles.policy_answer)
  /\ fst (__call__ (AdaptiveRAG.new (Doubles.env_vector_down "Complex" "Adam"))
            "Where does Adam work?" Doubles.earlier_turns 5 Doubles.empty_world)
     = Ok (mkResponse (Raise (PyError "JSONDecodeError")) Doubles.policy_answer)
  /\ fst (__call__ (GraphRAG.new (Doubles.env_up "Complex" "Adam, Neo, Eve"))
            "Do Adam and Neo know Eve?" Doubles.earlier_turns 5 Doubles.empty_world)
     = Raise (PyError "ServiceUnavailable")
  /\ fst (__call__ (AdaptiveRAG.new (Doubles.env_up "Complex" "Adam, Neo, Eve"))
            "Do Adam and Neo know Eve?" Doubles.earlier_turns 5 Doubles.empty_world)
     = Raise (PyError "ServiceUnavailable").
Proof.
  pose (down := Doubles.env_vector_down "Complex" "Adam").
  pose (classified := snd (AdaptiveRAG._classify down "Where does Adam work?"
                             Doubles.empty_world)).
  pose (searched := GraphDatabaseManager.search down "Where does Adam work?"
                      (add_events classified [EvVectorSearch "Where does Adam work?" 5])).
  pose (up := Doubles.env_up "Complex" "Adam, Neo, Eve").
  pose (classified' := snd (AdaptiveRAG._classify up "Do Adam and Neo know Eve?"
                              Doubles.empty_world)).
  destruct (retrieval_failure_by_backend
              (Doubles.env_vector_down "Relevant" "") "What is the return policy?" 5
              Doubles.empty_world) as (Hvector & _ & _).
  destruct (Hvector (PyError "ConnectionTimeout") eq_refl)
    as (_ & Hretrieve & _ & Hcall & _).
  destruct (retrieval_failure_by_backend down "Where does Adam work?" 5 classified)
    as (Hvector' & _ & _).
  destruct (Hvector' (PyError "ConnectionTimeout") eq_refl)
    as (_ & _ & _ & _ & _ & Hcomplex).
  destruct (Hcomplex ("Adam - WORKS_FOR -> Microsoft" +++ Str.LF) (snd searched) eq_refl)
    as (_ & Hgenerates).
  destruct (retrieval_failure_by_backend up "Do Adam and Neo know Eve?" 5
              Doubles.empty_world) as (_ & Hgraph & _).
  destruct (Hgraph (PyError "ServiceUnavailable")
              (snd (GraphDatabaseManager.search up "Do Adam and Neo know Eve?"
                      Doubles.empty_world)) eq_refl) as (_ & Hgraph_call).
  destruct (retrieval_failure_by_backend up "Do Adam and Neo know Eve?" 5 classified')
    as (_ & _ & Hboth).
  destruct (Hboth (PyError "ServiceUnavailable")
              (snd (GraphDatabaseManager.search up "Do Adam and Neo know Eve?"
                      (add_events classified'
                         [EvVectorSearch "Do Adam and Neo know Eve?" 5]))) eq_refl)
    as (_ & Hboth_call).
  subst searched classified classified' down up.
  split; [exact Hretrieve|]. split; [rewrite Hcall; reflexivity|].
  split; [|split].
  - rewrite (Hgenerates Doubles.earlier_turns Doubles.empty_world eq_refl). reflexivity.
  - rewrite Hgraph_call. reflexivity.
  - rewrite (Hboth_call Doubles.earlier_turns Doubles.empty_world eq_refl). reflexivity.
Defined.

(** C6, as the code has it.  The per-entity results accumulate in extraction
    order, each block being the rows joined by newlines and closed by a
    newline; an empty entity list gives the empty string.  Nothing inside
    [search] catches a failure: when the query for one entity raises, the
    exception leaves [search], the text gathered so far is lost and the
    remaining entities are not queried. *)
Theorem graph_search_accumulates_in_order (env : Env) (query : string)
    (w w1 : world) (entities : list string) :
  GraphDatabaseManager.extract_entities env query (add_events w [EvGraphSearch query])
  = (Ok entities, w1) ->
  (Forall (query_ok env) entities ->
     GraphDatabaseManager.search env query w
     = (Ok (Str.concat (List.map (entity_block env) entities)),
        add_events w1 (List.map EvGraphQuery entities)))
  /\ (entities = [] -> GraphDatabaseManager.search env query w = (Ok EmptyString, w1))
  /\ (forall before entity after e,
        entities = before ++ entity :: after ->
        Forall (query_ok env) before ->
        graph_query env entity = Raise e ->
        GraphDatabaseManager.search env query w
        = (Raise e, add_events w1 (List.map EvGraphQuery (before ++ [entity])))).
Proof.
  intros Hext.
  assert (Hsearch : GraphDatabaseManager.search env query w
                    = GraphDatabaseManager.search_loop env entities EmptyString w1).
  { unfold GraphDatabaseManager.search. unfold bind at 1. rewrite emit_eq.
    unfold bind at 1. now rewrite Hext. }
  rewrite Hsearch. split; [|split].
  - intros Hok. now rewrite search_loop_ok.
  - intros ->. reflexivity.
  - intros before entity after e -> Hbefore Hraise.
    now apply search_loop_raises.
Qed.

Lemma graph_search_two_entities :
  GraphDatabaseManager.search (Doubles.env_up "Complex" "['Adam', 'Eve']")
    "Do Adam and Eve work together?" Doubles.empty_world
  = (Ok ("Adam - WORKS_FOR -> Microsoft" +++ Str.LF +++ Str.LF),
     add_events
       (snd (GraphDatabaseManager.extract_entities
               (Doubles.env_up "Complex" "['Adam', 'Eve']")
               "Do Adam and Eve work together?"
               (add_events Doubles.empty_world
                  [EvGraphSearch "Do Adam and Eve work together?"])))
       [EvGraphQuery "Adam"; EvGraphQuery "Eve"]).
Proof.
  destruct (graph_search_accumulates_in_order
              (Doubles.env_up "Complex" "['Adam', 'Eve']")
              "Do Adam and Eve work together?" Doubles.empty_world _
              ["Adam"; "Eve"] eq_refl) as (Hall & _).
  rewrite Hall; [reflexivity|].
  repeat constructor; eexists; reflexivity.
Defined.

(** One failing entity between two good ones: the search raises, and an
    entity without any row contributes a newline, not the empty string. *)
Lemma graph_failure_aborts_search :
  fst (GraphDatabaseManager.extract_entities
         (Doubles.env_up "Complex" "Adam, Neo, Eve") "q" Doubles.empty_world)
  = Ok ["Adam"; "Neo"; "Eve"]
  /\ graph_query (Doubles.env_up "Complex" "Adam, Neo, Eve") "Adam"
     = Ok ["Adam - WORKS_FOR -> Microsoft"]
  /\ fst (GraphDatabaseManager.search
            (Doubles.env_up "Complex" "Adam, Neo, Eve") "q" Doubles.empty_world)
     = Raise (PyError "ServiceUnavailable")
  /\ fst (AdaptiveRAG.retrieve
            (Doubles.env_up "Complex" "Adam, Neo, Eve") "q" 5 Doubles.empty_world)
     = Raise (PyError "ServiceUnavailable")
  /\ fst (GraphDatabaseManager.search
            (Doubles.env_up "Complex" "Eve") "q" Doubles.empty_world)
     = Ok Str.LF.
Proof. repeat split; reflexivity. Qed.

(* ===================================================================== *)
(** ** The streamed body and the history commit *)
(* ===================================================================== *)

Lemma loop_to_yield_inv (env : Env) (sid : string) (lines : list bytes) :
  forall (acc : string) (ev : SSE) (g : generator),
    loop_to_yield env sid lines acc = Ok (ev, g) ->
    sse_session_id ev = sid
    /\ pending g = Some (acc +++ token ev)
    /\ match g with
       | GenLoop rest _ => (length rest < length lines)%nat
       | GenEpilogue _ => token ev = EmptyString
       | GenFinished => False
       end.
Proof.
  induction lines as [|line rest IH]; intros acc ev g H; cbn [loop_to_yield] in H.
  - injection H as <- <-. cbn. now rewrite append_nil_r.
  - assert (Hskip : loop_to_yield env sid rest acc = Ok (ev, g) ->
              sse_session_id ev = sid /\ pending g = Some (acc +++ token ev) /\
              match g with
              | GenLoop rest0 _ => (length rest0 < length (line :: rest))%nat
              | GenEpilogue _ => token ev = EmptyString
              | GenFinished => False
              end).
    { intros H'. destruct (IH _ _ _ H') as (Hs & Hp & Hg). repeat split; auto.
      destruct g; auto. cbn [length]. lia. }
    destruct line as [text|]; cbn [bytes_truthy decode_utf8] in H; [|discriminate].
    destruct (Str.truthy text); [|auto].
    destruct (Str.startswith "data:" text); [|auto].
    destruct (String.eqb _ "[DONE]").
    + injection H as <- <-. cbn. now rewrite append_nil_r.
    + destruct (json_delta_content env _) as [content|e]; [|discriminate].
      injection H as <- <-. cbn. repeat split; auto.
Qed.

Lemma store_chat_history_eq (env : Env) (sid : string) (messages : list Message)
    (w : world) :
  ElasticsearchHistoryManager.store_chat_history env sid messages w =
  if es_reachable env then (Ok tt, committed w sid messages)
  else (Raise ElasticsearchHistoryManager.ConnectionError,
        add_events w [EvHistoryStore sid messages]).
Proof.
  unfold ElasticsearchHistoryManager.store_chat_history, bind. rewrite emit_eq.
  destruct (es_reachable env); reflexivity.
Qed.

Lemma send_body_step (env : Env) (reads : nat) (sid : string)
    (messages : list Message) (g : generator) (w : world) :
  send_body env (S reads) sid messages g w =
  match g with
  | GenLoop lines acc =>
      match loop_to_yield env sid lines acc with
      | Ok (ev, g') =>
          match send_body env reads sid messages g' w with
          | (Ok rest, w') => (Ok (ev :: fst rest, snd rest), w')
          | (Raise e, w') => (Raise e, w')
          end
      | Raise e => (Raise e, w)
      end
  | GenEpilogue acc =>
      if es_reachable env
      then (Ok ([], true), committed w sid (messages ++ [mkMessage "assistant" acc]))
      else (Raise ElasticsearchHistoryManager.ConnectionError,
            add_events w [EvHistoryStore sid (messages ++ [mkMessage "assistant" acc])])
  | GenFinished => (Ok ([], true), w)
  end.
Proof.
  cbn [send_body]. unfold bind at 1. destruct g as [lines acc|acc|].
  - cbn [generate_response_next]. unfold bind, lift, ret.
    destruct (loop_to_yield env sid lines acc) as [[ev g']|e]; [|reflexivity].
    cbn [fst snd]. destruct (send_body env reads sid messages g' w) as [[rest|e] w'];
      reflexivity.
  - cbn [generate_response_next]. unfold bind at 1. rewrite store_chat_history_eq.
    destruct (es_reachable env); reflexivity.
  - reflexivity.
Qed.

(** A body read to its end: one store, of the captured messages followed by
    the assistant turn holding every token sent, in order. *)
Lemma send_body_complete (env : Env) (sid : string) (messages : list Message) :
  forall (reads : nat) (g : generator) (acc : string) (events : list SSE) (w w2 : world),
    pending g = Some acc ->
    send_body env reads sid messages g w = (Ok (events, true), w2) ->
    Forall (fun ev => sse_session_id ev = sid) events
    /\ w2 = committed w sid
              (messages ++
               [mkMessage "assistant" (acc +++ Str.concat (List.map token events))]).
Proof.
  induction reads as [|reads IH]; intros g acc events w w2 Hp H; [discriminate|].
  rewrite send_body_step in H. destruct g as [lines acc0|acc0|]; [| |discriminate].
  - destruct (loop_to_yield env sid lines acc0) as [[ev g']|e] eqn:Hloop; [|discriminate].
    destruct (loop_to_yield_inv _ _ _ _ _ _ Hloop) as (Hsid & Hp' & _).
    destruct (send_body env reads sid messages g' w) as [[[evs fin]|e] w'] eqn:Hrest;
      [|discriminate].
    cbn [fst snd] in H. injection H as <- -> ->.
    destruct (IH _ _ _ _ _ Hp' Hrest) as (Hall & ->).
    injection Hp as ->. split; [constructor; auto|].
    cbn [List.map]. unfold Str.concat. cbn [fold_right]. now rewrite append_assoc.
  - destruct (es_reachable env); [|discriminate].
    injection H as <- <-. injection Hp as ->. split; [constructor|].
    cbn [List.map]. unfold Str.concat. cbn [fold_right]. now rewrite append_nil_r.
Qed.

(** A body the client stops reading before the generator ends: the world is
    exactly as it was, whatever had been sent. *)
Lemma send_body_abandoned (env : Env) (sid : string) (messages : list Message) :
  forall (reads : nat) (g : generator) (events : list SSE) (w w2 : world),
    send_body env reads sid messages g w = (Ok (events, false), w2) -> w2 = w.
Proof.
  induction reads as [|reads IH]; intros g events w w2 H.
  - now injection H as <- <-.
  - rewrite send_body_step in H. destruct g as [lines acc|acc|]; [| |discriminate].
    + destruct (loop_to_yield env sid lines acc) as [[ev g']|e]; [|discriminate].
      destruct (send_body env reads sid messages g' w) as [[[evs fin]|e] w'] eqn:Hrest;
        [|discriminate].
      cbn [fst snd] in H. injection H as <- -> ->. eapply IH, Hrest.
    + destruct (es_reachable env); discriminate.
Qed.

(** A body that raises (a line that is not UTF-8, a chunk that does not
    decode, or a store that cannot be reached): the history index is as it
    was. *)
Lemma send_body_raises (env : Env) (sid : string) (messages : list Message) :
  forall (reads : nat) (g : generator) (e : exn) (w w2 : world),
    send_body env reads sid messages g w = (Raise e, w2) ->
    chat_history w2 = chat_history w.
Proof.
  induction reads as [|reads IH]; intros g e w w2 H; [discriminate|].
  rewrite send_body_step in H. destruct g as [lines acc|acc|]; [| |discriminate].
  - destruct (loop_to_yield env sid lines acc) as [[ev g']|e'].
    + destruct (send_body env reads sid messages g' w) as [[rest|e'] w'] eqn:Hrest;
        [discriminate|].
      injection H as <- <-. eapply IH, Hrest.
    + now injection H as <- <-.
  - destruct (es_reachable env); [discriminate|]. now injection H as <- <-.
Qed.

Lemma loop_to_yield_decodes (env : Env) (sid : string) (lines : list bytes) :
  stream_decodes env lines ->
  forall acc, exists ev g,
    loop_to_yield env sid lines acc = Ok (ev, g)
    /\ match g with
       | GenLoop rest _ => stream_decodes env rest
       | _ => True
       end.
Proof.
  induction 1 as [|line rest Hline Hrest IH]; intros acc; cbn [loop_to_yield].
  - do 2 eexists. split; [reflexivity|exact I].
  - destruct Hline as (text & -> & Hline). cbn [bytes_truthy decode_utf8].
    unfold is_chunk_line in Hline.
    destruct (Str.truthy text); [|apply IH].
    destruct (Str.startswith "data:" text); [|apply IH].
    destruct (String.eqb _ "[DONE]"); [do 2 eexists; split; [reflexivity|exact I]|].
    destruct (Hline eq_refl) as [content ->].
    do 2 eexists. split; [reflexivity|exact Hrest].
Qed.

(** With the store reachable, every line UTF-8 and every chunk decodable, a
    client that keeps reading gets the whole body: [length lines + 2] reads
    always suffice. *)
Lemma send_body_runs_to_end (env : Env) (sid : string) (messages : list Message) :
  es_reachable env = true ->
  forall (reads : nat) (g : generator) (w : world),
    match g with
    | GenLoop lines _ => stream_decodes env lines /\ (length lines + 2 <= reads)%nat
    | GenEpilogue _ => (1 <= reads)%nat
    | GenFinished => (1 <= reads)%nat
    end ->
    exists events w2, send_body env reads sid messages g w = (Ok (events, true), w2).
Proof.
  intros Hes. induction reads as [|reads IH]; intros g w Hg.
  - destruct g as [lines acc|acc|]; [destruct Hg|..]; lia.
  - rewrite send_body_step. destruct g as [lines acc|acc|].
    + destruct Hg as [Hdec Hlen].
      destruct (loop_to_yield_decodes env sid lines Hdec acc) as (ev & g' & Hloop & Hg').
      rewrite Hloop. destruct (loop_to_yield_inv _ _ _ _ _ _ Hloop) as (_ & _ & Hsz).
      destruct (IH g' w) as (events & w2 & Hrest).
      { destruct g' as [rest acc'|acc'|]; [split; [auto|lia]|lia|lia]. }
      rewrite Hrest. eauto.
    + rewrite Hes. eauto.
    + eauto.
Qed.

Lemma send_response_runs_to_end (env : Env) (reads : nat) (r : StreamingResponse)
    (w : world) (lines : list bytes) (acc : string) :
  es_reachable env = true ->
  body_iterator r = GenLoop lines acc ->
  stream_decodes env lines ->
  (length lines + 2 <= reads)%nat ->
  exists events w2, send_response env reads r w = (Ok (events, true), w2).
Proof.
  intros Hes Hbody Hdec Hlen. unfold send_response. rewrite Hbody.
  apply send_body_runs_to_end; auto.
Qed.

(* ===================================================================== *)
(** ** The request handler *)
(* ===================================================================== *)

Lemma registry_lookup (env : Env) (name : string) (handler : BaseRAG) :
  RAG_REGISTRY env !! name = Some handler <->
  (name = "fusion" /\ handler = FusionRAG.new env)
  \/ (name = "graph" /\ handler = GraphRAG.new env)
  \/ (name = "adaptive" /\ handler = AdaptiveRAG.new env).
Proof.
  unfold RAG_REGISTRY. split.
  - rewrite lookup_insert. case_decide; [intros [= <-]; auto|].
    rewrite lookup_insert. case_decide; [intros [= <-]; auto|].
    rewrite lookup_insert. case_decide; [intros [= <-]; auto|].
    rewrite lookup_empty. discriminate.
  - intros [[-> ->]|[[-> ->]|[-> ->]]].
    + now rewrite lookup_insert_eq.
    + rewrite lookup_insert_ne by discriminate. now rewrite lookup_insert_eq.
    + rewrite lookup_insert_ne by discriminate.
      rewrite lookup_insert_ne by discriminate. now rewrite lookup_insert_eq.
Qed.

Lemma read_only_call (env : Env) (name : string) (handler : BaseRAG)
    (query : string) (messages : list Message) (k : Z) :
  RAG_REGISTRY env !! name = Some handler ->
  read_only (__call__ handler query messages k).
Proof.
  intros H. apply registry_lookup in H as [[_ ->]|[[_ ->]|[_ ->]]];
    unfold __call__; cbn [retrieve generate FusionRAG.new GraphRAG.new AdaptiveRAG.new].
  - unfold FusionRAG.retrieve, FusionRAG.generate. ro.
  - unfold GraphRAG.retrieve, GraphRAG.generate. ro.
  - unfold AdaptiveRAG.retrieve, AdaptiveRAG.generate. ro.
Qed.

Lemma read_only_chat (env : Env) (request : QueryInput) : read_only (chat env request).
Proof.
  unfold chat. destruct (RAG_REGISTRY env !! _) as [handler|] eqn:Hreg; [|ro].
  unfold chat_with. apply read_only_bind.
  - destruct (session_id_given _); ro.
  - intros sm. cbv zeta. apply read_only_bind; [|ro].
    eapply read_only_call, Hreg.
Qed.

Lemma get_chat_history_eq (env : Env) (sid : string) (w : world) :
  ElasticsearchHistoryManager.get_chat_history env sid w =
  if es_reachable env
  then (Ok (stored_history w sid), add_events w [EvHistoryGet sid])
  else (Raise ElasticsearchHistoryManager.ConnectionError,
        add_events w [EvHistoryGet sid]).
Proof.
  unfold ElasticsearchHistoryManager.get_chat_history, bind at 1. rewrite emit_eq.
  unfold ElasticsearchHistoryManager.check_index_exists,
    ElasticsearchHistoryManager.es_get, stored_history, bind, try_except, get_index,
    ret, raise.
  destruct (es_reachable env); [|reflexivity].
  destruct w as [[docs|] tr]; cbn; [|reflexivity].
  destruct (docs !! sid); reflexivity.
Qed.

(** [chat_with] in one piece: the store is read only when the request names
    a session, and a store that cannot be reached fails the request there. *)
Lemma chat_with_eq (env : Env) (handler : BaseRAG) (request : QueryInput) (w : world) :
  chat_with env handler request w =
  match session_id_given (session_id request) with
  | Some sid =>
      if es_reachable env
      then respond env handler request w (add_events w [EvHistoryGet sid])
      else (Raise ElasticsearchHistoryManager.ConnectionError,
            add_events w [EvHistoryGet sid])
  | None => respond env handler request w w
  end.
Proof.
  unfold chat_with, respond, session_of, history_before. unfold bind at 1.
  destruct (session_id_given (session_id request)) as [sid|].
  - unfold bind at 1. rewrite get_chat_history_eq.
    destruct (es_reachable env); [|reflexivity].
    unfold ret at 1. cbv zeta. cbn [fst snd]. unfold bind, ret.
    destruct (__call__ handler _ _ 5 _) as [[resp|e] w']; reflexivity.
  - unfold ret at 1. cbv zeta. cbn [fst snd]. unfold bind, ret.
    destruct (__call__ handler _ _ 5 _) as [[resp|e] w']; reflexivity.
Qed.

(** What a successful [chat] hands to the server: the session, the history
    it started from followed by the user turn holding the question as asked,
    a generator that has accumulated nothing; and up to there the history
    index is untouched and no store has been attempted. *)
Lemma chat_ok_inv (env : Env) (request : QueryInput) (w w1 : world)
    (r : StreamingResponse) :
  chat env request w = (Ok r, w1) ->
  closure_session_id r = session_of env request
  /\ closure_messages r
     = history_before request w ++ [mkMessage "user" (question request)]
  /\ pending (body_iterator r) = Some EmptyString
  /\ exists evs,
       w1 = add_events w evs /\ forallb (fun ev => negb (is_store ev)) evs = true.
Proof.
  intros H.
  assert (Hro : exists evs, w1 = add_events w evs
                  /\ forallb (fun ev => negb (is_store ev)) evs = true).
  { destruct (read_only_chat env request w) as (evs & Hw & Hevs).
    rewrite H in Hw. eauto. }
  unfold chat in H. destruct (RAG_REGISTRY env !! _) as [handler|]; [|discriminate].
  rewrite chat_with_eq in H.
  assert (Hresp : exists w0, respond env handler request w w0 = (Ok r, w1)).
  { destruct (session_id_given _); [|eauto].
    destruct (es_reachable env); [eauto|discriminate]. }
  destruct Hresp as (w0 & Hresp). unfold respond in Hresp.
  destruct (__call__ handler _ _ 5 w0) as [[resp|e] w']; [|discriminate].
  injection Hresp as <- <-. auto.
Qed.



(** C9, as the code has it.  A request that does not run to the end of its
    generator (the client stops reading at or before the end-of-stream
    event, a line is not UTF-8 or a chunk does not decode, or the handler
    itself fails) commits
    nothing: the history index is as it was before the request, so the text
    accumulated before the abort is dropped with the user turn; after a
    disconnect no store has even been attempted. *)
Theorem abandoned_stream_commits_nothing (env : Env) (reads : nat)
    (request : QueryInput) (w w2 : world) (outcome : result (list SSE * bool)) :
  handle_request env reads request w = (outcome, w2) ->
  (forall events, outcome <> Ok (events, true)) ->
  chat_history w2 = chat_history w
  /\ (forall events, outcome = Ok (events, false) ->
      exists evs, w2 = add_events w evs
                  /\ forallb (fun ev => negb (is_store ev)) evs = true).
Proof.
  intros H Hnot. unfold handle_request, bind in H.
  destruct (read_only_chat env request w) as (evs & Hw1 & Hevs).
  destruct (chat env request w) as [[r|e] w1]; cbn [snd] in Hw1; subst w1.
  - unfold send_response in H. destruct outcome as [[events [|]]|e].
    + now destruct (Hnot events).
    + apply send_body_abandoned in H. subst w2. split; [reflexivity|]. eauto.
    + apply send_body_raises in H. split; [exact H|]. discriminate.
  - injection H as <- <-. split; [reflexivity|]. discriminate.
Qed.

Lemma disconnect_after_two_tokens_keeps_store :
  chat_history
    (snd (handle_request (Doubles.env_up "Relevant" "") 2
            (mkQueryInput "And for sale items?" "adaptive" (Some "s-42"))
            Doubles.world_with_session))
  = chat_history Doubles.world_with_session.
Proof.
  eapply (abandoned_stream_commits_nothing (Doubles.env_up "Relevant" "") 2
            (mkQueryInput "And for sale items?" "adaptive" (Some "s-42"))
            Doubles.world_with_session).
  - apply surjective_pairing.
  - intros events. vm_compute. discriminate.
Defined.

(** Two tokens sent, then the client is gone: nothing of the turn is in the
    store, neither the question nor the text "The return". *)
Lemma disconnect_drops_accumulated_text :
  fst (handle_request (Doubles.env_up "Relevant" "") 2 Doubles.return_policy
         Doubles.empty_world)
  = Ok ([mkSSE "The" Doubles.session; mkSSE " return" Doubles.session], false)
  /\ chat_history
       (snd (handle_request (Doubles.env_up "Relevant" "") 2 Doubles.return_policy
               Doubles.empty_world))
     = None
  /\ stored_history
       (snd (handle_request (Doubles.env_up "Relevant" "") 2 Doubles.return_policy
               Doubles.empty_world))
       Doubles.session
     = [].
Proof. repeat split; vm_compute; reflexivity. Qed.

(** With the endpoint down every handler of the registry fails. *)
Lemma call_raises_when_unreachable (env : Env) (e0 : exn) (name : string)
    (handler : BaseRAG) (query : string) (messages : list Message) (k : Z) (w : world) :
  (forall msgs max_tokens stream, requests_post env msgs max_tokens stream = Raise e0) ->
  RAG_REGISTRY env !! name = Some handler ->
  exists w', __call__ handler query messages k w = (Raise e0, w').
Proof.
  intros Hdown H. apply registry_lookup in H as [[_ ->]|[[_ ->]|[_ ->]]];
    unfold __call__; cbn [retrieve generate FusionRAG.new GraphRAG.new AdaptiveRAG.new].
  - unfold FusionRAG.retrieve, FusionRAG.generate, generate_with_context, bind.
    rewrite vector_search_eq, call_model_stream, Hdown. eauto.
  - unfold GraphRAG.retrieve, GraphDatabaseManager.search,
      GraphDatabaseManager.extract_entities. unfold bind. rewrite emit_eq.
    rewrite call_model_completion, Hdown. eauto.
  - unfold AdaptiveRAG.retrieve. unfold bind at 1 2. rewrite classify_eq.
    rewrite call_model_completion, Hdown. eauto.
Qed.

(** C7. When the generation endpoint cannot be reached, [chat] raises: no
    [StreamingResponse] exists, so no event is sent however long the client
    waits; the history index is as it was and no store has been attempted. *)
Theorem generation_unreachable_fails_before_streaming (env : Env)
    (request : QueryInput) (w : world) (e0 : exn) :
  (forall msgs max_tokens stream, requests_post env msgs max_tokens stream = Raise e0) ->
  exists e w1,
    chat env request w = (Raise e, w1)
    /\ (forall reads, handle_request env reads request w = (Raise e, w1))
    /\ chat_history w1 = chat_history w
    /\ (exists evs, w1 = add_events w evs
                    /\ forallb (fun ev => negb (is_store ev)) evs = true).
Proof.
  intros Hdown.
  assert (Hraise : exists e w1, chat env request w = (Raise e, w1)).
  { unfold chat. destruct (RAG_REGISTRY env !! _) as [handler|] eqn:Hreg.
    - rewrite chat_with_eq. unfold respond.
      destruct (session_id_given _); [destruct (es_reachable env); [|eauto]|].
      + destruct (call_raises_when_unreachable env e0 _ handler (question request)
                    (history_before request w) 5 (add_events w [EvHistoryGet s])
                    Hdown Hreg) as (w' & ->). eauto.
      + destruct (call_raises_when_unreachable env e0 _ handler (question request)
                    (history_before request w) 5 w Hdown Hreg) as (w' & ->). eauto.
    - unfold raise. eauto. }
  destruct Hraise as (e & w1 & Hchat). exists e, w1.
  destruct (read_only_chat env request w) as (evs & Hw1 & Hevs).
  rewrite Hchat in Hw1. cbn [snd] in Hw1.
  split; [exact Hchat|]. split; [|split].
  - intros reads. unfold handle_request, bind. now rewrite Hchat.
  - now rewrite Hw1.
  - eauto.
Qed.

Lemma unreachable_backend_leaves_session_untouched :
  (exists e, fst (handle_request Doubles.env_llm_down 7
                    (mkQueryInput "And for sale items?" "Fusion" (Some "s-42"))
                    Doubles.world_with_session) = Raise e)
  /\ chat_history
       (snd (handle_request Doubles.env_llm_down 7
               (mkQueryInput "And for sale items?" "Fusion" (Some "s-42"))
               Doubles.world_with_session))
     = chat_history Doubles.world_with_session.
Proof.
  destruct (generation_unreachable_fails_before_streaming Doubles.env_llm_down
              (mkQueryInput "And for sale items?" "Fusion" (Some "s-42"))
              Doubles.world_with_session (PyError "ConnectionError"))
    as (e & w1 & _ & Hhandle & Hhist & _).
  - reflexivity.
  - rewrite (Hhandle 7%nat). split; [exists e; reflexivity|exact Hhist].
Defined.

(* ===================================================================== *)
(** ** Strategy names *)
(* ===================================================================== *)

Lemma N_of_ascii_inj (a b : ascii) : N_of_ascii a = N_of_ascii b -> a = b.
Proof.
  intros H. rewrite <- (ascii_N_embedding a), <- (ascii_N_embedding b). now rewrite H.
Qed.

Lemma N_of_lower_char (c : ascii) :
  N_of_ascii (Str.lower_char c)
  = if Str.is_upper c then (N_of_ascii c + 32)%N else N_of_ascii c.
Proof.
  unfold Str.lower_char. destruct (Str.is_upper c) eqn:Hup; [|reflexivity].
  apply N_ascii_embedding. unfold Str.is_upper in Hup.
  apply andb_true_iff in Hup as [_ Hle]. apply N.leb_le in Hle. lia.
Qed.

Lemma case_variant_lower (a b : ascii) :
  case_variant a b = true <-> Str.lower_char a = Str.lower_char b.
Proof.
  assert (Hiff : case_variant a b = true
                 <-> N_of_ascii (Str.lower_char a) = N_of_ascii (Str.lower_char b)).
  { rewrite !N_of_lower_char. unfold case_variant, Str.is_upper.
    destruct (N.leb_spec 65 (N_of_ascii a)), (N.leb_spec (N_of_ascii a) 90),
      (N.leb_spec 65 (N_of_ascii b)), (N.leb_spec (N_of_ascii b) 90);
      cbn [andb orb];
      repeat match goal with
             | |- context [(?x =? ?y)%N] => destruct (N.eqb_spec x y)
             end; cbn [andb orb]; split; intros; try lia; try discriminate;
      try reflexivity. }
  rewrite Hiff. split; [apply N_of_ascii_inj|now intros ->].
Qed.

Lemma same_modulo_case_lower (s : string) :
  forall t, same_modulo_case s t = true <-> Str.lower s = Str.lower t.
Proof.
  induction s as [|a s IH]; intros [|b t]; cbn [same_modulo_case Str.lower];
    try (split; [discriminate|intros [=]]); [tauto|].
  rewrite andb_true_iff, case_variant_lower, IH. split.
  - now intros [-> ->].
  - intros [= -> ->]. auto.
Qed.

Lemma lower_char_idempotent (a : ascii) :
  Str.lower_char (Str.lower_char a) = Str.lower_char a.
Proof.
  assert (Hlow : Str.is_upper (Str.lower_char a) = false).
  { unfold Str.is_upper at 1. rewrite N_of_lower_char.
    destruct (Str.is_upper a) eqn:Hup; [|exact Hup].
    unfold Str.is_upper in Hup. apply andb_true_iff in Hup as [Hge _].
    apply N.leb_le in Hge. apply andb_false_iff. right. apply N.leb_gt. lia. }
  unfold Str.lower_char at 1. now rewrite Hlow.
Qed.

Lemma lower_idempotent (s : string) : Str.lower (Str.lower s) = Str.lower s.
Proof.
  induction s as [|a s IH]; [reflexivity|].
  cbn [Str.lower]. now rewrite lower_char_idempotent, IH.
Qed.

Lemma registered_names_lower (env : Env) (name : string) :
  is_Some (RAG_REGISTRY env !! name) -> Str.lower name = name.
Proof.
  intros [handler H]. apply registry_lookup in H as [[-> _]|[[-> _]|[-> _]]]; reflexivity.
Qed.

(** C10. The strategy name is matched without regard to letter case against
    the registered names fusion, graph and adaptive: a [rag_type] that
    differs from a registered name only in letter case selects that name's
    handler (the schema default 'Fusion' selects the fusion handler), and any
    other string is rejected with status 400 in an unchanged world: no
    session has been loaded and no backend called. *)
Theorem rag_type_matched_case_insensitively (env : Env) (request : QueryInput)
    (w : world) :
  (forall name handler,
     RAG_REGISTRY env !! name = Some handler ->
     same_modulo_case (rag_type request) name = true ->
     chat env request w = chat_with env handler request w)
  /\ ((forall name, is_Some (RAG_REGISTRY env !! name) ->
                    same_modulo_case (rag_type request) name = false) ->
      exists detail, chat env request w = (Raise (HTTPException 400 detail), w))
  /\ (forall name handler,
        RAG_REGISTRY env !! name = Some handler <->
        (name = "fusion" /\ handler = FusionRAG.new env)
        \/ (name = "graph" /\ handler = GraphRAG.new env)
        \/ (name = "adaptive" /\ handler = AdaptiveRAG.new env))
  /\ (forall q, chat env (QueryInput_default q) w
                = chat_with env (FusionRAG.new env) (QueryInput_default q) w).
Proof.
  split; [|split; [|split]].
  - intros name handler Hreg Hsame. apply same_modulo_case_lower in Hsame.
    rewrite (registered_names_lower env name) in Hsame by eauto.
    unfold chat. now rewrite Hsame, Hreg.
  - intros Hnone. unfold chat.
    destruct (RAG_REGISTRY env !! Str.lower (rag_type request)) as [handler|] eqn:Hreg.
    + assert (Hsame : same_modulo_case (rag_type request)
                        (Str.lower (rag_type request)) = true).
      { apply same_modulo_case_lower. now rewrite lower_idempotent. }
      rewrite Hnone in Hsame by eauto. discriminate.
    + unfold raise. eauto.
  - apply registry_lookup.
  - intros q. unfold chat. cbn [rag_type QueryInput_default].
    change (Str.lower "Fusion") with "fusion".
    assert (Hreg : RAG_REGISTRY env !! "fusion" = Some (FusionRAG.new env))
      by (apply registry_lookup; auto).
    now rewrite Hreg.
Qed.

Lemma mixed_case_adaptive_selected_and_hybrid_rejected :
  chat (Doubles.env_up "Relevant" "")
    (mkQueryInput "What is the return policy?" "AdApTiVe" None) Doubles.empty_world
  = chat_with (Doubles.env_up "Relevant" "")
      (AdaptiveRAG.new (Doubles.env_up "Relevant" ""))
      (mkQueryInput "What is the return policy?" "AdApTiVe" None) Doubles.empty_world
  /\ exists detail,
       chat (Doubles.env_up "Relevant" "")
         (mkQueryInput "What is the return policy?" "hybrid" (Some "s-42"))
         Doubles.world_with_session
       = (Raise (HTTPException 400 detail), Doubles.world_with_session).
Proof.
  split.
  - destruct (rag_type_matched_case_insensitively (Doubles.env_up "Relevant" "")
                (mkQueryInput "What is the return policy?" "AdApTiVe" None)
                Doubles.empty_world) as (Hsel & _).
    apply (Hsel "adaptive"); [|reflexivity].
    apply registry_lookup. auto.
  - destruct (rag_type_matched_case_insensitively (Doubles.env_up "Relevant" "")
                (mkQueryInput "What is the return policy?" "hybrid" (Some "s-42"))
                Doubles.world_with_session) as (_ & Hrej & _).
    apply Hrej. intros name [handler H].
    apply registry_lookup in H as [[-> _]|[[-> _]|[-> _]]]; reflexivity.
Defined.

(* ===================================================================== *)
(** ** More on strings: whitespace, character classes, words *)
(* ===================================================================== *)

Lemma append_cons (c : ascii) (s t : string) : String c s +++ t = String c (s +++ t).
Proof. reflexivity. Qed.

Lemma all_chars_app (p : ascii -> bool) (s t : string) :
  Str.all_chars p (s +++ t) = Str.all_chars p s && Str.all_chars p t.
Proof.
  induction s as [|c s IH]; [reflexivity|].
  rewrite append_cons. cbn [Str.all_chars]. now rewrite IH, andb_assoc.
Qed.

Lemma all_chars_lstrip (p : ascii -> bool) (s : string) :
  Str.all_chars p s = true -> Str.all_chars p (Str.lstrip s) = true.
Proof.
  induction s as [|c s IH]; [auto|]. cbn [Str.lstrip Str.all_chars]. intros H.
  apply andb_true_iff in H as [Hc Hs]. destruct (Str.isspace c); [auto|].
  cbn [Str.all_chars]. now rewrite Hc, Hs.
Qed.

Lemma all_chars_rstrip (p : ascii -> bool) (s : string) :
  Str.all_chars p s = true -> Str.all_chars p (Str.rstrip s) = true.
Proof.
  induction s as [|c s IH]; [auto|]. cbn [Str.rstrip Str.all_chars]. intros H.
  apply andb_true_iff in H as [Hc Hs]. specialize (IH Hs).
  destruct (Str.rstrip s) as [|c' s'].
  - destruct (Str.isspace c); [reflexivity|]. cbn. now rewrite Hc.
  - cbn [Str.all_chars] in *. now rewrite Hc, IH.
Qed.

Lemma all_chars_strip (p : ascii -> bool) (s : string) :
  Str.all_chars p s = true -> Str.all_chars p (Str.strip s) = true.
Proof. intros H. unfold Str.strip. now apply all_chars_rstrip, all_chars_lstrip. Qed.

Lemma all_chars_remove (p cls : ascii -> bool) (s : string) :
  Str.all_chars p s = true -> Str.all_chars p (Str.remove_chars cls s) = true.
Proof.
  induction s as [|c s IH]; [auto|]. cbn [Str.remove_chars Str.all_chars]. intros H.
  apply andb_true_iff in H as [Hc Hs]. destruct (cls c); [auto|].
  cbn [Str.all_chars]. now rewrite Hc, IH.
Qed.

Lemma all_chars_removed (cls : ascii -> bool) (s : string) :
  Str.all_chars (fun c => negb (cls c)) (Str.remove_chars cls s) = true.
Proof.
  induction s as [|c s IH]; [reflexivity|]. cbn [Str.remove_chars].
  destruct (cls c) eqn:Hc; [exact IH|]. cbn [Str.all_chars]. now rewrite Hc, IH.
Qed.

Lemma remove_chars_id (cls : ascii -> bool) (s : string) :
  Str.all_chars (fun c => negb (cls c)) s = true -> Str.remove_chars cls s = s.
Proof.
  induction s as [|c s IH]; [auto|]. cbn [Str.remove_chars Str.all_chars]. intros H.
  apply andb_true_iff in H as [Hc Hs]. apply negb_true_iff in Hc.
  now rewrite Hc, IH.
Qed.

Lemma lstrip_starts (s : string) : starts_nonspace (Str.lstrip s) = true.
Proof.
  induction s as [|c s IH]; [reflexivity|]. cbn [Str.lstrip].
  destruct (Str.isspace c) eqn:Hc; [exact IH|]. cbn. now rewrite Hc.
Qed.

Lemma lstrip_id (s : string) : starts_nonspace s = true -> Str.lstrip s = s.
Proof.
  destruct s as [|c s]; [auto|]. cbn. intros H. apply negb_true_iff in H.
  now rewrite H.
Qed.

Lemma rstrip_cons (c : ascii) (t : string) :
  Str.rstrip (String c t) =
  match Str.rstrip t with
  | EmptyString => if Str.isspace c then EmptyString else String c EmptyString
  | String c' t' => String c (String c' t')
  end.
Proof. reflexivity. Qed.

Lemma rstrip_idempotent (s : string) : Str.rstrip (Str.rstrip s) = Str.rstrip s.
Proof.
  induction s as [|c s IH]; [reflexivity|]. rewrite rstrip_cons.
  destruct (Str.rstrip s) as [|c' s'] eqn:Hr.
  - destruct (Str.isspace c) eqn:Hc; [reflexivity|]. cbn. now rewrite Hc.
  - now rewrite rstrip_cons, IH.
Qed.

Lemma rstrip_starts (s : string) :
  starts_nonspace s = true -> starts_nonspace (Str.rstrip s) = true.
Proof.
  destruct s as [|c s]; [auto|]. cbn [Str.rstrip starts_nonspace]. intros H.
  destruct (Str.rstrip s); [|exact H].
  apply negb_true_iff in H. rewrite H. cbn. now rewrite H.
Qed.

Lemma strip_idempotent (s : string) : Str.strip (Str.strip s) = Str.strip s.
Proof.
  unfold Str.strip.
  rewrite (lstrip_id (Str.rstrip (Str.lstrip s)))
    by apply rstrip_starts, lstrip_starts.
  apply rstrip_idempotent.
Qed.

(** A string that ends with a character that is no whitespace has nothing
    to strip on the right. *)
Lemma rstrip_ends_nonspace (s : string) (c : ascii) :
  Str.isspace c = false ->
  Str.rstrip (s +++ String c EmptyString) = s +++ String c EmptyString.
Proof.
  intros Hc. induction s as [|a s IH].
  - change (Str.rstrip (String c EmptyString) = String c EmptyString).
    rewrite rstrip_cons. cbn [Str.rstrip]. now rewrite Hc.
  - rewrite append_cons, rstrip_cons, IH. destruct s; reflexivity.
Qed.

Lemma split_ws_go_words (s : string) :
  Str.all_chars (fun c => negb (Str.isspace c)) (fst (Str.split_ws_go s)) = true
  /\ Forall (fun w => is_word w = true) (snd (Str.split_ws_go s)).
Proof.
  induction s as [|c s [Hw Hws]]; [cbn; auto|].
  cbn [Str.split_ws_go]. destruct (Str.split_ws_go s) as [w ws]. cbn [fst snd] in *.
  destruct (Str.isspace c) eqn:Hc; cbn [fst snd].
  - split; [reflexivity|]. destruct w as [|a w]; [exact Hws|].
    constructor; [|exact Hws]. unfold is_word. now rewrite Hw.
  - split; [|exact Hws]. cbn [Str.all_chars]. now rewrite Hc, Hw.
Qed.

Lemma split_ws_words (s : string) : Forall (fun w => is_word w = true) (Str.split_ws s).
Proof.
  unfold Str.split_ws. destruct (split_ws_go_words s) as [Hw Hws].
  destruct (Str.split_ws_go s) as [w ws]. cbn [fst snd] in *.
  destruct w as [|a w]; [exact Hws|]. constructor; [|exact Hws].
  unfold is_word. now rewrite Hw.
Qed.

Lemma filter_truthy_words (ws : list string) :
  Forall (fun w => is_word w = true) ws -> List.filter Str.truthy ws = ws.
Proof.
  induction 1 as [|w ws Hw _ IH]; [reflexivity|]. cbn [List.filter].
  unfold is_word in Hw. apply andb_true_iff in Hw as [-> _]. now rewrite IH.
Qed.

Lemma join_snoc (sep : string) (xs : list string) (y : string) :
  Str.join sep (xs ++ [y]) = Str.concat (List.map (fun x => x +++ sep) xs) +++ y.
Proof.
  induction xs as [|x xs IH]; [reflexivity|].
  cbn [app List.map]. unfold Str.concat. cbn [fold_right].
  fold (Str.concat (List.map (fun x => x +++ sep) xs)).
  rewrite append_assoc, append_assoc, <- IH.
  destruct xs; reflexivity.
Qed.

Lemma full_text_loop_eq (words : list string) :
  forall q,
    GraphDatabaseManager.full_text_loop words q
    = q +++ Str.concat (List.map (fun w => (w +++ "~2") +++ " AND ") words).
Proof.
  induction words as [|w words IH]; intros q.
  - cbn. now rewrite append_nil_r.
  - cbn [GraphDatabaseManager.full_text_loop List.map]. rewrite IH.
    unfold Str.concat. cbn [fold_right]. now rewrite !append_assoc.
Qed.

(* ===================================================================== *)
(** ** helpers/utils.py and db/graph_db.py: text cleaning and queries *)
(* ===================================================================== *)

Lemma clean_text_eq (text : string) :
  clean_text text =
  Str.strip
    (Str.remove_chars (fun c => Str.mem_char c ".,!?;:(){}")
       (Str.remove_chars (fun c => Str.mem_char c (Str.DQUOTE +++ "'[]")) text)).
Proof. reflexivity. Qed.

Lemma list_ascii_app (s t : string) :
  list_ascii_of_string (s +++ t) = list_ascii_of_string s ++ list_ascii_of_string t.
Proof.
  induction s as [|c s IH]; [reflexivity|].
  rewrite append_cons. cbn [list_ascii_of_string app]. now rewrite IH.
Qed.

Lemma is_cleaned_char_split (c : ascii) :
  is_cleaned_char c
  = Str.mem_char c (Str.DQUOTE +++ "'[]") || Str.mem_char c ".,!?;:(){}".
Proof.
  unfold is_cleaned_char, Str.mem_char.
  change cleaned_chars with ((Str.DQUOTE +++ "'[]") +++ ".,!?;:(){}").
  now rewrite list_ascii_app, existsb_app.
Qed.

Lemma clean_text_no_cleaned_char (text : string) :
  Str.all_chars (fun c => negb (Str.mem_char c (Str.DQUOTE +++ "'[]"))) (clean_text text) = true
  /\ Str.all_chars (fun c => negb (Str.mem_char c ".,!?;:(){}")) (clean_text text) = true.
Proof.
  rewrite clean_text_eq. split.
  - apply all_chars_strip, all_chars_remove, all_chars_removed.
  - apply all_chars_strip, (all_chars_removed (fun c => Str.mem_char c ".,!?;:(){}")).
Qed.

Lemma all_chars_and (p q : ascii -> bool) (s : string) :
  Str.all_chars p s = true -> Str.all_chars q s = true ->
  Str.all_chars (fun c => p c && q c) s = true.
Proof.
  induction s as [|c s IH]; [auto|]. cbn [Str.all_chars]. intros Hp Hq.
  apply andb_true_iff in Hp as [-> Hp]. apply andb_true_iff in Hq as [-> Hq].
  now rewrite IH.
Qed.

Lemma all_chars_ext (p q : ascii -> bool) (s : string) :
  (forall c, p c = q c) -> Str.all_chars p s = Str.all_chars q s.
Proof. intros H. induction s as [|c s IH]; [reflexivity|]. cbn. now rewrite H, IH. Qed.

Lemma clean_text_stripped (text : string) : Str.strip (clean_text text) = clean_text text.
Proof. rewrite clean_text_eq. apply strip_idempotent. Qed.

Lemma clean_text_chars (text : string) :
  Str.all_chars (fun c => negb (is_cleaned_char c)) (clean_text text) = true.
Proof.
  destruct (clean_text_no_cleaned_char text) as [Ha Hb].
  rewrite (all_chars_ext _ (fun c => negb (Str.mem_char c (Str.DQUOTE +++ "'[]"))
                                     && negb (Str.mem_char c ".,!?;:(){}"))).
  - now apply all_chars_and.
  - intros c. now rewrite is_cleaned_char_split, negb_orb.
Qed.

(** X1. [clean_text] is idempotent: its result contains none of the fourteen
    characters it deletes and has no whitespace at either end, so cleaning
    it again changes nothing. *)
Theorem clean_text_idempotent (text : string) :
  clean_text (clean_text text) = clean_text text
  /\ Str.all_chars (fun c => negb (is_cleaned_char c)) (clean_text text) = true
  /\ Str.strip (clean_text text) = clean_text text
  /\ String.length cleaned_chars = 14%nat.
Proof.
  destruct (clean_text_no_cleaned_char text) as [Ha Hb].
  split; [|split; [apply clean_text_chars|split; [apply clean_text_stripped|reflexivity]]].
  rewrite (clean_text_eq (clean_text text)).
  rewrite (remove_chars_id _ _ Ha), (remove_chars_id _ _ Hb).
  apply clean_text_stripped.
Qed.

Lemma extract_entities_eq (env : Env) (query : string) (w : world) :
  GraphDatabaseManager.extract_entities env query w =
  match call_model env (entity_messages query) 50 false w with
  | (Ok response, w1) => (Ok (entities_of response), w1)
  | (Raise e, w1) => (Raise e, w1)
  end.
Proof.
  unfold GraphDatabaseManager.extract_entities, bind, ret. fold (entity_messages query).
  destruct (call_model env _ 50 false w) as [[response|e] w1]; reflexivity.
Qed.

(** X2. Whatever the model answers to the extraction prompt, the entities
    handed to the graph search are clean: none contains a quote, a bracket
    or one of the punctuation marks, and none has whitespace at either end.
    There is at most one entity per comma-separated piece of the answer, and
    none at all exactly when every piece is blank. *)
Theorem extract_entities_are_clean (env : Env) (query : string) (w w1 : world)
    (response : string) :
  call_model env (entity_messages query) 50 false w = (Ok response, w1) ->
  exists entities,
    GraphDatabaseManager.extract_entities env query w = (Ok entities, w1)
    /\ Forall (fun entity =>
                 Str.all_chars (fun c => negb (is_cleaned_char c)) entity = true
                 /\ Str.strip entity = entity) entities
    /\ (length entities <= length (Str.split ","%char response))%nat
    /\ (entities = [] <->
        Forall (fun piece => Str.strip piece = EmptyString) (Str.split ","%char response)).
Proof.
  intros Hcall. exists (entities_of response).
  rewrite extract_entities_eq, Hcall. split; [reflexivity|].
  unfold entities_of. split; [|split].
  - apply Forall_map, Forall_forall. intros name _.
    split; [apply clean_text_chars|apply clean_text_stripped].
  - rewrite length_map. apply filter_length_le.
  - induction (Str.split ","%char response) as [|piece pieces IH]; [split; auto|].
    cbn [List.filter]. destruct (Str.strip piece) eqn:Hp; cbn [Str.truthy List.map].
    + rewrite IH. split; [intros H; constructor; auto|intros H; now inversion H].
    + split; [discriminate|]. intros H. inversion H; subst. congruence.
Qed.

Lemma extract_entities_from_list_literal :
  fst (call_model (Doubles.env_up "Complex" "['Adam', (Eve)] , ,")
         (entity_messages "Who are Adam and Eve?") 50 false Doubles.empty_world)
  = Ok "['Adam', (Eve)] , ,"
  /\ fst (GraphDatabaseManager.extract_entities
            (Doubles.env_up "Complex" "['Adam', (Eve)] , ,") "Who are Adam and Eve?"
            Doubles.empty_world)
     = Ok ["Adam"; "Eve"]
  /\ exists entities,
       GraphDatabaseManager.extract_entities
         (Doubles.env_up "Complex" "['Adam', (Eve)] , ,") "Who are Adam and Eve?"
         Doubles.empty_world
       = (Ok entities,
          add_events Doubles.empty_world
            [EvPost (entity_messages "Who are Adam and Eve?") 50 false])
       /\ Forall (fun entity =>
                    Str.all_chars (fun c => negb (is_cleaned_char c)) entity = true
                    /\ Str.strip entity = entity) entities
       /\ (length entities <= length (Str.split ","%char "['Adam', (Eve)] , ,"))%nat
       /\ (entities = [] <->
           Forall (fun piece => Str.strip piece = EmptyString)
             (Str.split ","%char "['Adam', (Eve)] , ,")).
Proof.
  split; [reflexivity|]. split; [reflexivity|].
  apply (extract_entities_are_clean
           (Doubles.env_up "Complex" "['Adam', (Eve)] , ,") "Who are Adam and Eve?"
           Doubles.empty_world).
  reflexivity.
Defined.

(** X3. The full-text query is the words of the cleaned input, each given
    the fuzziness suffix [~2], joined by [ AND ]; an input that is empty or
    cleans to no word gives the empty query.  The separate treatment of one
    word and the final [strip()] change nothing. *)
Theorem full_text_query_is_and_join (remove_lucene_chars : string -> string)
    (input_text : string) :
  GraphDatabaseManager.generate_full_text_query remove_lucene_chars input_text
  = if Str.truthy input_text
    then Str.join " AND "
           (List.map (fun word => word +++ "~2")
              (Str.split_ws (remove_lucene_chars input_text)))
    else EmptyString.
Proof.
  unfold GraphDatabaseManager.generate_full_text_query.
  destruct (Str.truthy input_text); [|reflexivity]. cbn [negb].
  pose proof (split_ws_words (remove_lucene_chars input_text)) as Hwords.
  rewrite (filter_truthy_words _ Hwords).
  destruct (Str.split_ws (remove_lucene_chars input_text)) as [|w1 [|w2 ws]] eqn:Hsplit;
    [reflexivity|reflexivity|].
  set (words := w1 :: w2 :: ws) in *.
  assert (Hne : words <> []) by discriminate.
  rewrite (app_removelast_last EmptyString Hne) at 3.
  rewrite List.map_app.
  change (List.map (fun word => word +++ "~2") [List.last words EmptyString])
    with [List.last words EmptyString +++ "~2"].
  rewrite join_snoc, full_text_loop_eq. change (EmptyString +++ ?x) with x.
  rewrite List.map_map.
  set (body := Str.concat _).
  assert (Hstart : starts_nonspace ((body +++ List.last words EmptyString) +++ "~2") = true).
  { subst body words. cbn [removelast List.map]. unfold Str.concat. cbn [fold_right].
    inversion Hwords as [|? ? Hw1 _]; subst. unfold is_word in Hw1.
    destruct w1 as [|a w1]; [discriminate|]. cbn [Str.truthy Str.all_chars andb] in Hw1.
    apply andb_true_iff in Hw1 as [Ha _]. rewrite !append_cons. exact Ha. }
  rewrite <- append_assoc. unfold Str.strip.
  rewrite (lstrip_id _ Hstart).
  change ((body +++ List.last words EmptyString) +++ "~2")
    with ((body +++ List.last words EmptyString) +++ ("~" +++ "2")).
  rewrite <- append_assoc. apply rstrip_ends_nonspace. reflexivity.
Qed.

(* ===================================================================== *)
(** ** db/graph_db.py: building a graph document *)
(* ===================================================================== *)

Lemma graph_step_ok (rel : gmap string string) (h t : string * string)
    (r : GraphDatabaseManager.Relationship) :
  GraphDatabaseManager.graph_step rel = Ok (h, t, r) ->
  built_from rel r
  /\ h = node_key (GraphDatabaseManager.rel_source r)
  /\ t = node_key (GraphDatabaseManager.rel_target r).
Proof.
  unfold GraphDatabaseManager.graph_step, GraphDatabaseManager.getitem, built_from.
  destruct (rel !! "head"); [|discriminate].
  destruct (rel !! "head_type"); [|discriminate].
  destruct (rel !! "tail"); [|discriminate].
  destruct (rel !! "tail_type"); [|discriminate].
  destruct (rel !! "relation"); [|discriminate].
  intros [= <- <- <-]. cbn. auto 10.
Qed.

Lemma graph_step_raises (rel : gmap string string) :
  (exists key, In key relationship_keys /\ rel !! key = None) <->
  GraphDatabaseManager.graph_step rel = Raise (PyError "KeyError").
Proof.
  unfold GraphDatabaseManager.graph_step, GraphDatabaseManager.getitem,
    relationship_keys.
  split.
  - intros (key & Hin & Hnone). cbn [In] in Hin.
    destruct (rel !! "head") eqn:H1; [|reflexivity].
    destruct (rel !! "head_type") eqn:H2; [|reflexivity].
    destruct (rel !! "tail") eqn:H3; [|reflexivity].
    destruct (rel !! "tail_type") eqn:H4; [|reflexivity].
    destruct (rel !! "relation") eqn:H5; [|reflexivity].
    destruct Hin as [ <- |[ <- |[ <- |[ <- |[ <- |Hnil]]]]]; [congruence..|destruct Hnil].
  - destruct (rel !! "head") eqn:H1; [|intros _; exists "head"; cbn; auto].
    destruct (rel !! "head_type") eqn:H2; [|intros _; exists "head_type"; cbn; auto].
    destruct (rel !! "tail") eqn:H3; [|intros _; exists "tail"; cbn; auto].
    destruct (rel !! "tail_type") eqn:H4; [|intros _; exists "tail_type"; cbn; auto 6].
    destruct (rel !! "relation") eqn:H5; [discriminate|].
    intros _; exists "relation"; cbn; auto 7.
Qed.

Lemma graph_step_total (rel : gmap string string) :
  (exists h t r, GraphDatabaseManager.graph_step rel = Ok (h, t, r))
  \/ GraphDatabaseManager.graph_step rel = Raise (PyError "KeyError").
Proof.
  unfold GraphDatabaseManager.graph_step, GraphDatabaseManager.getitem.
  destruct (rel !! "head"); [|auto].
  destruct (rel !! "head_type"); [|auto].
  destruct (rel !! "tail"); [|auto].
  destruct (rel !! "tail_type"); [|auto].
  destruct (rel !! "relation"); [|auto].
  left. eauto.
Qed.

(** The loop adds one relationship per dict, in order, and exactly the
    endpoints of those relationships to the set. *)
Lemma graph_loop_inv (parsed_json : list (gmap string string)) :
  forall (S S' : gset (string * string)) (R R' : list GraphDatabaseManager.Relationship),
    GraphDatabaseManager.graph_loop parsed_json S R = Ok (S', R') ->
    exists new,
      R' = R ++ new
      /\ Forall2 built_from parsed_json new
      /\ (forall p, p ∈ S' <->
                    p ∈ S \/ exists r, In r new
                                       /\ (p = node_key (GraphDatabaseManager.rel_source r)
                                           \/ p = node_key (GraphDatabaseManager.rel_target r))).
Proof.
  induction parsed_json as [|rel rest IH]; intros S S' R R' H;
    cbn [GraphDatabaseManager.graph_loop] in H.
  - injection H as <- <-. exists []. rewrite app_nil_r.
    split; [reflexivity|]. split; [constructor|].
    intros p. split; [auto|]. intros [Hp|(r & Hnil & _)]; [exact Hp|destruct Hnil].
  - destruct (GraphDatabaseManager.graph_step rel) as [[[h t] r]|e] eqn:Hstep;
      [|discriminate].
    destruct (graph_step_ok _ _ _ _ Hstep) as (Hbuilt & -> & ->).
    destruct (IH _ _ _ _ H) as (new & -> & Hall & Hmem).
    exists (r :: new). rewrite <- app_assoc. split; [reflexivity|].
    split; [constructor; auto|].
    intros p. rewrite Hmem, !elem_of_union, !elem_of_singleton. cbn [In].
    split.
    + intros [[->|[->|Hp]]|(r' & Hin & Hr')]; eauto 8.
    + intros [Hp|(r' & [ <- |Hin] & [ -> | -> ])]; eauto 8.
Qed.

Lemma graph_loop_raises (parsed_json : list (gmap string string)) :
  forall (S : gset (string * string)) (R : list GraphDatabaseManager.Relationship),
    (exists rel key, In rel parsed_json /\ In key relationship_keys /\ rel !! key = None)
    <-> GraphDatabaseManager.graph_loop parsed_json S R = Raise (PyError "KeyError").
Proof.
  induction parsed_json as [|rel rest IH]; intros S R;
    cbn [GraphDatabaseManager.graph_loop].
  - split; [intros (rel & key & Hnil & _); destruct Hnil|discriminate].
  - destruct (graph_step_total rel) as [(h & t & r & Hstep)|Hstep]; rewrite Hstep.
    + rewrite <- IH. split.
      * intros (rel' & key & [Heq|Hin] & Hkey & Hnone); [|eauto]. subst rel'.
        assert (Hr : GraphDatabaseManager.graph_step rel = Raise (PyError "KeyError"))
          by (apply graph_step_raises; eauto).
        congruence.
      * intros (rel' & key & Hin & Hkey & Hnone). exists rel', key. cbn [In]. auto.
    + split; [reflexivity|]. intros _. apply graph_step_raises in Hstep as (key & Hkey & Hnone).
      exists rel, key. cbn [In]. auto.
Qed.

Lemma NoDup_map_injective {A B : Type} (f : A -> B) (l : list A) :
  (forall x y, f x = f y -> x = y) -> NoDup l -> NoDup (List.map f l).
Proof.
  intros Hinj. induction 1 as [|x l Hx Hl IH]; cbn [List.map]; constructor; [|exact IH].
  intros Hin. apply list_elem_of_In, in_map_iff in Hin as (y & Hy & Hin).
  apply Hinj in Hy. subst y. apply Hx, list_elem_of_In, Hin.
Qed.

Lemma mkNode_of_key_inj (x y : string * string) :
  GraphDatabaseManager.mkNode (fst x) (snd x) = GraphDatabaseManager.mkNode (fst y) (snd y) ->
  x = y.
Proof. destruct x as [a b], y as [c d]. intros [= -> ->]. reflexivity. Qed.

(** X4. A graph document that [init_graph_document] returns is well formed:
    it has one relationship per parsed dict, in order and built from that
    dict's five values; both end nodes of every relationship are in the node
    list; the node list has no duplicates and no node that is not an end of
    some relationship; the source is the document text. *)
Theorem init_graph_document_well_formed (parsed_json : list (gmap string string))
    (document : string) (doc : GraphDatabaseManager.GraphDocument) :
  GraphDatabaseManager.init_graph_document parsed_json document = Ok doc ->
  GraphDatabaseManager.source_text doc = document
  /\ Forall2 built_from parsed_json (GraphDatabaseManager.relationships doc)
  /\ Forall (fun r => In (GraphDatabaseManager.rel_source r) (GraphDatabaseManager.nodes doc)
                      /\ In (GraphDatabaseManager.rel_target r) (GraphDatabaseManager.nodes doc))
            (GraphDatabaseManager.relationships doc)
  /\ NoDup (GraphDatabaseManager.nodes doc)
  /\ Forall (fun n => exists r, In r (GraphDatabaseManager.relationships doc)
                                /\ (n = GraphDatabaseManager.rel_source r
                                    \/ n = GraphDatabaseManager.rel_target r))
            (GraphDatabaseManager.nodes doc).
Proof.
  unfold GraphDatabaseManager.init_graph_document.
  destruct (GraphDatabaseManager.graph_loop parsed_json ∅ []) as [[S R]|e] eqn:Hloop;
    [|discriminate].
  intros [= <-]. cbn [GraphDatabaseManager.source_text GraphDatabaseManager.relationships
                      GraphDatabaseManager.nodes].
  destruct (graph_loop_inv _ _ _ _ _ Hloop) as (new & -> & Hbuilt & Hmem).
  cbn [app] in *.
  assert (Hin : forall n, In n (List.map (fun el => GraphDatabaseManager.mkNode (fst el) (snd el))
                                  (elements S)) <-> node_key n ∈ S).
  { intros [i t]. rewrite in_map_iff. unfold node_key. cbn. split.
    - intros ([a b] & [= -> ->] & Hel). now apply list_elem_of_In, elem_of_elements in Hel.
    - intros Hel. exists (i, t). split; [reflexivity|].
      now apply list_elem_of_In, elem_of_elements. }
  split; [reflexivity|]. split; [exact Hbuilt|]. split; [|split].
  - apply Forall_forall. intros r Hr. apply list_elem_of_In in Hr.
    rewrite !Hin, !Hmem. split; right; exists r; auto.
  - apply NoDup_map_injective; [apply mkNode_of_key_inj|apply NoDup_elements].
  - apply Forall_forall. intros n Hn.
    apply list_elem_of_In, Hin, Hmem in Hn as [Hn|(r & Hr & Hkey)].
    + now apply not_elem_of_empty in Hn.
    + exists r. split; [exact Hr|]. destruct n as [i t], r as [[si st] [ti tt] ty].
      unfold node_key in Hkey. cbn in *. destruct Hkey as [[= -> ->]|[= -> ->]]; auto.
Qed.

(** X5. [init_graph_document] raises [KeyError] exactly when some parsed
    dict lacks one of the keys head, head_type, tail, tail_type, relation;
    otherwise it returns a document. *)
Theorem init_graph_document_key_error (parsed_json : list (gmap string string))
    (document : string) :
  ((exists rel key, In rel parsed_json /\ In key relationship_keys /\ rel !! key = None)
   <-> GraphDatabaseManager.init_graph_document parsed_json document
       = Raise (PyError "KeyError"))
  /\ ((forall rel key, In rel parsed_json -> In key relationship_keys ->
                       is_Some (rel !! key))
      <-> exists doc, GraphDatabaseManager.init_graph_document parsed_json document
                      = Ok doc).
Proof.
  assert (Hraise : (exists rel key, In rel parsed_json /\ In key relationship_keys
                                    /\ rel !! key = None)
                   <-> GraphDatabaseManager.init_graph_document parsed_json document
                       = Raise (PyError "KeyError")).
  { rewrite (graph_loop_raises parsed_json ∅ []).
    unfold GraphDatabaseManager.init_graph_document.
    destruct (GraphDatabaseManager.graph_loop parsed_json ∅ []) as [[S R]|e];
      split; congruence. }
  split; [exact Hraise|]. split.
  - intros Hall.
    destruct (GraphDatabaseManager.init_graph_document parsed_json document)
      as [doc|e] eqn:Hdoc; [eauto|].
    assert (He : e = PyError "KeyError").
    { unfold GraphDatabaseManager.init_graph_document in Hdoc.
      destruct (GraphDatabaseManager.graph_loop parsed_json ∅ []) as [[S R]|e'] eqn:Hloop;
        [discriminate|]. injection Hdoc as <-.
      clear Hall Hraise. revert Hloop. generalize (∅ : gset (string * string)).
      generalize (@nil GraphDatabaseManager.Relationship).
      induction parsed_json as [|rel rest IH]; intros R S Hloop;
        cbn [GraphDatabaseManager.graph_loop] in Hloop; [discriminate|].
      destruct (graph_step_total rel) as [(h & t & r & Hstep)|Hstep];
        rewrite Hstep in Hloop; [eapply IH, Hloop|congruence]. }
    subst e. destruct (proj2 Hraise eq_refl) as (rel & key & Hin & Hkey & Hnone).
    destruct (Hall rel key Hin Hkey) as [v Hv]. congruence.
  - intros [doc Hdoc] rel key Hin Hkey.
    destruct (rel !! key) eqn:Hlook; [eauto|].
    assert (Hr : GraphDatabaseManager.init_graph_document parsed_json document
                 = Raise (PyError "KeyError")) by (apply Hraise; eauto).
    congruence.
Qed.

Lemma adam_document_well_formed :
  NoDup (GraphDatabaseManager.nodes
           (Doubles.document_of
              (GraphDatabaseManager.init_graph_document
                 [Doubles.adam_works; Doubles.adam_award; Doubles.adam_works]
                 "Adam is a software engineer in Microsoft since 2009")))
  /\ length (GraphDatabaseManager.nodes
               (Doubles.document_of
                  (GraphDatabaseManager.init_graph_document
                     [Doubles.adam_works; Doubles.adam_award; Doubles.adam_works]
                     "Adam is a software engineer in Microsoft since 2009"))) = 3%nat
  /\ length (GraphDatabaseManager.relationships
               (Doubles.document_of
                  (GraphDatabaseManager.init_graph_document
                     [Doubles.adam_works; Doubles.adam_award; Doubles.adam_works]
                     "Adam is a software engineer in Microsoft since 2009"))) = 3%nat.
Proof.
  split; [|split; vm_compute; reflexivity].
  apply (init_graph_document_well_formed
           [Doubles.adam_works; Doubles.adam_award; Doubles.adam_works]
           "Adam is a software engineer in Microsoft since 2009").
  vm_compute. reflexivity.
Defined.

Lemma missing_tail_type_raises :
  GraphDatabaseManager.init_graph_document
    [Doubles.adam_works; Doubles.untyped_tail] "Adam lives in Seattle"
  = Raise (PyError "KeyError").
Proof.
  apply (init_graph_document_key_error
           [Doubles.adam_works; Doubles.untyped_tail] "Adam lives in Seattle").
  exists Doubles.untyped_tail, "tail_type". split; [cbn; auto|].
  split; [cbn; auto 6|]. vm_compute. reflexivity.
Defined.

(* ===================================================================== *)
(** ** db/unstructured_db.py: the history store *)
(* ===================================================================== *)

Lemma stored_history_committed (w : world) (sid sid' : string) (messages : list Message) :
  stored_history (committed w sid messages) sid'
  = if decide (sid = sid') then messages else stored_history w sid'.
Proof.
  unfold stored_history, committed. cbn [chat_history]. rewrite lookup_insert.
  case_decide; [reflexivity|]. destruct (chat_history w); [reflexivity|].
  cbn [default]. now rewrite lookup_empty.
Qed.

Lemma stored_history_add_events (w : world) (evs : list event) (sid : string) :
  stored_history (add_events w evs) sid = stored_history w sid.
Proof. reflexivity. Qed.





Lemma create_chat_history_index_eq (env : Env) (w : world) :
  ElasticsearchHistoryManager.create_chat_history_index env w =
  if es_reachable env
  then (Ok tt, {| chat_history := Some (default ∅ (chat_history w)); trace := trace w |})
  else (Raise ElasticsearchHistoryManager.ConnectionError, w).
Proof.
  unfold ElasticsearchHistoryManager.create_chat_history_index,
    ElasticsearchHistoryManager.check_index_exists, bind, get_index, put_index, ret, raise.
  destruct (es_reachable env); [|reflexivity].
  destruct w as [[docs|] tr]; reflexivity.
Qed.

(** X8. With the store reachable, [create_chat_history_index] leaves an
    index in place without losing anything: every session reads as before,
    and creating again changes nothing. *)
Theorem create_index_keeps_histories (env : Env) (w : world) :
  es_reachable env = true ->
  exists w1,
    ElasticsearchHistoryManager.create_chat_history_index env w = (Ok tt, w1)
    /\ is_Some (chat_history w1)
    /\ (forall sid, stored_history w1 sid = stored_history w sid)
    /\ (forall docs, chat_history w = Some docs -> w1 = w)
    /\ ElasticsearchHistoryManager.create_chat_history_index env w1 = (Ok tt, w1).
Proof.
  intros Hes. rewrite create_chat_history_index_eq, Hes. eexists.
  split; [reflexivity|]. split; [cbn; eauto|]. split; [|split].
  - intros sid. unfold stored_history. cbn [chat_history].
    destruct (chat_history w); [reflexivity|]. cbn [default]. now rewrite lookup_empty.
  - intros docs Hdocs. destruct w as [h tr]. cbn in *. now subst h.
  - rewrite create_chat_history_index_eq, Hes. reflexivity.
Qed.

Lemma create_index_on_existing_store :
  exists w1,
    ElasticsearchHistoryManager.create_chat_history_index (Doubles.env_up "Relevant" "")
      Doubles.world_with_session = (Ok tt, w1)
    /\ is_Some (chat_history w1)
    /\ (forall sid, stored_history w1 sid = stored_history Doubles.world_with_session sid)
    /\ (forall docs, chat_history Doubles.world_with_session = Some docs ->
                     w1 = Doubles.world_with_session)
    /\ ElasticsearchHistoryManager.create_chat_history_index (Doubles.env_up "Relevant" "")
         w1 = (Ok tt, w1).
Proof.
  apply (create_index_keeps_histories (Doubles.env_up "Relevant" "")
           Doubles.world_with_session).
  reflexivity.
Defined.

(* ===================================================================== *)
(** ** api.py: the body of a stream, chunk by chunk *)
(* ===================================================================== *)

Lemma loop_to_yield_no_chunk (env : Env) (sid : string) (lines : list bytes)
    (acc : string) :
  chunks_before_done lines = [] ->
  loop_to_yield env sid lines acc = Ok (mkSSE EmptyString sid, GenEpilogue acc).
Proof.
  induction lines as [|line rest IH]; [reflexivity|].
  destruct line as [text|]; [|discriminate].
  cbn [chunks_before_done loop_to_yield bytes_truthy decode_utf8].
  destruct (Str.truthy text); cbn [andb]; [|exact IH].
  destruct (Str.startswith "data:" text); [|exact IH].
  destruct (String.eqb _ "[DONE]"); [reflexivity|discriminate].
Qed.

Lemma loop_to_yield_chunk (env : Env) (sid : string) (lines : list bytes)
    (acc : string) (p : result string) (ps : list (result string)) :
  chunks_before_done lines = p :: ps ->
  exists rest,
    (forall c, chunk_content env p = Ok c -> chunks_before_done rest = ps)
    /\ loop_to_yield env sid lines acc =
       match chunk_content env p with
       | Ok c => Ok (mkSSE c sid, GenLoop rest (acc +++ c))
       | Raise e => Raise e
       end.
Proof.
  induction lines as [|line rest IH]; [discriminate|].
  destruct line as [text|].
  - cbn [chunks_before_done loop_to_yield bytes_truthy decode_utf8].
    destruct (Str.truthy text); cbn [andb]; [|exact IH].
    destruct (Str.startswith "data:" text); [|exact IH].
    destruct (String.eqb _ "[DONE]"); [discriminate|].
    intros [= <- <-]. exists rest. split; [reflexivity|].
    cbn [chunk_content]. destruct (json_delta_content env _); reflexivity.
  - intros [= <- <-]. exists rest. split; [discriminate|reflexivity].
Qed.

Lemma decode_chunks_nil (env : Env) (ps : list (result string)) :
  decode_chunks env ps = Ok [] -> ps = [].
Proof.
  destruct ps as [|p ps]; [reflexivity|]. cbn [decode_chunks].
  destruct (chunk_content env p); [|discriminate].
  destruct (decode_chunks env ps); discriminate.
Qed.

Lemma decode_chunks_cons (env : Env) (ps : list (result string)) (c : string)
    (cs : list string) :
  decode_chunks env ps = Ok (c :: cs) ->
  exists p ps', ps = p :: ps' /\ chunk_content env p = Ok c
                /\ decode_chunks env ps' = Ok cs.
Proof.
  destruct ps as [|p ps]; [discriminate|]. cbn [decode_chunks].
  destruct (chunk_content env p) as [c'|e] eqn:Hp; [|discriminate].
  destruct (decode_chunks env ps) as [cs'|e] eqn:Hps; [|discriminate].
  intros [= -> ->]. eauto.
Qed.

(** Reading a body whose lines before [DONE] are all UTF-8 and whose chunks
    all decode: after one read per chunk and one for the end-of-stream event,
    the generator is suspended after the loop with the contents accumulated;
    what further reads do is what they do there. *)
Lemma send_body_chunks (env : Env) (sid : string) (messages : list Message)
    (contents : list string) :
  forall (lines : list bytes) (acc : string) (m : nat) (w : world),
    decode_chunks env (chunks_before_done lines) = Ok contents ->
    send_body env (length contents + S m) sid messages (GenLoop lines acc) w =
    match send_body env m sid messages (GenEpilogue (acc +++ Str.concat contents)) w with
    | (Ok rest, w') =>
        (Ok (List.map (fun c => mkSSE c sid) contents
               ++ mkSSE EmptyString sid :: fst rest, snd rest), w')
    | (Raise e, w') => (Raise e, w')
    end.
Proof.
  induction contents as [|c cs IH]; intros lines acc m w Hdec.
  - apply decode_chunks_nil in Hdec. cbn [length Nat.add List.map app].
    rewrite send_body_step, (loop_to_yield_no_chunk _ _ _ _ Hdec).
    unfold Str.concat. cbn [fold_right]. now rewrite append_nil_r.
  - apply decode_chunks_cons in Hdec as (p & ps & Hchunks & Hp & Hps).
    destruct (loop_to_yield_chunk env sid lines acc p ps Hchunks) as (rest & Hrest & Hloop).
    rewrite Hp in Hloop. cbn [length Nat.add List.map app].
    rewrite send_body_step, Hloop. rewrite <- (Hrest c Hp) in Hps.
    rewrite (IH _ _ _ _ Hps).
    unfold Str.concat. cbn [fold_right]. rewrite append_assoc.
    destruct (send_body env m sid messages _ w) as [[r|e] w']; reflexivity.
Qed.

(** X9. With the store reachable, every non-empty line before the [DONE]
    line valid UTF-8 and every chunk decodable, a body read to its end sends
    one event per chunk line found before the [DONE] line, in order, and then
    one event with the empty token; blank lines, lines without the [data:]
    prefix and everything after [DONE] send nothing.  The assistant turn
    stored is the concatenation of the contents, and [chunks + 2] reads are
    enough. *)
Theorem stream_is_one_event_per_chunk (env : Env) (sid : string)
    (messages : list Message) (lines : list bytes) (acc : string)
    (contents : list string) (reads : nat) (w : world) :
  es_reachable env = true ->
  decode_chunks env (chunks_before_done lines) = Ok contents ->
  (length contents + 2 <= reads)%nat ->
  send_body env reads sid messages (GenLoop lines acc) w
  = (Ok (events_for sid contents, true),
     committed w sid (messages ++ [mkMessage "assistant" (acc +++ Str.concat contents)])).
Proof.
  intros Hes Hdec Hreads.
  replace reads with (length contents + S (S (reads - length contents - 2)))%nat by lia.
  rewrite (send_body_chunks _ _ _ _ _ _ _ _ Hdec), send_body_step, Hes. reflexivity.
Qed.

Lemma policy_answer_has_six_events :
  send_body (Doubles.env_up "Relevant" "") 7 Doubles.session Doubles.earlier_turns
    (GenLoop Doubles.policy_answer EmptyString) Doubles.empty_world
  = (Ok (events_for Doubles.session ["The"; " return"; " policy"; " is"; " 30 days."], true),
     committed Doubles.empty_world Doubles.session
       (Doubles.earlier_turns ++
        [mkMessage "assistant"
           (EmptyString +++ Str.concat ["The"; " return"; " policy"; " is"; " 30 days."])])).
Proof.
  apply (stream_is_one_event_per_chunk (Doubles.env_up "Relevant" "")).
  - reflexivity.
  - vm_compute. reflexivity.
  - cbn. lia.
Defined.

Lemma send_body_decode_failure (env : Env) (sid : string) (messages : list Message)
    (e : exn) (ps : list (result string)) :
  forall (lines : list bytes) (acc : string) (reads : nat) (w : world),
    chunks_before_done lines = ps ->
    decode_chunks env ps = Raise e ->
    (length ps <= reads)%nat ->
    send_body env reads sid messages (GenLoop lines acc) w = (Raise e, w).
Proof.
  induction ps as [|p ps IH]; intros lines acc reads w Hchunks Hdec Hreads;
    [discriminate|].
  destruct reads as [|reads]; [cbn in Hreads; lia|].
  destruct (loop_to_yield_chunk env sid lines acc p ps Hchunks) as (rest & Hrest & Hloop).
  rewrite send_body_step, Hloop. cbn [decode_chunks] in Hdec.
  destruct (chunk_content env p) as [c|e'].
  - destruct (decode_chunks env ps) as [cs|e''] eqn:Hps; [discriminate|].
    injection Hdec as ->.
    rewrite (IH rest (acc +++ c) reads w (Hrest c eq_refl) eq_refl); [reflexivity|].
    cbn [length] in Hreads. lia.
  - now injection Hdec as ->.
Qed.

(** X10. A line that is not UTF-8, or a chunk that does not decode, ends the
    stream with its exception, that of the first such line in the body when
    there are several: a client that keeps reading gets no end-of-stream
    event, nothing is stored and the store is not even called. *)
Theorem undecodable_chunk_aborts_stream (env : Env) (sid : string)
    (messages : list Message) (lines : list bytes) (acc : string) (e : exn)
    (reads : nat) (w : world) :
  decode_chunks env (chunks_before_done lines) = Raise e ->
  (length (chunks_before_done lines) <= reads)%nat ->
  send_body env reads sid messages (GenLoop lines acc) w = (Raise e, w).
Proof.
  intros Hdec Hreads.
  now apply (send_body_decode_failure env sid messages e (chunks_before_done lines)).
Qed.

Lemma broken_answer_aborts :
  send_body Doubles.env_broken_stream 7 Doubles.session Doubles.earlier_turns
    (GenLoop Doubles.broken_answer EmptyString) Doubles.empty_world
  = (Raise (PyError "JSONDecodeError"), Doubles.empty_world)
  /\ send_body Doubles.env_garbled_stream 7 Doubles.session Doubles.earlier_turns
       (GenLoop Doubles.garbled_answer EmptyString) Doubles.empty_world
     = (Raise (PyError "UnicodeDecodeError"), Doubles.empty_world).
Proof.
  split.
  - apply (undecodable_chunk_aborts_stream Doubles.env_broken_stream).
    + vm_compute. reflexivity.
    + vm_compute. lia.
  - apply (undecodable_chunk_aborts_stream Doubles.env_garbled_stream).
    + vm_compute. reflexivity.
    + vm_compute. lia.
Defined.

(** X11. When the store cannot be reached at the end of a stream whose lines
    before [DONE] are UTF-8 and whose chunks decode, the whole answer has
    been sent by then: after [chunks + 1] reads the client holds every event
    including the end-of-stream one; the next resumption of the generator
    raises out of [store_chat_history], and the turn is not in the history. *)
Theorem store_failure_after_full_delivery (env : Env) (sid : string)
    (messages : list Message) (lines : list bytes) (acc : string)
    (contents : list string) (w : world) :
  es_reachable env = false ->
  decode_chunks env (chunks_before_done lines) = Ok contents ->
  send_body env (length contents + 1) sid messages (GenLoop lines acc) w
  = (Ok (events_for sid contents, false), w)
  /\ (forall reads, (length contents + 2 <= reads)%nat ->
        send_body env reads sid messages (GenLoop lines acc) w
        = (Raise ElasticsearchHistoryManager.ConnectionError,
           add_events w
             [EvHistoryStore sid
                (messages ++ [mkMessage "assistant" (acc +++ Str.concat contents)])])).
Proof.
  intros Hes Hdec. split.
  - now rewrite (send_body_chunks _ _ _ _ _ _ 0%nat _ Hdec).
  - intros reads Hreads.
    replace reads with (length contents + S (S (reads - length contents - 2)))%nat by lia.
    rewrite (send_body_chunks _ _ _ _ _ _ _ _ Hdec), send_body_step, Hes. reflexivity.
Qed.

Lemma answer_sent_then_store_fails :
  send_body Doubles.env_store_down 6 Doubles.session Doubles.earlier_turns
    (GenLoop Doubles.policy_answer EmptyString) Doubles.empty_world
  = (Ok (events_for Doubles.session ["The"; " return"; " policy"; " is"; " 30 days."],
         false), Doubles.empty_world)
  /\ fst (send_body Doubles.env_store_down 7 Doubles.session Doubles.earlier_turns
            (GenLoop Doubles.policy_answer EmptyString) Doubles.empty_world)
     = Raise ElasticsearchHistoryManager.ConnectionError.
Proof.
  destruct (store_failure_after_full_delivery Doubles.env_store_down Doubles.session
              Doubles.earlier_turns Doubles.policy_answer EmptyString
              ["The"; " return"; " policy"; " is"; " 30 days."] Doubles.empty_world)
    as [Hsent Hfails].
  - reflexivity.
  - vm_compute. reflexivity.
  - split; [exact Hsent|]. rewrite (Hfails 7%nat); [reflexivity|cbn; lia].
Defined.

(* ===================================================================== *)
(** ** The handlers: which backends they call *)
(* ===================================================================== *)

Lemma emits_only_ret {A} (p : event -> bool) (a : A) : emits_only p (ret a).
Proof. intros w. exists []. now rewrite add_events_nil. Qed.

Lemma emits_only_raise {A} (p : event -> bool) (e : exn) : emits_only p (@raise A e).
Proof. intros w. exists []. now rewrite add_events_nil. Qed.

Lemma emits_only_lift {A} (p : event -> bool) (r : result A) : emits_only p (lift r).
Proof. intros w. exists []. now rewrite add_events_nil. Qed.

Lemma emits_only_emit (p : event -> bool) (ev : event) :
  p ev = true -> emits_only p (emit ev).
Proof. intros H w. exists [ev]. cbn. now rewrite H. Qed.

Lemma emits_only_bind {A B} (p : event -> bool) (m : M A) (k : A -> M B) :
  emits_only p m -> (forall a, emits_only p (k a)) -> emits_only p (bind m k).
Proof.
  intros Hm Hk w. unfold bind. destruct (Hm w) as (evs & Hw & Hevs).
  destruct (m w) as [[a|e] w1]; cbn in Hw; subst w1.
  - destruct (Hk a (add_events w evs)) as (evs2 & Hw2 & Hevs2).
    exists (evs ++ evs2). rewrite Hw2, add_events_app, forallb_app, Hevs, Hevs2. auto.
  - exists evs. auto.
Qed.

Lemma emits_only_try_except {A} (p : event -> bool) (m : M A) (h : exn -> M A) :
  emits_only p m -> (forall e, emits_only p (h e)) -> emits_only p (try_except m h).
Proof.
  intros Hm Hh w. unfold try_except. destruct (Hm w) as (evs & Hw & Hevs).
  destruct (m w) as [[a|e] w1]; cbn in Hw; subst w1.
  - exists evs. auto.
  - destruct (Hh e (add_events w evs)) as (evs2 & Hw2 & Hevs2).
    exists (evs ++ evs2). rewrite Hw2, add_events_app, forallb_app, Hevs, Hevs2. auto.
Qed.

Create HintDb eo discriminated.
#[local] Hint Resolve emits_only_ret emits_only_raise emits_only_lift
  emits_only_bind emits_only_try_except : eo.
#[local] Hint Extern 1 (emits_only _ (emit _)) => (apply emits_only_emit; reflexivity) : eo.
#[local] Hint Extern 3 (emits_only _ (match ?x with _ => _ end)) => destruct x : eo.
#[local] Hint Extern 3 (emits_only _ (if ?x then _ else _)) => destruct x : eo.

Ltac eo := intros; eauto 12 with eo.

Lemma backend_only_call_model (env : Env) msgs mt stream :
  emits_only is_backend_call (call_model env msgs mt stream).
Proof. unfold call_model. destruct stream; eo. Qed.
#[local] Hint Resolve backend_only_call_model : eo.

Lemma backend_only_vector_search (env : Env) query k :
  emits_only is_backend_call (ElasticsearchRetrievalManager.search env query k).
Proof. unfold ElasticsearchRetrievalManager.search. eo. Qed.
#[local] Hint Resolve backend_only_vector_search : eo.

Lemma backend_only_search_loop (env : Env) entities :
  forall result,
    emits_only is_backend_call (GraphDatabaseManager.search_loop env entities result).
Proof. induction entities as [|entity rest IH]; intros result; cbn; eo. Qed.
#[local] Hint Resolve backend_only_search_loop : eo.

Lemma backend_only_graph_search (env : Env) query :
  emits_only is_backend_call (GraphDatabaseManager.search env query).
Proof.
  unfold GraphDatabaseManager.search, GraphDatabaseManager.extract_entities. eo.
Qed.
#[local] Hint Resolve backend_only_graph_search : eo.

Lemma backend_only_classify (env : Env) query :
  emits_only is_backend_call (AdaptiveRAG._classify env query).
Proof. unfold AdaptiveRAG._classify. eo. Qed.
#[local] Hint Resolve backend_only_classify : eo.

Lemma backend_only_retrieve_category (env : Env) category query k :
  emits_only is_backend_call (AdaptiveRAG.retrieve_category env category query k).
Proof. unfold AdaptiveRAG.retrieve_category. eo. Qed.
#[local] Hint Resolve backend_only_retrieve_category : eo.

Lemma backend_only_generate (env : Env) query messages context :
  emits_only is_backend_call (generate_with_context env query messages context).
Proof. unfold generate_with_context. eo. Qed.
#[local] Hint Resolve backend_only_generate : eo.

Lemma backend_only_call (env : Env) (name : string) (handler : BaseRAG)
    (query : string) (messages : list Message) (k : Z) :
  RAG_REGISTRY env !! name = Some handler ->
  emits_only is_backend_call (__call__ handler query messages k).
Proof.
  intros H. apply registry_lookup in H as [[_ ->]|[[_ ->]|[_ ->]]];
    unfold __call__; cbn [retrieve generate FusionRAG.new GraphRAG.new AdaptiveRAG.new].
  - unfold FusionRAG.retrieve, FusionRAG.generate. eo.
  - unfold GraphRAG.retrieve, GraphRAG.generate. eo.
  - unfold AdaptiveRAG.retrieve, AdaptiveRAG.generate. eo.
Qed.

Lemma generate_eq (env : Env) (query : string) (messages : list Message)
    (context : string) (w : world) :
  generate_with_context env query messages context w
  = (requests_post env (messages ++ [grounded_turn query context]) 500 true,
     add_events w [EvPost (messages ++ [grounded_turn query context]) 500 true]).
Proof. unfold generate_with_context. now rewrite call_model_stream. Qed.

(** X12. The fusion handler makes exactly two calls, in this order: one
    vector search with the caller's [k], and one streaming generation request
    of 500 tokens whose messages are the history it was given followed by one
    user message, the prompt grounded in the search text (empty if the
    search failed).  It calls neither the classifier nor the graph, and what
    it returns is the answer of the generation endpoint. *)
Theorem fusion_handler_calls (env : Env) (query : string) (messages : list Message)
    (k : Z) (w : world) :
  __call__ (FusionRAG.new env) query messages k w
  = (requests_post env
       (messages ++ [grounded_turn query (vector_context env query k)]) 500 true,
     add_events w
       [ EvVectorSearch query k;
         EvPost (messages ++ [grounded_turn query (vector_context env query k)])
           500 true ]).
Proof.
  unfold __call__. cbn [retrieve generate FusionRAG.new].
  unfold FusionRAG.retrieve, FusionRAG.generate, bind.
  rewrite vector_search_eq. fold (vector_context env query k).
  now rewrite generate_eq, add_events_app.
Qed.

(** X13. The graph handler has no recovery of its own.  When the traversal
    query of one extracted entity raises, the handler raises that exception
    after the queries made so far: the later entities are not queried and
    the generation endpoint is never called; a request for the graph
    strategy then fails before a response exists. *)
Theorem graph_handler_fails_on_query_error (env : Env) (request : QueryInput)
    (w w1 : world) (before after : list string) (entity : string) (e : exn) :
  Str.lower (rag_type request) = "graph" ->
  session_id_given (session_id request) = None ->
  GraphDatabaseManager.extract_entities env (question request)
    (add_events w [EvGraphSearch (question request)])
  = (Ok (before ++ entity :: after), w1) ->
  Forall (query_ok env) before ->
  graph_query env entity = Raise e ->
  (forall messages k,
     __call__ (GraphRAG.new env) (question request) messages k w
     = (Raise e, add_events w1 (List.map EvGraphQuery (before ++ [entity]))))
  /\ chat env request w
     = (Raise e, add_events w1 (List.map EvGraphQuery (before ++ [entity]))).
Proof.
  intros Hgraph Hnew Hext Hbefore Hraise.
  assert (Hcall : forall messages k,
             __call__ (GraphRAG.new env) (question request) messages k w
             = (Raise e, add_events w1 (List.map EvGraphQuery (before ++ [entity])))).
  { intros messages k. unfold __call__. cbn [retrieve generate GraphRAG.new].
    unfold GraphRAG.retrieve, GraphDatabaseManager.search.
    unfold bind at 1 2. rewrite emit_eq. unfold bind at 1. rewrite Hext.
    now rewrite (search_loop_raises env before entity after e Hbefore Hraise). }
  split; [exact Hcall|].
  unfold chat. rewrite Hgraph.
  assert (Hreg : RAG_REGISTRY env !! "graph" = Some (GraphRAG.new env))
    by (apply registry_lookup; auto).
  rewrite Hreg, chat_with_eq, Hnew. unfold respond. now rewrite Hcall.
Qed.

Lemma graph_request_fails_on_neo :
  chat (Doubles.env_up "Complex" "Adam, Neo, Eve")
    (mkQueryInput "Do Adam and Neo know Eve?" "Graph" None) Doubles.empty_world
  = (Raise (PyError "ServiceUnavailable"),
     add_events
       (snd (GraphDatabaseManager.extract_entities
               (Doubles.env_up "Complex" "Adam, Neo, Eve") "Do Adam and Neo know Eve?"
               (add_events Doubles.empty_world
                  [EvGraphSearch "Do Adam and Neo know Eve?"])))
       [EvGraphQuery "Adam"; EvGraphQuery "Neo"]).
Proof.
  apply (graph_handler_fails_on_query_error
           (Doubles.env_up "Complex" "Adam, Neo, Eve")
           (mkQueryInput "Do Adam and Neo know Eve?" "Graph" None)
           Doubles.empty_world _ ["Adam"] ["Eve"] "Neo").
  - reflexivity.
  - reflexivity.
  - reflexivity.
  - repeat constructor. eexists. reflexivity.
  - reflexivity.
Defined.

(** X14. A query the classifier calls irrelevant is still answered: the
    adaptive handler makes the classification request and then the streaming
    generation request with an empty context, and no retrieval call at all. *)
Theorem adaptive_irrelevant_skips_retrieval (env : Env) (query : string)
    (messages : list Message) (k : Z) (w w1 : world) (category : string) :
  call_model env (AdaptiveRAG.classifier_messages query) 5 false w = (Ok category, w1) ->
  Str.contains "irrelevant" (Str.lower category) = true ->
  w1 = add_events w [EvPost (AdaptiveRAG.classifier_messages query) 5 false]
  /\ AdaptiveRAG.retrieve env query k w = (Ok EmptyString, w1)
  /\ __call__ (AdaptiveRAG.new env) query messages k w
     = (requests_post env (messages ++ [grounded_turn query EmptyString]) 500 true,
        add_events w
          [ EvPost (AdaptiveRAG.classifier_messages query) 5 false;
            EvPost (messages ++ [grounded_turn query EmptyString]) 500 true ]).
Proof.
  intros Hcall Hirr.
  assert (Hw1 : w1 = add_events w [EvPost (AdaptiveRAG.classifier_messages query) 5 false]).
  { rewrite call_model_completion in Hcall. now injection Hcall as _ <-. }
  assert (Hret : AdaptiveRAG.retrieve env query k w = (Ok EmptyString, w1)).
  { unfold AdaptiveRAG.retrieve, bind. rewrite classify_eq, Hcall, first_valid_eq, Hirr.
    reflexivity. }
  split; [exact Hw1|]. split; [exact Hret|].
  unfold __call__, bind. cbn [retrieve generate AdaptiveRAG.new]. rewrite Hret.
  unfold AdaptiveRAG.generate. now rewrite generate_eq, Hw1, add_events_app.
Qed.

Lemma greeting_is_answered_without_retrieval :
  AdaptiveRAG.retrieve (Doubles.env_up "Irrelevant" "") "Hello there" 5 Doubles.empty_world
  = (Ok EmptyString,
     add_events Doubles.empty_world
       [EvPost (AdaptiveRAG.classifier_messages "Hello there") 5 false]).
Proof.
  destruct (adaptive_irrelevant_skips_retrieval (Doubles.env_up "Irrelevant" "")
              "Hello there" [] 5 Doubles.empty_world
              (add_events Doubles.empty_world
                 [EvPost (AdaptiveRAG.classifier_messages "Hello there") 5 false])
              "Irrelevant") as (_ & Hret & _).
  - reflexivity.
  - reflexivity.
  - exact Hret.
Defined.

(** X15. An answer of the classifier that names no category sends the
    adaptive handler down the vector-only path: from the world after the
    classification request on, it retrieves and answers exactly as the
    fusion handler does. *)
Theorem adaptive_default_is_fusion (env : Env) (query : string)
    (messages : list Message) (k : Z) (w w1 : world) (category : string) :
  call_model env (AdaptiveRAG.classifier_messages query) 5 false w = (Ok category, w1) ->
  forallb (fun valid => negb (Str.contains valid (Str.lower category)))
    AdaptiveRAG.valid_categories = true ->
  AdaptiveRAG.retrieve env query k w = FusionRAG.retrieve env query k w1
  /\ __call__ (AdaptiveRAG.new env) query messages k w
     = __call__ (FusionRAG.new env) query messages k w1.
Proof.
  intros Hcall Hnone.
  assert (Hret : AdaptiveRAG.retrieve env query k w = FusionRAG.retrieve env query k w1).
  { unfold AdaptiveRAG.retrieve, bind. rewrite classify_eq, Hcall, first_valid_eq.
    unfold AdaptiveRAG.valid_categories in Hnone. cbn [forallb] in Hnone.
    destruct (Str.contains "irrelevant" _); [discriminate|].
    destruct (Str.contains "relevant" _); [discriminate|].
    destruct (Str.contains "complex" _); [discriminate|]. reflexivity. }
  split; [exact Hret|].
  unfold __call__, bind. cbn [retrieve generate AdaptiveRAG.new FusionRAG.new].
  now rewrite Hret.
Qed.

Lemma unsure_classifier_takes_vector_path :
  AdaptiveRAG.retrieve (Doubles.env_up "I am not sure." "") "What is the return policy?" 5
    Doubles.empty_world
  = FusionRAG.retrieve (Doubles.env_up "I am not sure." "") "What is the return policy?" 5
      (add_events Doubles.empty_world
         [EvPost (AdaptiveRAG.classifier_messages "What is the return policy?") 5 false]).
Proof.
  apply (adaptive_default_is_fusion (Doubles.env_up "I am not sure." "")
           "What is the return policy?" [] 5 Doubles.empty_world _ "I am not sure.").
  - reflexivity.
  - reflexivity.
Defined.

(* ===================================================================== *)
(** ** api.py: sessions *)
(* ===================================================================== *)

Lemma backend_only_respond (env : Env) (name : string) (handler : BaseRAG)
    (request : QueryInput) (w w0 w1 : world) (outcome : result StreamingResponse) :
  RAG_REGISTRY env !! name = Some handler ->
  respond env handler request w w0 = (outcome, w1) ->
  exists evs, w1 = add_events w0 evs /\ forallb is_backend_call evs = true.
Proof.
  intros Hreg H. unfold respond in H.
  destruct (backend_only_call env name handler (question request)
              (history_before request w) 5 Hreg w0) as (evs & Hw & Hevs).
  destruct (__call__ handler _ _ 5 w0) as [[resp|e] w']; cbn [snd] in Hw; subst w';
    injection H as _ <-; eauto.
Qed.

(** X16. A request without a session id, or with the empty string as id, is
    served in a new session: the store is not read (every call the handler
    makes goes to a retrieval or generation backend), the id of the response
    is the freshly minted one, and the history starts from the system turn
    alone. *)
Theorem request_without_session_starts_fresh (env : Env) (request : QueryInput)
    (w w1 : world) (r : StreamingResponse) :
  session_id request = None \/ session_id request = Some EmptyString ->
  chat env request w = (Ok r, w1) ->
  closure_session_id r = uuid4 env
  /\ closure_messages r
     = [ mkMessage "system" Prompts.GENERATION_SYSTEM_PROMPT;
         mkMessage "user" (question request) ]
  /\ exists evs, w1 = add_events w evs /\ forallb is_backend_call evs = true.
Proof.
  intros Hsid H.
  assert (Hnew : session_id_given (session_id request) = None)
    by (destruct Hsid as [-> | ->]; reflexivity).
  unfold chat in H.
  destruct (RAG_REGISTRY env !! _) as [handler|] eqn:Hreg; [|discriminate].
  rewrite chat_with_eq, Hnew in H.
  destruct (backend_only_respond _ _ _ _ _ _ _ _ Hreg H) as (evs & Hw1 & Hevs).
  unfold respond, session_of, history_before in H. rewrite Hnew in H.
  destruct (__call__ handler _ _ 5 w) as [[resp|e] w']; [|discriminate].
  injection H as <- <-. cbn. eauto.
Qed.

Lemma empty_session_id_is_replaced :
  closure_session_id
    (Doubles.response_of
       (chat (Doubles.env_up "Relevant" "")
          (mkQueryInput "What is the return policy?" "fusion" (Some ""))
          Doubles.world_with_session))
  = Doubles.session.
Proof.
  apply (request_without_session_starts_fresh (Doubles.env_up "Relevant" "")
           (mkQueryInput "What is the return policy?" "fusion" (Some ""))
           Doubles.world_with_session
           (snd (chat (Doubles.env_up "Relevant" "")
                   (mkQueryInput "What is the return policy?" "fusion" (Some ""))
                   Doubles.world_with_session))).
  - right. reflexivity.
  - vm_compute. reflexivity.
Defined.

(** X17. A request that names a session fails as soon as the store cannot
    be reached: [chat] raises the connection error right after the attempted
    read, before any retrieval or generation backend is called. *)
Theorem unreachable_store_fails_session_request (env : Env) (request : QueryInput)
    (w : world) (sid : string) (handler : BaseRAG) :
  es_reachable env = false ->
  session_id_given (session_id request) = Some sid ->
  RAG_REGISTRY env !! Str.lower (rag_type request) = Some handler ->
  chat env request w
  = (Raise ElasticsearchHistoryManager.ConnectionError, add_events w [EvHistoryGet sid]).
Proof.
  intros Hes Hsid Hreg. unfold chat. now rewrite Hreg, chat_with_eq, Hsid, Hes.
Qed.

Lemma follow_up_fails_with_store_down :
  chat Doubles.env_store_down
    (mkQueryInput "And for sale items?" "adaptive" (Some "s-42"))
    Doubles.world_with_session
  = (Raise ElasticsearchHistoryManager.ConnectionError,
     add_events Doubles.world_with_session [EvHistoryGet "s-42"]).
Proof.
  apply (unreachable_store_fails_session_request Doubles.env_store_down
           (mkQueryInput "And for sale items?" "adaptive" (Some "s-42"))
           Doubles.world_with_session "s-42"
           (AdaptiveRAG.new Doubles.env_store_down)).
  - reflexivity.
  - reflexivity.
  - apply registry_lookup. auto.
Defined.

Lemma send_body_other_sessions (env : Env) (sid : string) (messages : list Message) :
  forall (reads : nat) (g : generator) (w w2 : world)
         (outcome : result (list SSE * bool)) (sid' : string),
    send_body env reads sid messages g w = (outcome, w2) ->
    sid' <> sid ->
    stored_history w2 sid' = stored_history w sid'.
Proof.
  induction reads as [|reads IH]; intros g w w2 outcome sid' H Hne.
  - now injection H as _ <-.
  - rewrite send_body_step in H. destruct g as [lines acc|acc|].
    + destruct (loop_to_yield env sid lines acc) as [[ev g']|e].
      * destruct (send_body env reads sid messages g' w) as [[rest|e] w'] eqn:Hrest;
          injection H as _ <-; eapply IH; eauto.
      * now injection H as _ <-.
    + destruct (es_reachable env); injection H as _ <-.
      * rewrite stored_history_committed. case_decide; congruence.
      * reflexivity.
    + now injection H as _ <-.
Qed.

(** X18. Whatever becomes of a request (served to the end, abandoned by the
    client, failed), it leaves the stored history of every session other
    than its own exactly as it was. *)
Theorem request_leaves_other_sessions_alone (env : Env) (reads : nat)
    (request : QueryInput) (w w2 : world) (outcome : result (list SSE * bool))
    (sid' : string) :
  handle_request env reads request w = (outcome, w2) ->
  sid' <> session_of env request ->
  stored_history w2 sid' = stored_history w sid'.
Proof.
  intros H Hne. unfold handle_request, bind in H.
  destruct (chat env request w) as [[r|e] w1] eqn:Hchat.
  - destruct (chat_ok_inv _ _ _ _ _ Hchat) as (Hsid & _ & _ & evs & -> & _).
    unfold send_response in H. rewrite Hsid in H.
    rewrite (send_body_other_sessions _ _ _ _ _ _ _ _ _ H Hne).
    apply stored_history_add_events.
  - destruct (read_only_chat env request w) as (evs & Hw & _).
    rewrite Hchat in Hw. cbn [snd] in Hw. injection H as _ <-. now rewrite Hw.
Qed.

Lemma new_turn_keeps_session_42 :
  stored_history
    (snd (handle_request (Doubles.env_up "Relevant" "") 7 Doubles.return_policy
            Doubles.world_with_session))
    "s-42"
  = Doubles.earlier_turns.
Proof.
  rewrite (request_leaves_other_sessions_alone (Doubles.env_up "Relevant" "") 7
             Doubles.return_policy Doubles.world_with_session _ _ "s-42"
             (surjective_pairing _)).
  - vm_compute. reflexivity.
  - vm_compute. discriminate.
Defined.




(* ===================================================================== *)
(** ** db/graph_db.py: indexing a saved graph file *)
(* ===================================================================== *)

Lemma index_ready_loop_ok (graph_data : list GraphDatabaseManager.GraphItem) :
  forall acc docs,
    GraphDatabaseManager.index_ready_loop graph_data acc = Ok docs <->
    exists new, docs = acc ++ new
                /\ Forall2 (fun item doc => GraphDatabaseManager.convert_item item = Ok doc)
                     graph_data new.
Proof.
  induction graph_data as [|item rest IH]; intros acc docs;
    cbn [GraphDatabaseManager.index_ready_loop].
  - split.
    + intros [= <-]. exists []. rewrite app_nil_r. split; [reflexivity|constructor].
    + intros (new & -> & Hall). inversion Hall. now rewrite app_nil_r.
  - destruct (GraphDatabaseManager.convert_item item) as [doc|e] eqn:Hitem.
    + rewrite IH. split.
      * intros (new & -> & Hall). exists (doc :: new). rewrite <- app_assoc.
        split; [reflexivity|]. constructor; auto.
      * intros (new & -> & Hall). inversion Hall as [|? d ? new' Hd Hrest]; subst.
        assert (d = doc) by congruence. subst d.
        exists new'. rewrite <- app_assoc. auto.
    + split; [discriminate|]. intros (new & _ & Hall).
      inversion Hall; subst. congruence.
Qed.

Lemma index_ready_loop_raises (graph_data : list GraphDatabaseManager.GraphItem) :
  forall acc,
    (exists item e, In item graph_data /\ GraphDatabaseManager.convert_item item = Raise e)
    <-> GraphDatabaseManager.index_ready_loop graph_data acc = Raise (PyError "NameError").
Proof.
  induction graph_data as [|item rest IH]; intros acc;
    cbn [GraphDatabaseManager.index_ready_loop].
  - split; [intros (item & e & Hnil & _); destruct Hnil|discriminate].
  - destruct (GraphDatabaseManager.convert_item item) as [doc|e] eqn:Hitem.
    + rewrite <- IH. split.
      * intros (item' & e & [Heq|Hin] & He); [subst item'; congruence|eauto].
      * intros (item' & e & Hin & He). exists item', e. cbn [In]. auto.
    + split; [reflexivity|]. intros _. exists item, e. cbn [In]. auto.
Qed.

(** X20. Indexing a saved graph file is all or nothing.  If every entry
    converts, the documents handed to the graph store are the conversions of
    the entries, in order.  If one entry does not (its text or its
    relationships are missing, or a relationship lacks a key), the loop does
    not skip it: the handler names a class that does not exist, so the loop
    ends with [NameError] and no document is handed over. *)
Theorem index_ready_is_all_or_nothing (graph_data : list GraphDatabaseManager.GraphItem) :
  (forall docs,
     GraphDatabaseManager.index_ready_loop graph_data [] = Ok docs <->
     Forall2 (fun item doc => GraphDatabaseManager.convert_item item = Ok doc)
       graph_data docs)
  /\ ((exists item e, In item graph_data
                      /\ GraphDatabaseManager.convert_item item = Raise e)
      <-> GraphDatabaseManager.index_ready_loop graph_data [] = Raise (PyError "NameError"))
  /\ (forall item, In item graph_data ->
        GraphDatabaseManager.item_text item = None
        \/ GraphDatabaseManager.item_parsed item = None ->
        GraphDatabaseManager.index_ready_loop graph_data [] = Raise (PyError "NameError")).
Proof.
  split; [|split].
  - intros docs. rewrite index_ready_loop_ok. split.
    + intros (new & -> & Hall). exact Hall.
    + intros Hall. exists docs. auto.
  - apply index_ready_loop_raises.
  - intros item Hin Hmissing. apply index_ready_loop_raises.
    exists item, (PyError "KeyError"). split; [exact Hin|].
    unfold GraphDatabaseManager.convert_item.
    destruct Hmissing as [-> | ->]; [reflexivity|].
    destruct (GraphDatabaseManager.item_text item); reflexivity.
Qed.

Lemma damaged_graph_file_indexes_nothing :
  GraphDatabaseManager.index_ready_loop Doubles.damaged_graph []
  = Raise (PyError "NameError")
  /\ length (Doubles.document_of
               (match GraphDatabaseManager.index_ready_loop Doubles.saved_graph [] with
                | Ok (doc :: _) => Ok doc
                | _ => Raise (PyError "empty")
                end)).(GraphDatabaseManager.nodes) = 2%nat.
Proof.
  split; [|vm_compute; reflexivity].
  destruct (index_ready_is_all_or_nothing Doubles.damaged_graph) as (_ & _ & Hmissing).
  apply (Hmissing (GraphDatabaseManager.mkGraphItem None (Some [Doubles.adam_award]))).
  - cbn. auto.
  - left. reflexivity.
Defined.

(* ===================================================================== *)
(** ** evaluate.py *)
(* ===================================================================== *)

Lemma partition_none (sep s : string) :
  Str.contains sep s = false -> Str.partition sep s = None.
Proof.
  induction s as [|c t IH]; cbn [Str.contains Str.partition]; intros H;
    apply orb_false_iff in H as [Hstart Hrest]; rewrite Hstart; [reflexivity|].
  now rewrite (IH Hrest).
Qed.

Lemma startswith_two_extend (a b : ascii) (x rest : string) :
  x <> EmptyString ->
  Str.startswith (String a (String b EmptyString)) (x +++ String a EmptyString) = false ->
  Str.startswith (String a (String b EmptyString))
    (x +++ String a (String b EmptyString) +++ rest) = false.
Proof.
  destruct x as [|c x]; [congruence|]. intros _.
  rewrite !append_cons, !startswith_cons.
  destruct (Ascii.eqb a c); [|auto].
  destruct x as [|d x].
  - change (EmptyString +++ String a EmptyString) with (String a EmptyString).
    change (EmptyString +++ String a (String b (EmptyString +++ rest)))
      with (String a (String b (EmptyString +++ rest))).
    rewrite !startswith_cons. destruct (Ascii.eqb b a); [discriminate|auto].
  - rewrite ?append_cons, !startswith_cons. destruct (Ascii.eqb b d); [discriminate|auto].
Qed.

(** The first occurrence of a two-character separator. *)
Lemma partition_first (a b : ascii) (pre rest : string) :
  Str.contains (String a (String b EmptyString)) (pre +++ String a EmptyString) = false ->
  Str.partition (String a (String b EmptyString))
    (pre +++ String a (String b EmptyString) +++ rest)
  = Some (pre, rest).
Proof.
  induction pre as [|c pre IH]; intros H.
  - change (EmptyString +++ ?y) with y. rewrite append_cons.
    change (String b EmptyString +++ rest) with (String b rest).
    cbn [Str.partition]. rewrite !startswith_cons, !Ascii.eqb_refl. reflexivity.
  - cbn [Str.contains] in H. rewrite append_cons in H. cbn [Str.contains] in H.
    apply orb_false_iff in H as [Hstart Hrest].
    assert (Hs : Str.startswith (String a (String b EmptyString))
                   (String c pre +++ String a (String b EmptyString) +++ rest) = false).
    { apply startswith_two_extend; [discriminate|]. now rewrite append_cons. }
    rewrite append_cons in Hs |- *. cbn [Str.partition]. rewrite Hs.
    now rewrite (IH Hrest).
Qed.

(** X21. [parse_response] hands to the JSON decoder the stripped text
    between the first [[[] of the response and the first []]] after it,
    whatever surrounds them, and answers [None] when the response has no
    [[[] or no []]] after it. *)
Theorem parse_response_reads_first_brackets {J : Type}
    (json_loads : string -> option J) :
  (forall response,
     Str.contains "[[" response = false ->
     Evaluate.parse_response json_loads response = None)
  /\ (forall pre rest,
        Str.contains "[[" (pre +++ "[") = false ->
        Str.contains "]]" rest = false ->
        Evaluate.parse_response json_loads (pre +++ "[[" +++ rest) = None)
  /\ (forall pre body post,
        Str.contains "[[" (pre +++ "[") = false ->
        Str.contains "]]" (body +++ "]") = false ->
        Evaluate.parse_response json_loads (pre +++ "[[" +++ body +++ "]]" +++ post)
        = json_loads (Str.strip body)).
Proof.
  unfold Evaluate.parse_response. split; [|split].
  - intros response H. now rewrite (partition_none _ _ H).
  - intros pre rest Hpre Hrest.
    rewrite (partition_first "[" "[" pre rest Hpre). now rewrite (partition_none _ _ Hrest).
  - intros pre body post Hpre Hbody.
    rewrite (partition_first "[" "[" pre (body +++ "]]" +++ post) Hpre).
    now rewrite (partition_first "]" "]" body post Hbody).
Qed.

Lemma scores_found_inside_prose :
  Evaluate.parse_response Doubles.loads_scores
    ("Here is my verdict: " +++ "[[" +++ " {Relevance: 9} " +++ "]]" +++ " Thank you. ]]")
  = Some "{Relevance: 9}".
Proof.
  destruct (parse_response_reads_first_brackets Doubles.loads_scores) as (_ & _ & H).
  rewrite (H "Here is my verdict: " " {Relevance: 9} " " Thank you. ]]");
    reflexivity.
Defined.

Lemma format_conversation_acc (messages : list Message) :
  forall acc,
    Evaluate.format_conversation messages acc
    = acc +++ Evaluate.format_conversation messages EmptyString.
Proof.
  induction messages as [|msg rest IH]; intros acc; cbn [Evaluate.format_conversation].
  - now rewrite append_nil_r.
  - destruct (String.eqb (role msg) "user");
      [|destruct (String.eqb (role msg) "assistant"); [|apply IH]];
      rewrite IH, (IH (EmptyString +++ _)); change (EmptyString +++ ?x) with x;
      now rewrite !append_assoc.
Qed.

Lemma evaluate_eq {J : Type} (json_loads : string -> option J) (env : Env)
    (messages : list Message) (w : world) :
  Evaluate.evaluate json_loads env messages w =
  match call_model env
          (eval_messages (Evaluate.format_conversation messages EmptyString)) 600 false w
  with
  | (Ok resp, w1) => (Ok (Evaluate.parse_response json_loads resp), w1)
  | (Raise e, w1) => (Raise e, w1)
  end.
Proof.
  unfold Evaluate.evaluate, bind, ret, eval_messages. cbn [app].
  destruct (call_model env _ 600 false w) as [[resp|e] w1]; reflexivity.
Qed.

(** X22. The transcript the evaluator judges shows the user and assistant
    turns, in order, and nothing else.  A user turn contributes [User: ]
    followed by its content and a blank line, an assistant turn
    [Assistant: ] followed by its content and a blank line, a system turn
    nothing; the transcript of two histories put together is the two
    transcripts put together; turns of any role other than these two leave
    no trace, so [evaluate] asks the same of the model with or without
    them. *)
Theorem evaluation_transcript_shows_spoken_turns {J : Type}
    (json_loads : string -> option J) (env : Env) (a b : list Message)
    (text : string) :
  Evaluate.format_conversation [mkMessage "user" text] EmptyString
  = "User: " +++ text +++ Str.LF +++ Str.LF
  /\ Evaluate.format_conversation [mkMessage "assistant" text] EmptyString
     = "Assistant: " +++ text +++ Str.LF +++ Str.LF
  /\ Evaluate.format_conversation [mkMessage "system" text] EmptyString = EmptyString
  /\ Evaluate.format_conversation (a ++ b) EmptyString
     = Evaluate.format_conversation a EmptyString
       +++ Evaluate.format_conversation b EmptyString
  /\ Evaluate.format_conversation (List.filter is_spoken a) EmptyString
     = Evaluate.format_conversation a EmptyString
  /\ Evaluate.evaluate json_loads env (List.filter is_spoken a)
     = Evaluate.evaluate json_loads env a.
Proof.
  assert (Happ : forall x y acc,
             Evaluate.format_conversation (x ++ y) acc
             = Evaluate.format_conversation y (Evaluate.format_conversation x acc)).
  { induction x as [|msg x IH]; intros y acc; [reflexivity|].
    cbn [app Evaluate.format_conversation].
    destruct (String.eqb (role msg) "user");
      [|destruct (String.eqb (role msg) "assistant")]; apply IH. }
  assert (Hfilter : forall x acc,
             Evaluate.format_conversation (List.filter is_spoken x) acc
             = Evaluate.format_conversation x acc).
  { induction x as [|msg x IH]; intros acc; [reflexivity|].
    cbn [List.filter]. unfold is_spoken at 1. cbn [Evaluate.format_conversation].
    destruct (String.eqb (role msg) "user") eqn:Hu; cbn [orb].
    - cbn [Evaluate.format_conversation]. rewrite Hu. apply IH.
    - destruct (String.eqb (role msg) "assistant") eqn:Ha.
      + cbn [Evaluate.format_conversation]. rewrite Hu, Ha. apply IH.
      + apply IH. }
  split; [reflexivity|]. split; [reflexivity|]. split; [reflexivity|].
  split; [|split].
  - rewrite Happ. apply format_conversation_acc.
  - apply Hfilter.
  - unfold Evaluate.evaluate. now rewrite Hfilter.
Qed.

(** X23. [load_data] never yields a blank prompt: every prompt it returns is
    non-empty and has no whitespace at either end, and there are at most as
    many prompts as lines. *)
Theorem load_data_prompts_are_trimmed (readlines : list string) :
  Forall (fun prompt => prompt <> EmptyString /\ Str.strip prompt = prompt)
    (Evaluate.load_data readlines)
  /\ (length (Evaluate.load_data readlines) <= length readlines)%nat.
Proof.
  unfold Evaluate.load_data. split.
  - induction readlines as [|line rest IH]; [constructor|].
    cbn [List.filter]. destruct (Str.strip line) eqn:Hline; cbn [Str.truthy]; [exact IH|].
    cbn [List.map]. constructor; [|exact IH]. rewrite strip_idempotent, Hline.
    split; [discriminate|reflexivity].
  - rewrite length_map. apply filter_length_le.
Qed.

(* ===================================================================== *)
(** ** interactive_chat.py: the client of the stream *)
(* ===================================================================== *)

Lemma learned_session_all (sid : string) (events : list SSE) (session_id : option string) :
  events <> [] ->
  Forall (fun ev => sse_session_id ev = sid) events ->
  learned_session events session_id = Some sid.
Proof.
  unfold learned_session. revert session_id.
  induction events as [|ev rest IH]; intros s0 Hne Hall; [congruence|].
  inversion Hall as [|? ? Hev Hrest]; subst. cbn [fold_left].
  destruct rest as [|ev' rest']; [reflexivity|]. apply IH; [discriminate|exact Hrest].
Qed.

Lemma read_stream_wire (json_dumps : SSE -> string)
    (json_loads : string -> InteractiveChat.parsed) (events : list SSE) :
  Forall (decodes_event json_dumps json_loads) events ->
  forall (full_response : string) (session_id : option string),
    InteractiveChat.read_stream json_loads (wire_lines json_dumps events)
      full_response session_id
    = Ok (full_response +++ Str.concat (List.map token events),
          learned_session events session_id).
Proof.
  induction 1 as [|ev rest Hev _ IH]; intros full sid0.
  - cbn. now rewrite append_nil_r.
  - unfold wire_lines. cbn [List.flat_map app]. fold (wire_lines json_dumps rest).
    cbn [InteractiveChat.read_stream bytes_truthy decode_utf8].
    change (Str.truthy ("data: " +++ json_dumps ev)) with true.
    change (Str.startswith "data:" ("data: " +++ json_dumps ev)) with true.
    change (Str.drop 5 ("data: " +++ json_dumps ev)) with (" " +++ json_dumps ev).
    cbv iota. unfold decodes_event in Hev. rewrite Hev.
    rewrite lookup_insert_eq, lookup_insert_ne by discriminate.
    rewrite lookup_insert_eq. cbn [default Str.truthy]. rewrite IH.
    unfold learned_session, Str.concat. cbn [List.map fold_right fold_left].
    now rewrite append_assoc.
Qed.

Lemma chat_ok_body (env : Env) (request : QueryInput) (w w1 : world)
    (r : StreamingResponse) :
  chat env request w = (Ok r, w1) ->
  exists lines, body_iterator r = GenLoop lines EmptyString.
Proof.
  intros H. unfold chat in H.
  destruct (RAG_REGISTRY env !! _) as [handler|]; [|discriminate].
  rewrite chat_with_eq in H.
  assert (Hresp : exists w0, respond env handler request w w0 = (Ok r, w1)).
  { destruct (session_id_given _); [|eauto].
    destruct (es_reachable env); [eauto|discriminate]. }
  destruct Hresp as (w0 & Hresp). unfold respond in Hresp.
  destruct (__call__ handler _ _ 5 w0) as [[resp|e] w']; [|discriminate].
  injection Hresp as <- <-. cbn. eauto.
Qed.

Lemma send_body_loop_sends (env : Env) (reads : nat) (sid : string)
    (messages : list Message) (lines : list bytes) (acc : string) (w w2 : world)
    (events : list SSE) :
  send_body env reads sid messages (GenLoop lines acc) w = (Ok (events, true), w2) ->
  events <> [].
Proof.
  destruct reads as [|reads]; [discriminate|]. rewrite send_body_step.
  destruct (loop_to_yield env sid lines acc) as [[ev g']|e]; [|discriminate].
  destruct (send_body env reads sid messages g' w) as [[rest|e] w']; [|discriminate].
  intros [= <- _ _]. discriminate.
Qed.

(** X24. What the interactive client shows is what the server stores.  When
    a turn is served to its end and the client receives the lines of its
    events and decodes the objects the server encoded, [chat_with_bot]
    returns the text of the assistant turn that is now last in the stored
    history, together with the session id the history is stored under,
    whichever id the client started with. *)
Theorem client_text_is_stored_answer (env : Env) (request : QueryInput)
    (reads : nat) (w w1 w2 : world) (r : StreamingResponse) (events : list SSE)
    (json_dumps : SSE -> string) (json_loads : string -> InteractiveChat.parsed)
    (post : string -> option string -> option InteractiveChat.HttpResponse) :
  chat env request w = (Ok r, w1) ->
  send_response env reads r w1 = (Ok (events, true), w2) ->
  Forall (decodes_event json_dumps json_loads) events ->
  post (question request) (session_id request)
  = Some (InteractiveChat.mkHttpResponse 200 (wire_lines json_dumps events) false) ->
  exists answer,
    InteractiveChat.chat_with_bot json_loads post (question request) (session_id request)
    = Ok (answer, Some (session_of env request))
    /\ answer = Str.concat (List.map token events)
    /\ List.last (stored_history w2 (session_of env request)) (mkMessage "" "")
       = mkMessage "assistant" answer.
Proof.
  intros Hchat Hsend Hcodec Hpost.
  destruct (chat_ok_inv _ _ _ _ _ Hchat) as (Hsid & Hmsgs & Hpend & _).
  destruct (chat_ok_body _ _ _ _ _ Hchat) as (lines & Hbody).
  unfold send_response in Hsend.
  destruct (send_body_complete _ _ _ _ _ _ _ _ _ Hpend Hsend) as (Hall & ->).
  rewrite Hbody in Hsend. apply send_body_loop_sends in Hsend.
  exists (Str.concat (List.map token events)). split; [|split; [reflexivity|]].
  - unfold InteractiveChat.chat_with_bot. rewrite Hpost.
    cbn [InteractiveChat.status_code InteractiveChat.received_lines
         InteractiveChat.interrupted Z.eqb Pos.eqb negb].
    rewrite (read_stream_wire _ _ _ Hcodec).
    rewrite (learned_session_all (closure_session_id r)), Hsid by assumption.
    reflexivity.
  - rewrite Hsid, stored_history_committed. case_decide; [|congruence].
    now rewrite last_last.
Qed.

Lemma client_shows_return_policy :
  InteractiveChat.chat_with_bot Doubles.loads_event Endpoints.endpoint_up
    "What is the return policy?" None
  = Ok ("The return policy is 30 days.", Some Doubles.session).
Proof.
  pose (env := Doubles.env_up "Relevant" "").
  pose (chatted := chat env Doubles.return_policy Doubles.empty_world).
  pose (sent := send_response env 7 (Doubles.response_of chatted) (snd chatted)).
  destruct (client_text_is_stored_answer env Doubles.return_policy 7
              Doubles.empty_world (snd chatted) (snd sent)
              (Doubles.response_of chatted) (Doubles.events_of sent)
              Doubles.dumps_event Doubles.loads_event Endpoints.endpoint_up)
    as (answer & Hclient & Hanswer & _).
  - vm_compute. reflexivity.
  - vm_compute. reflexivity.
  - repeat constructor.
  - vm_compute. reflexivity.
  - etransitivity; [exact Hclient|]. rewrite Hanswer. vm_compute. reflexivity.
Defined.

(** X25. The client never reports a broken exchange as an answer.  When the
    request cannot be sent, when the endpoint answers with a status other
    than 200 (as it does for an unknown strategy), or when the connection
    breaks before the body ends, [chat_with_bot] returns the empty text and
    the session id it was called with: the text and the id received before
    the break are dropped. *)
Theorem client_drops_broken_exchange (json_loads : string -> InteractiveChat.parsed)
    (post : string -> option string -> option InteractiveChat.HttpResponse)
    (question : string) (session_id : option string) :
  (post question session_id = None ->
   InteractiveChat.chat_with_bot json_loads post question session_id
   = Ok (EmptyString, session_id))
  /\ (forall response,
        post question session_id = Some response ->
        InteractiveChat.status_code response <> 200 ->
        InteractiveChat.chat_with_bot json_loads post question session_id
        = Ok (EmptyString, session_id))
  /\ (forall json_dumps events,
        Forall (decodes_event json_dumps json_loads) events ->
        post question session_id
        = Some (InteractiveChat.mkHttpResponse 200 (wire_lines json_dumps events) true) ->
        InteractiveChat.chat_with_bot json_loads post question session_id
        = Ok (EmptyString, session_id)).
Proof.
  unfold InteractiveChat.chat_with_bot. split; [|split].
  - now intros ->.
  - intros response -> Hstatus.
    destruct (Z.eqb_spec (InteractiveChat.status_code response) 200); [contradiction|].
    reflexivity.
  - intros json_dumps events Hcodec ->.
    cbn [InteractiveChat.status_code InteractiveChat.received_lines
         InteractiveChat.interrupted Z.eqb Pos.eqb negb].
    now rewrite (read_stream_wire _ _ _ Hcodec).
Qed.

Lemma client_after_rejection_and_break :
  InteractiveChat.chat_with_bot Doubles.loads_event Endpoints.endpoint_rejects
    "What is the return policy?" (Some "s-42")
  = Ok (EmptyString, Some "s-42")
  /\ InteractiveChat.chat_with_bot Doubles.loads_event Endpoints.endpoint_breaks
       "What is the return policy?" None
     = Ok (EmptyString, None).
Proof.
  destruct (client_drops_broken_exchange Doubles.loads_event Endpoints.endpoint_rejects
              "What is the return policy?" (Some "s-42")) as (_ & Hstatus & _).
  destruct (client_drops_broken_exchange Doubles.loads_event Endpoints.endpoint_breaks
              "What is the return policy?" None) as (_ & _ & Hbreak).
  split.
  - apply (Hstatus (InteractiveChat.mkHttpResponse 400 [Utf8 "{}"] false));
      [reflexivity|discriminate].
  - apply (Hbreak Doubles.dumps_event
             [mkSSE "The" Doubles.session; mkSSE " return" Doubles.session]);
      [repeat constructor|reflexivity].
Defined.
